(** * go-http-client: a shallow embedding of the client profile, the request
      composer, the submission engine and the response envelope.

    The repository is four Go files (client, response, request, config).
    Go strings are byte strings and are modelled by [string] (one [ascii]
    per byte); [map[string][]string] (both [http.Header] and [url.Values])
    is a [gmap string (list string)] behind an [option], [None] being the
    nil map; a run-time panic is an explicit outcome of the [go] monad. *)

From Stdlib Require Import ZArith NArith Ascii String List Bool Lia.
From stdpp Require Import gmap strings list fin_maps sorting.

(* ===================================================================== *)
(** ** Go run time: panics *)
(* ===================================================================== *)

Inductive go (A : Type) : Type :=
| Done (a : A)
| Panic (msg : string).
Arguments Done {A} a.
Arguments Panic {A} msg.

Global Instance go_ret : MRet go := fun A a => Done a.
Global Instance go_bind : MBind go := fun A B k m =>
  match m with
  | Done a => k a
  | Panic msg => Panic msg
  end.

(** [for _, x := range xs { body }] over a slice, threading the state. *)
Fixpoint go_range {A St} (xs : list A) (body : A -> St -> go St) (s : St) : go St :=
  match xs with
  | [] => Done s
  | x :: xs' => s' ← body x s; go_range xs' body s'
  end.

(* ===================================================================== *)
(** ** Package strings and byte classes *)
(* ===================================================================== *)

Definition byte (c : ascii) : N := N_of_ascii c.

Definition between (lo hi : ascii) (c : ascii) : bool :=
  (byte lo <=? byte c)%N && (byte c <=? byte hi)%N.

Definition is_lower (c : ascii) : bool := between "a" "z" c.
Definition is_upper (c : ascii) : bool := between "A" "Z" c.
Definition is_digit (c : ascii) : bool := between "0" "9" c.
Definition is_alpha (c : ascii) : bool := is_lower c || is_upper c.
Definition is_alnum (c : ascii) : bool := is_alpha c || is_digit c.

(** [c ∈ set] for a byte and the bytes of a literal. *)
Fixpoint byte_in (c : ascii) (set : string) : bool :=
  match set with
  | "" => false
  | String d set' => Ascii.eqb c d || byte_in c set'
  end.

Module strings.

Definition HasPrefix (s prefix : string) : bool := String.prefix prefix s.

Fixpoint drop (n : nat) (s : string) : string :=
  match n, s with
  | O, _ => s
  | S n', String _ s' => drop n' s'
  | S _, "" => ""
  end.

Fixpoint take (n : nat) (s : string) : string :=
  match n, s with
  | O, _ => ""
  | S n', String c s' => String c (take n' s')
  | S _, "" => ""
  end.

Definition TrimPrefix (s prefix : string) : string :=
  if HasPrefix s prefix then drop (String.length prefix) s else s.

Definition HasSuffix (s suffix : string) : bool :=
  HasPrefix (String.rev s) (String.rev suffix).

(** [strings.Index]: the first index of [sep], [None] for Go's [-1]. *)
Fixpoint Index (s sep : string) : option nat :=
  if HasPrefix s sep then Some O
  else match s with
       | "" => None
       | String _ s' => S <$> Index s' sep
       end.

(** [strings.LastIndex]: the last index of [sep], [None] for [-1]. *)
Fixpoint LastIndex (s sep : string) : option nat :=
  match s with
  | "" => if HasPrefix s sep then Some O else None
  | String _ s' =>
      match LastIndex s' sep with
      | Some i => Some (S i)
      | None => if HasPrefix s sep then Some O else None
      end
  end.

Definition Contains (s sub : string) : bool :=
  match Index s sub with Some _ => true | None => false end.

(** [strings.Count] for a separator of one byte. *)
Fixpoint CountByte (s : string) (c : ascii) : nat :=
  match s with
  | "" => O
  | String d s' => (if Ascii.eqb d c then 1 else 0) + CountByte s' c
  end.

(** [strings.Cut]: (before, after, found). *)
Definition Cut (s sep : string) : string * string * bool :=
  match Index s sep with
  | Some i => (take i s, drop (i + String.length sep) s, true)
  | None => (s, "", false)
  end.

(** ASCII case mapping.  Go also maps non-ASCII letters (and rewrites
    invalid UTF-8); here bytes from 0x80 on are kept as they are: the
    strings the client lowers or uppers are header names and methods. *)
Definition lower_byte (c : ascii) : ascii :=
  if is_upper c then ascii_of_N (byte c + 32) else c.
Definition upper_byte (c : ascii) : ascii :=
  if is_lower c then ascii_of_N (byte c - 32) else c.

Fixpoint map_bytes (f : ascii -> ascii) (s : string) : string :=
  match s with
  | "" => ""
  | String c s' => String (f c) (map_bytes f s')
  end.

Definition ToLower (s : string) : string := map_bytes lower_byte s.
Definition ToUpper (s : string) : string := map_bytes upper_byte s.

(** [unicode.IsSpace], as UTF-8 byte sequences: the six ASCII spaces,
    U+0085, U+00A0, U+1680, U+2000..U+200A, U+2028, U+2029, U+202F,
    U+205F and U+3000. *)
Definition b (n : N) : ascii := ascii_of_N n.
Definition seq2 (x y : N) : string := String (b x) (String (b y) "").
Definition seq3 (x y z : N) : string := String (b x) (seq2 y z).

Definition space_runes : list string :=
  map (fun n => String (b n) "") [9; 10; 11; 12; 13; 32]%N
  ++ [ seq2 194 133; seq2 194 160; seq3 225 154 128 ]
  ++ map (fun n => seq3 226 128 n)
       [128; 129; 130; 131; 132; 133; 134; 135; 136; 137; 138; 168; 169; 175]%N
  ++ [ seq3 226 129 159; seq3 227 128 128 ].

(** The first space rune that starts [s], if any. *)
Fixpoint leading (runes : list string) (s : string) : option string :=
  match runes with
  | [] => None
  | r :: runes' => if HasPrefix s r then Some r else leading runes' s
  end.

Fixpoint trim_left (runes : list string) (fuel : nat) (s : string) : string :=
  match fuel with
  | O => s
  | S fuel' =>
      match leading runes s with
      | Some r => trim_left runes fuel' (drop (String.length r) s)
      | None => s
      end
  end.

Definition TrimLeftSpace (s : string) : string :=
  trim_left space_runes (String.length s) s.

Definition TrimRightSpace (s : string) : string :=
  String.rev (trim_left (map String.rev space_runes) (String.length s) (String.rev s)).

Definition TrimSpace (s : string) : string := TrimRightSpace (TrimLeftSpace s).

(** [strings.Trim(s, cutset)] for an ASCII cutset. *)
Fixpoint trim_left_set (cutset : string) (s : string) : string :=
  match s with
  | "" => ""
  | String c s' => if byte_in c cutset then trim_left_set cutset s' else s
  end.

Definition Trim (s cutset : string) : string :=
  String.rev (trim_left_set cutset (String.rev (trim_left_set cutset s))).

End strings.

(* ===================================================================== *)
(** ** Errors *)
(* ===================================================================== *)

(** Go error values.  [errorString] is [errors.New], [errorf] is
    [fmt.Errorf] kept symbolic (format and arguments), [url_Error] is the
    wrapper [*url.Error] of packages net/url and net/http. *)
Inductive error : Type :=
| errorString (msg : string)
| errorf (format : string) (args : list string)
| EscapeError (s : string)
| InvalidHostError (s : string)
| url_Error (op url : string) (err : error)
| ErrUseLastResponse
| TooManyRedirects.

(** Modelled from the spec: [TooManyRedirects] is a package-level error
    value declared in a file of the repository that is not among the
    sources; the spec names it as the condition of an exhausted redirect
    budget.  It is a value of its own, distinct from every other error. *)
Definition TooManyRedirects_value : error := TooManyRedirects.

Global Instance error_eq_dec : EqDecision error.
Proof. solve_decision. Defined.

(** [errors.Is(err, target)]: [*url.Error] unwraps to its cause. *)
Fixpoint errors_Is (err target : error) : bool :=
  if decide (err = target) then true
  else match err with
       | url_Error _ _ cause => errors_Is cause target
       | _ => false
       end.

(** A Go result pair [(value, error)] with exactly one side set. *)
Abbreviation result A := (sum A error).
Abbreviation Ok a := (inl a) (only parsing).
Abbreviation Err e := (inr e) (only parsing).

(* ===================================================================== *)
(** ** map[string][]string *)
(* ===================================================================== *)

(** [None] is the nil map: it reads as empty and panics on assignment. *)
Abbreviation MultiMap := (option (gmap string (list string))).

Definition make_map : MultiMap := Some ∅.

(** [m[key]]: the nil slice when the key (or the map) is absent. *)
Definition map_get (m : MultiMap) (key : string) : list string :=
  match m with
  | Some g => default [] (g !! key)
  | None => []
  end.

(** [_, ok := m[key]]. *)
Definition map_has (m : MultiMap) (key : string) : bool :=
  match m with
  | Some g => bool_decide (is_Some (g !! key))
  | None => false
  end.

(** [m[key] = append(m[key], value)]. *)
Definition map_append (m : MultiMap) (key value : string) : go MultiMap :=
  match m with
  | Some g => Done (Some (<[key := default [] (g !! key) ++ [value]]> g))
  | None => Panic "assignment to entry in nil map"
  end.

Definition map_len (m : MultiMap) : nat :=
  match m with Some g => size g | None => O end.

(** The entries a [range] visits.  Go leaves the order open; this is one
    order.  What is stated with it below is membership, or values under
    keys that [url.Add] keeps apart; [shared.range_add] further down takes
    the order of a range as it comes. *)
Definition map_entries (m : MultiMap) : list (string * list string) :=
  match m with Some g => map_to_list g | None => [] end.

(** [for k, v := range src { for _, each := range v { dst.Add(k, each) } }]
    for a given [Add] and a given enumeration of [src]. *)
Definition add_each (Add : MultiMap -> string -> string -> go MultiMap)
    (entries : list (string * list string)) (dst : MultiMap) : go MultiMap :=
  go_range entries
    (fun kv dst => go_range kv.2 (fun each dst => Add dst kv.1 each) dst) dst.

(* ===================================================================== *)
(** ** Package net/url *)
(* ===================================================================== *)

(** The parts of Go's net/url the client calls: [Parse], [URL.Query],
    [Values.Add] and [Values.Encode], with the helpers they rest on. *)
Module url.

Inductive encoding : Set :=
| encodePath | encodePathSegment | encodeHost | encodeZone
| encodeUserPassword | encodeQueryComponent | encodeFragment.

Global Instance encoding_eq_dec : EqDecision encoding.
Proof. solve_decision. Defined.

Definition ishex (c : ascii) : bool :=
  is_digit c || between "a" "f" c || between "A" "F" c.

Definition unhex (c : ascii) : N :=
  if is_digit c then byte c - 48
  else if between "a" "f" c then byte c - 97 + 10
  else if between "A" "F" c then byte c - 65 + 10
  else 0.

Definition shouldEscape (c : ascii) (mode : encoding) : bool :=
  if is_alnum c then false
  else if bool_decide (mode = encodeHost ∨ mode = encodeZone)
          && (byte_in c "!$&'()*+,;=:[]<>" || (byte c =? 34)%N)
  then false
  else if byte_in c "-_.~" then false
  else if byte_in c "$&+,/:;=?@" then
    match mode with
    | encodePath => Ascii.eqb c "?"
    | encodePathSegment => byte_in c "/;,?"
    | encodeUserPassword => byte_in c "@/?:"
    | encodeQueryComponent => true
    | encodeFragment => false
    | encodeHost | encodeZone => true
    end
  else if bool_decide (mode = encodeFragment) && byte_in c "!()*" then false
  else true.

Definition decode_hex (h1 h2 : ascii) : ascii :=
  ascii_of_N (N.lor (N.shiftl (unhex h1) 4) (unhex h2)).

(** First pass of [unescape]: every [%] starts a well-formed escape that
    the mode admits, and a host holds no byte that would need one. *)
Fixpoint unescape_check (mode : encoding) (s : string) : option error :=
  match s with
  | "" => None
  | String c rest =>
      if Ascii.eqb c "%" then
        match rest with
        | String h1 (String h2 rest') =>
            if negb (ishex h1 && ishex h2) then Some (EscapeError (strings.take 3 s))
            else if bool_decide (mode = encodeHost) && (unhex h1 <? 8)%N
                    && negb (String.eqb (strings.take 3 s) "%25")
            then Some (EscapeError (strings.take 3 s))
            else if bool_decide (mode = encodeZone)
                    && negb (String.eqb (strings.take 3 s) "%25")
                    && negb (Ascii.eqb (decode_hex h1 h2) " ")
                    && shouldEscape (decode_hex h1 h2) encodeHost
            then Some (EscapeError (strings.take 3 s))
            else unescape_check mode rest'
        | _ => Some (EscapeError (strings.take 3 s))
        end
      else if Ascii.eqb c "+" then unescape_check mode rest
      else if bool_decide (mode = encodeHost ∨ mode = encodeZone)
              && (byte c <? 128)%N && shouldEscape c encodeHost
      then Some (InvalidHostError (String c ""))
      else unescape_check mode rest
  end.

(** Second pass of [unescape], on a string that passed the first. *)
Fixpoint unescape_decode (mode : encoding) (s : string) : string :=
  match s with
  | "" => ""
  | String c rest =>
      if Ascii.eqb c "%" then
        match rest with
        | String h1 (String h2 rest') =>
            String (decode_hex h1 h2) (unescape_decode mode rest')
        | _ => s
        end
      else if Ascii.eqb c "+" then
        String (if bool_decide (mode = encodeQueryComponent) then " " else "+")%char
               (unescape_decode mode rest)
      else String c (unescape_decode mode rest)
  end.

Definition unescape (s : string) (mode : encoding) : result string :=
  match unescape_check mode s with
  | Some e => Err e
  | None => Ok (unescape_decode mode s)
  end.

Definition upperhex (n : N) : ascii :=
  default "0"%char (list_ascii_of_string "0123456789ABCDEF" !! N.to_nat n).

Fixpoint escape (s : string) (mode : encoding) : string :=
  match s with
  | "" => ""
  | String c rest =>
      if Ascii.eqb c " " && bool_decide (mode = encodeQueryComponent)
      then String "+" (escape rest mode)
      else if shouldEscape c mode
      then String "%" (String (upperhex (N.shiftr (byte c) 4))
                        (String (upperhex (N.land (byte c) 15)) (escape rest mode)))
      else String c (escape rest mode)
  end.

Definition QueryUnescape (s : string) : result string := unescape s encodeQueryComponent.
Definition QueryEscape (s : string) : string := escape s encodeQueryComponent.

Record Userinfo : Type := mkUserinfo {
  username : string;
  password : string;
  passwordSet : bool
}.

Record URL : Type := mkURL {
  Scheme : string;
  Opaque : string;
  User : option Userinfo;
  Host : string;
  Path : string;
  RawPath : string;
  OmitHost : bool;
  ForceQuery : bool;
  RawQuery : string;
  Fragment : string;
  RawFragment : string
}.

Definition empty_URL : URL :=
  mkURL "" "" None "" "" "" false false "" "" "".

(** [getScheme], the scan written as a recursion on the unread suffix;
    [i] is the index of its first byte in [rawURL]. *)
Fixpoint getScheme_at (rawURL : string) (i : nat) (s : string)
  : result (string * string) :=
  match s with
  | "" => Ok ("", rawURL)
  | String c s' =>
      if is_alpha c then getScheme_at rawURL (S i) s'
      else if is_digit c || byte_in c "+-." then
        if Nat.eqb i 0 then Ok ("", rawURL) else getScheme_at rawURL (S i) s'
      else if Ascii.eqb c ":" then
        if Nat.eqb i 0 then Err (errorString "missing protocol scheme")
        else Ok (strings.take i rawURL, strings.drop (S i) rawURL)
      else Ok ("", rawURL)
  end.

Definition getScheme (rawURL : string) : result (string * string) :=
  getScheme_at rawURL 0 rawURL.

Fixpoint all_bytes (p : ascii -> bool) (s : string) : bool :=
  match s with
  | "" => true
  | String c s' => p c && all_bytes p s'
  end.

Definition stringContainsCTLByte (s : string) : bool :=
  negb (all_bytes (fun c => negb ((byte c <? 32)%N || (byte c =? 127)%N)) s).

Definition validOptionalPort (port : string) : bool :=
  match port with
  | "" => true
  | String c digits => Ascii.eqb c ":" && all_bytes is_digit digits
  end.

Definition validUserinfo (s : string) : bool :=
  all_bytes (fun c => is_alnum c || byte_in c "-._:~!$&'()*+,;=%@") s.

Definition parseHost (host : string) : result string :=
  let plain :=
    match unescape host encodeHost with
    | inr e => Err e
    | inl h => Ok h
    end in
  if strings.HasPrefix host "[" then
    match strings.LastIndex host "]" with
    | None => Err (errorString "missing ']' in host")
    | Some i =>
        let colonPort := strings.drop (S i) host in
        if negb (validOptionalPort colonPort)
        then Err (errorf "invalid port %q after host" [colonPort])
        else
          match strings.Index (strings.take i host) "%25" with
          | Some zone =>
              match unescape (strings.take zone host) encodeHost with
              | inr e => Err e
              | inl host1 =>
                  match unescape (strings.drop zone (strings.take i host)) encodeZone with
                  | inr e => Err e
                  | inl host2 =>
                      match unescape (strings.drop i host) encodeHost with
                      | inr e => Err e
                      | inl host3 => Ok (host1 +:+ host2 +:+ host3)
                      end
                  end
              end
          | None => plain
          end
    end
  else
    match strings.LastIndex host ":" with
    | Some i =>
        let colonPort := strings.drop i host in
        if negb (validOptionalPort colonPort)
        then Err (errorf "invalid port %q after host" [colonPort])
        else plain
    | None => plain
    end.

Definition parseAuthority (authority : string) : result (option Userinfo * string) :=
  let i := strings.LastIndex authority "@" in
  let hostpart :=
    match i with
    | None => authority
    | Some i => strings.drop (S i) authority
    end in
  match parseHost hostpart with
  | inr e => Err e
  | inl host =>
      match i with
      | None => Ok (None, host)
      | Some i =>
          let userinfo := strings.take i authority in
          if negb (validUserinfo userinfo)
          then Err (errorString "net/url: invalid userinfo")
          else if negb (strings.Contains userinfo ":") then
            match unescape userinfo encodeUserPassword with
            | inr e => Err e
            | inl u => Ok (Some (mkUserinfo u "" false), host)
            end
          else
            let '(username, password, _) := strings.Cut userinfo ":" in
            match unescape username encodeUserPassword with
            | inr e => Err e
            | inl u =>
                match unescape password encodeUserPassword with
                | inr e => Err e
                | inl p => Ok (Some (mkUserinfo u p true), host)
                end
            end
      end
  end.

Definition setPath (u : URL) (p : string) : result URL :=
  match unescape p encodePath with
  | inr e => Err e
  | inl path =>
      let raw := if String.eqb p (escape path encodePath) then "" else p in
      Ok (mkURL (Scheme u) (Opaque u) (User u) (Host u) path raw
            (OmitHost u) (ForceQuery u) (RawQuery u) (Fragment u) (RawFragment u))
  end.

Definition setFragment (u : URL) (f : string) : result URL :=
  match unescape f encodeFragment with
  | inr e => Err e
  | inl frag =>
      let raw := if String.eqb f (escape frag encodeFragment) then "" else f in
      Ok (mkURL (Scheme u) (Opaque u) (User u) (Host u) (Path u) (RawPath u)
            (OmitHost u) (ForceQuery u) (RawQuery u) frag raw)
  end.

(** [parse(rawURL, viaRequest)]. *)
Definition parse (rawURL : string) (viaRequest : bool) : result URL :=
  if stringContainsCTLByte rawURL
  then Err (errorString "net/url: invalid control character in URL")
  else if String.eqb rawURL "" && viaRequest then Err (errorString "empty url")
  else if String.eqb rawURL "*"
  then Ok (mkURL "" "" None "" "*" "" false false "" "" "")
  else
    match getScheme rawURL with
    | inr e => Err e
    | inl (scheme, rest) =>
        let scheme := strings.ToLower scheme in
        let '(rest, forceQuery, rawQuery) :=
          if strings.HasSuffix rest "?" && Nat.eqb (strings.CountByte rest "?") 1
          then (strings.take (String.length rest - 1) rest, true, "")
          else let '(before, after, _) := strings.Cut rest "?" in
               (before, false, after) in
        let url0 := mkURL scheme "" None "" "" "" false forceQuery rawQuery "" "" in
        if negb (strings.HasPrefix rest "/") && negb (String.eqb scheme "")
        then Ok (mkURL scheme rest None "" "" "" false forceQuery rawQuery "" "")
        else if negb (strings.HasPrefix rest "/") && viaRequest
        then Err (errorString "invalid URI for request")
        else if negb (strings.HasPrefix rest "/")
                && strings.Contains (strings.Cut rest "/").1.1 ":"
        then Err (errorString "first path segment in URL cannot contain colon")
        else if (negb (String.eqb scheme "")
                 || negb viaRequest && negb (strings.HasPrefix rest "///"))
                && strings.HasPrefix rest "//"
        then
          let authority0 := strings.drop 2 rest in
          let '(authority, rest) :=
            match strings.Index authority0 "/" with
            | Some i => (strings.take i authority0, strings.drop i authority0)
            | None => (authority0, "")
            end in
          match parseAuthority authority with
          | inr e => Err e
          | inl (user, host) =>
              setPath (mkURL scheme "" user host "" "" false forceQuery rawQuery "" "") rest
          end
        else if negb (String.eqb scheme "") && strings.HasPrefix rest "/"
        then setPath (mkURL scheme "" None "" "" "" true forceQuery rawQuery "" "") rest
        else setPath url0 rest
    end.

(** [url.Parse]: the fragment is cut off first; a failure is wrapped in
    a [*url.Error] with operation [parse]. *)
Definition Parse (rawURL : string) : result URL :=
  let '(u, frag, _) := strings.Cut rawURL "#" in
  match parse u false with
  | inr e => Err (url_Error "parse" u e)
  | inl url =>
      if String.eqb frag "" then Ok url
      else match setFragment url frag with
           | inr e => Err (url_Error "parse" rawURL e)
           | inl url => Ok url
           end
  end.

(** [Values.Add]. *)
Definition Add (v : MultiMap) (key value : string) : go MultiMap :=
  map_append v key value.

(** The segments between the [&] of a query, in order.  [parseQuery]
    cuts one off at a time until nothing is left; it skips an empty one,
    so the empty tail of this list changes nothing. *)
Fixpoint segments (s : string) : list string :=
  match s with
  | "" => [""]
  | String c s' =>
      if Ascii.eqb c "&" then "" :: segments s'
      else match segments s' with
           | seg :: segs => String c seg :: segs
           | [] => [String c ""]
           end
  end.

(** One turn of the loop of [parseQuery] on the segment [key]. *)
Definition parseQuery_step (key : string)
    (st : gmap string (list string) * option error)
  : gmap string (list string) * option error :=
  let '(m, err) := st in
  if strings.Contains key ";"
  then (m, Some (errorf "invalid semicolon separator in query" []))
  else if String.eqb key "" then (m, err)
  else
    let '(key, value, _) := strings.Cut key "=" in
    match QueryUnescape key with
    | inr err1 => (m, Some (default err1 err))
    | inl key =>
        match QueryUnescape value with
        | inr err1 => (m, Some (default err1 err))
        | inl value => (<[key := default [] (m !! key) ++ [value]]> m, err)
        end
    end.

Definition ParseQuery (query : string) : gmap string (list string) * option error :=
  foldl (fun st key => parseQuery_step key st) (∅, None) (segments query).

(** [URL.Query]: the pairs that parse; the error is dropped. *)
Definition Query (u : URL) : MultiMap := Some (ParseQuery (RawQuery u)).1.

(** [slices.Sort] on strings: byte-wise lexicographic order. *)
Definition sort_keys (keys : list string) : list string :=
  merge_sort String.le keys.

(** [Values.Encode]: keys sorted, [&] before every pair but the first
    (that is, whenever the buffer is not empty). *)
Definition Encode_pair (keyEscaped v : string) (buf : string) : string :=
  let buf := if Nat.ltb 0 (String.length buf) then buf +:+ "&" else buf in
  buf +:+ keyEscaped +:+ "=" +:+ QueryEscape v.

Definition Encode (v : MultiMap) : string :=
  if Nat.eqb (map_len v) 0 then ""
  else
    foldl (fun buf k =>
             foldl (fun buf v => Encode_pair (QueryEscape k) v buf) buf (map_get v k))
          "" (sort_keys (map fst (map_entries v))).

End url.

(* ===================================================================== *)
(** ** Package net/http *)
(* ===================================================================== *)

Module http.

(** [httpguts.IsTokenRune] / [validHeaderFieldByte]. *)
Definition isToken (c : ascii) : bool := is_alnum c || byte_in c "!#$%&'*+-.^_`|~".

(** Upper case at the start and after a dash, lower case elsewhere. *)
Definition canonical_byte (upper : bool) (c : ascii) : ascii :=
  if upper && is_lower c then strings.upper_byte c
  else if negb upper && is_upper c then strings.lower_byte c
  else c.

Fixpoint canonical_bytes (upper : bool) (s : string) : string :=
  match s with
  | "" => ""
  | String c s' =>
      let c' := canonical_byte upper c in
      String c' (canonical_bytes (Ascii.eqb c' "-") s')
  end.

(** [textproto.CanonicalMIMEHeaderKey]: a key with a byte that is no
    token byte is returned as it is. *)
Definition CanonicalHeaderKey (s : string) : string :=
  if url.all_bytes isToken s then canonical_bytes true s else s.

(** [Header.Add]. *)
Definition Add (h : MultiMap) (key value : string) : go MultiMap :=
  map_append h (CanonicalHeaderKey key) value.

Inductive Context : Set :=
| Background
| Custom (id : nat).

Record Request : Type := mkRequest {
  ctx : Context;
  Method : string;
  URL : url.URL;
  Header : MultiMap;
  Body : string;
  ReqHost : string
}.

Definition WithContext (req : Request) (c : Context) : Request :=
  mkRequest c (Method req) (URL req) (Header req) (Body req) (ReqHost req).

Definition with_Header (req : Request) (h : MultiMap) : Request :=
  mkRequest (ctx req) (Method req) (URL req) h (Body req) (ReqHost req).

Definition validMethod (method : string) : bool :=
  Nat.ltb 0 (String.length method) && url.all_bytes isToken method.

Definition hasPort (s : string) : bool :=
  match strings.LastIndex s ":", strings.LastIndex s "]" with
  | Some i, Some j => Nat.ltb j i
  | Some _, None => true
  | None, _ => false
  end.

Definition removeEmptyPort (host : string) : string :=
  if hasPort host && strings.HasSuffix host ":"
  then strings.take (String.length host - 1) host
  else host.

(** [http.NewRequest(method, url, body)]. *)
Definition NewRequest (method rawurl : string) (body : string) : result Request :=
  let method := if String.eqb method "" then "GET" else method in
  if negb (validMethod method)
  then Err (errorf "net/http: invalid method %q" [method])
  else
    match url.Parse rawurl with
    | inr e => Err e
    | inl u =>
        let host := removeEmptyPort (url.Host u) in
        let u := url.mkURL (url.Scheme u) (url.Opaque u) (url.User u) host
                   (url.Path u) (url.RawPath u) (url.OmitHost u) (url.ForceQuery u)
                   (url.RawQuery u) (url.Fragment u) (url.RawFragment u) in
        Ok (mkRequest Background method u make_map body host)
    end.

(** A response as the transport hands it over; [Body] is what
    [io.ReadAll] returns on its body. *)
Record Response : Type := mkResponse {
  StatusCode : Z;
  RespHeader : MultiMap;
  RespBody : result string
}.

(** What one [Client.Do] meets: a chain of responses that the client
    takes as redirects to follow (a redirect status with a usable
    [Location], here [loc]), ended by a response it returns or by a
    failure of the transport, [err] being the error [Do] reports for
    it. *)
Inductive Exchange : Type :=
| Redirected (resp : Response) (loc : string) (next : Exchange)
| Answered (resp : Response)
| TransportError (err : error).

(** A round tripper together with the peers it reaches. *)
Definition RoundTripper : Type := Request -> Exchange.

Definition urlErrorOp (method : string) : string :=
  match method with
  | "" => "Get"
  | String c rest => String c (strings.ToLower rest)
  end.

(** The redirect loop of [Client.Do].  [check] is the [CheckRedirect]
    closure, [st] the variables it captured; the result comes with the
    number of hops that were followed. *)
Fixpoint follow {St : Type} (check : St -> St * option error) (op : string)
    (x : Exchange) (st : St) (hops : nat) : result Response * nat :=
  match x with
  | Answered resp => (Ok resp, hops)
  | TransportError err => (Err err, hops)
  | Redirected resp loc next =>
      let '(st, err) := check st in
      match err with
      | Some ErrUseLastResponse => (Ok resp, hops)
      | Some err => (Err (url_Error op loc err), hops)
      | None => follow check op next st (S hops)
      end
  end.

Definition Do {St : Type} (transport : RoundTripper)
    (check : St -> St * option error) (st : St) (req : Request)
  : result Response * nat :=
  follow check (urlErrorOp (Method req)) (transport req) st 0.

End http.

(* ===================================================================== *)
(** ** config.go *)
(* ===================================================================== *)

Module config.

Definition httpClientVersion : string := "0.9".
Definition defaultUserAgent : string := "anik;go-http-client/" +:+ httpClientVersion.

(** [time.Duration] is a count of nanoseconds. *)
Definition Second : Z := 1000000000.

Record ClientConfig : Type := mkClientConfig {
  Transport : http.RoundTripper;
  Host : string;
  UrlPrefix : string;
  MaxRedirects : Z;
  Timeout : Z;
  UserAgent : string
}.

(** [Transport: nil] is [http.DefaultTransport]; [world] is what that
    transport meets. *)
Definition DefaultClientConfig (world : http.RoundTripper) : ClientConfig :=
  mkClientConfig world "" "" 10 (60 * Second) defaultUserAgent.

End config.

(* ===================================================================== *)
(** ** client.go *)
(* ===================================================================== *)

Module client.

Record httpClient : Type := mkClient {
  transport : http.RoundTripper;
  host : string;
  urlPrefix : string;
  maxRedirects : Z;
  timeout : Z;
  userAgent : string;
  defaultHeaders : MultiMap;
  defaultQueries : MultiMap
}.

Definition Transport (c : httpClient) (t : http.RoundTripper) : httpClient :=
  mkClient t (host c) (urlPrefix c) (maxRedirects c) (timeout c) (userAgent c)
    (defaultHeaders c) (defaultQueries c).
Definition GetTransport (c : httpClient) : http.RoundTripper := transport c.

Definition Host (c : httpClient) (h : string) : httpClient :=
  mkClient (transport c) (strings.TrimSpace h) (urlPrefix c) (maxRedirects c)
    (timeout c) (userAgent c) (defaultHeaders c) (defaultQueries c).

Definition GetHost (c : httpClient) : string :=
  match url.Parse (host c) with
  | inr _ => ""
  | inl u => url.Scheme u +:+ "://" +:+ url.Host u
  end.

Definition UrlPrefix (c : httpClient) (prefix : string) : httpClient :=
  mkClient (transport c) (host c) (strings.TrimSpace prefix) (maxRedirects c)
    (timeout c) (userAgent c) (defaultHeaders c) (defaultQueries c).

Definition GetUrlPrefix (c : httpClient) : string :=
  let prefix := urlPrefix c in
  if String.eqb prefix "" then ""
  else "/" +:+ strings.Trim prefix "/".

Definition MaxRedirects (c : httpClient) (n : Z) : httpClient :=
  mkClient (transport c) (host c) (urlPrefix c) n (timeout c) (userAgent c)
    (defaultHeaders c) (defaultQueries c).
Definition GetMaxRedirects (c : httpClient) : Z := maxRedirects c.

Definition Timeout (c : httpClient) (t : Z) : httpClient :=
  mkClient (transport c) (host c) (urlPrefix c) (maxRedirects c) t (userAgent c)
    (defaultHeaders c) (defaultQueries c).
Definition GetTimeout (c : httpClient) : Z := timeout c.

Definition UserAgent (c : httpClient) (ua : string) : httpClient :=
  mkClient (transport c) (host c) (urlPrefix c) (maxRedirects c) (timeout c) ua
    (defaultHeaders c) (defaultQueries c).
Definition GetUserAgent (c : httpClient) : string := userAgent c.

Definition WithDefaultHeaders (c : httpClient) (headers : MultiMap) : httpClient :=
  mkClient (transport c) (host c) (urlPrefix c) (maxRedirects c) (timeout c)
    (userAgent c) headers (defaultQueries c).
Definition DefaultHeaders (c : httpClient) : MultiMap := defaultHeaders c.

Definition WithDefaultQueries (c : httpClient) (queries : MultiMap) : httpClient :=
  mkClient (transport c) (host c) (urlPrefix c) (maxRedirects c) (timeout c)
    (userAgent c) (defaultHeaders c) queries.
Definition DefaultQueries (c : httpClient) : MultiMap := defaultQueries c.

(** [NewHttpClient(config)]; [None] is the nil pointer. *)
Definition NewHttpClient (cfg : option config.ClientConfig) : result httpClient :=
  match cfg with
  | None => Err (errorString "config is nil")
  | Some cfg =>
      Ok (mkClient (config.Transport cfg) (config.Host cfg) (config.UrlPrefix cfg)
            (config.MaxRedirects cfg) (config.Timeout cfg) (config.UserAgent cfg)
            make_map make_map)
  end.

Definition HttpClientFor (world : http.RoundTripper) (h : string)
    (prefixes : list string) : result httpClient :=
  match NewHttpClient (Some (config.DefaultClientConfig world)) with
  | inr e => Err e
  | inl c =>
      let c := Host c h in
      match prefixes with
      | p :: _ => Ok (UrlPrefix c p)
      | [] => Ok c
      end
  end.

End client.

(* ===================================================================== *)
(** ** response.go *)
(* ===================================================================== *)

Module response.

Record httpResponse : Type := mkHttpResponse {
  original : http.Response;
  statusCode : Z;
  body : string;
  headers : MultiMap
}.

Definition Original (r : httpResponse) : http.Response := original r.
Definition StatusCode (r : httpResponse) : Z := statusCode r.

Definition IsSuccess (r : httpResponse) : bool :=
  (200 <=? statusCode r)%Z && (statusCode r <? 300)%Z.
Definition IsServerError (r : httpResponse) : bool := (500 <=? statusCode r)%Z.
Definition IsClientError (r : httpResponse) : bool :=
  (400 <=? statusCode r)%Z && (statusCode r <? 500)%Z.

Definition Headers (r : httpResponse) : MultiMap := headers r.

(** [h[0]] on the stored slice: an entry with no value panics. *)
Definition GetHeader (r : httpResponse) (key : string) : go (string * bool) :=
  if negb (map_has (headers r) (strings.ToLower key)) then Done ("", false)
  else match map_get (headers r) (strings.ToLower key) with
       | v :: _ => Done (v, true)
       | [] => Panic "index out of range [0] with length 0"
       end.

Definition HasHeader (r : httpResponse) (key : string) : go bool :=
  '(_, ok) ← GetHeader r key; Done ok.

Definition IsJsonResponse (r : httpResponse) : go bool :=
  '(v, ok) ← GetHeader r "content-type";
  if negb ok || negb (String.eqb v "application/json") then Done false
  else Done true.

Definition Content (r : httpResponse) : string := body r.

(** [reflect.Kind] of a destination, as far as [ParseAs] looks. *)
Inductive Kind : Set := Ptr | Struct | Map | Slice | Interface | Other.

Global Instance Kind_eq_dec : EqDecision Kind.
Proof. solve_decision. Defined.

(** A non-nil [interface{}] value handed in as destination. *)
Record value : Type := mkValue {
  kind : Kind;
  isUnmarshaler : bool
}.

(** The target [json.Unmarshal] is called with. *)
Inductive target : Type :=
| into_map
| into_dest (v : value).

(** What a parse gives: an error of its own, or whatever
    [json.Unmarshal(data, target)] gives (decoding is left to
    encoding/json). *)
Inductive parsed : Type :=
| Fails (err : error)
| Unmarshal (data : string) (t : target).

Definition ParseJson (r : httpResponse) : go parsed :=
  isJson ← IsJsonResponse r;
  if negb isJson then Done (Fails (errorString "not a json response"))
  else Done (Unmarshal (body r) into_map).

(** [dest = None] is the nil interface. *)
Definition ParseAs (r : httpResponse) (dest : option value) : go parsed :=
  match dest with
  | None => Done (Fails (errorString "dest is nil"))
  | Some v =>
      if Nat.eqb (String.length (body r)) 0
      then Done (Fails (errorString "body is empty"))
      else if negb (bool_decide (kind v = Ptr))
      then Done (Fails (errorString "dest is not a pointer"))
      else
        isJson ← IsJsonResponse r;
        if negb isJson then Done (Fails (errorString "not a json response"))
        else if negb (isUnmarshaler v)
        then Done (Fails (errorString "dest does not implement json.Unmarshaler"))
        else Done (Unmarshal (body r) (into_dest v))
  end.

(** [headers[strings.ToLower(k)] = v] for each entry of the raw header.
    Two names that differ in case only overwrite one another in the
    order of the range. *)
Definition lower_headers (raw : MultiMap) : MultiMap :=
  Some (foldl (fun h kv => <[strings.ToLower kv.1 := kv.2]> h) ∅ (map_entries raw)).

Definition newHttpResponse (resp : http.Response) : result httpResponse :=
  match http.RespBody resp with
  | inr e => Err e
  | inl body =>
      Ok (mkHttpResponse resp (http.StatusCode resp) body
            (lower_headers (http.RespHeader resp)))
  end.

End response.

(* ===================================================================== *)
(** ** request.go *)
(* ===================================================================== *)

Module request.

(** The composer.  [client] is a pointer in Go; [Submit] only reads
    through it.  [headers] and [queries] are Go maps, that is
    references: what [Submit] adds through its local aliases lands in
    the composer, so [Submit] hands the composer back.  The maps are
    held by value here, each map an object of its own; a map that a
    composer shares with its profile is the subject of [shared] below. *)
Record httpRequest : Type := mkHttpRequest {
  client : client.httpClient;
  userAgent : option string;
  ctx : option http.Context;
  maxRedirects : option Z;
  timeout : option Z;
  headers : MultiMap;
  queries : MultiMap;
  skipDefaultQueries : bool;
  body : string;
  skipDefaultHeaders : bool;
  method : string;
  path : string
}.

Definition WithContext (r : httpRequest) (c : http.Context) : httpRequest :=
  mkHttpRequest (client r) (userAgent r) (Some c) (maxRedirects r) (timeout r)
    (headers r) (queries r) (skipDefaultQueries r) (body r) (skipDefaultHeaders r)
    (method r) (path r).

Definition UserAgent (r : httpRequest) (ua : string) : httpRequest :=
  mkHttpRequest (client r) (Some ua) (ctx r) (maxRedirects r) (timeout r)
    (headers r) (queries r) (skipDefaultQueries r) (body r) (skipDefaultHeaders r)
    (method r) (path r).

Definition MaxRedirects (r : httpRequest) (mr : Z) : httpRequest :=
  mkHttpRequest (client r) (userAgent r) (ctx r) (Some mr) (timeout r)
    (headers r) (queries r) (skipDefaultQueries r) (body r) (skipDefaultHeaders r)
    (method r) (path r).

Definition NoRedirect (r : httpRequest) : httpRequest := MaxRedirects r 0.

Definition Timeout (r : httpRequest) (t : Z) : httpRequest :=
  mkHttpRequest (client r) (userAgent r) (ctx r) (maxRedirects r) (Some t)
    (headers r) (queries r) (skipDefaultQueries r) (body r) (skipDefaultHeaders r)
    (method r) (path r).

Definition NoTimeout (r : httpRequest) : httpRequest :=
  mkHttpRequest (client r) (userAgent r) (ctx r) (maxRedirects r) None
    (headers r) (queries r) (skipDefaultQueries r) (body r) (skipDefaultHeaders r)
    (method r) (path r).

Definition Headers (r : httpRequest) (h : MultiMap) : httpRequest :=
  mkHttpRequest (client r) (userAgent r) (ctx r) (maxRedirects r) (timeout r)
    h (queries r) (skipDefaultQueries r) (body r) (skipDefaultHeaders r)
    (method r) (path r).

Definition AddHeader (r : httpRequest) (key value : string) : go httpRequest :=
  h ← http.Add (headers r) key value; Done (Headers r h).

Definition SkipDefaultHeaders (r : httpRequest) : httpRequest :=
  mkHttpRequest (client r) (userAgent r) (ctx r) (maxRedirects r) (timeout r)
    (headers r) (queries r) (skipDefaultQueries r) (body r) true
    (method r) (path r).

Definition Queries (r : httpRequest) (q : MultiMap) : httpRequest :=
  mkHttpRequest (client r) (userAgent r) (ctx r) (maxRedirects r) (timeout r)
    (headers r) q (skipDefaultQueries r) (body r) (skipDefaultHeaders r)
    (method r) (path r).

Definition SkipDefaultQueries (r : httpRequest) : httpRequest :=
  mkHttpRequest (client r) (userAgent r) (ctx r) (maxRedirects r) (timeout r)
    (headers r) (queries r) true (body r) (skipDefaultHeaders r)
    (method r) (path r).

Definition Body (r : httpRequest) (b : string) : httpRequest :=
  mkHttpRequest (client r) (userAgent r) (ctx r) (maxRedirects r) (timeout r)
    (headers r) (queries r) (skipDefaultQueries r) b (skipDefaultHeaders r)
    (method r) (path r).

Definition Path (r : httpRequest) (p : string) : httpRequest :=
  mkHttpRequest (client r) (userAgent r) (ctx r) (maxRedirects r) (timeout r)
    (headers r) (queries r) (skipDefaultQueries r) (body r) (skipDefaultHeaders r)
    (method r) (strings.TrimSpace p).

Definition Method (r : httpRequest) (m : string) : httpRequest :=
  mkHttpRequest (client r) (userAgent r) (ctx r) (maxRedirects r) (timeout r)
    (headers r) (queries r) (skipDefaultQueries r) (body r) (skipDefaultHeaders r)
    (strings.ToUpper m) (path r).

Definition NewHttpRequest (c : client.httpClient) : httpRequest :=
  mkHttpRequest c None None None None make_map make_map false "" false "" "".

(** The locals [host], [prefix], [path] and [qp] when line 541 is
    reached. *)
Record resolved : Type := mkResolved {
  r_host : string;
  r_prefix : string;
  r_path : string;
  r_qp : string
}.

(** [fmt.Sprintf("%s%s%s%s", host, prefix, path, qp)]. *)
Definition target_url (t : resolved) : string :=
  r_host t +:+ r_prefix t +:+ r_path t +:+ r_qp t.

(** The block [if r.path != ""] of [Submit]: host override, the queries
    of the path added to [queries], the path re-prefixed. *)
Definition Submit_path (r : httpRequest) (host : string) (queries : MultiMap)
  : go (result (string * MultiMap * string)) :=
  if String.eqb (path r) "" then Done (Ok (host, queries, ""))
  else
    let path := strings.TrimPrefix (path r) "/" in
    match url.Parse path with
    | inr err => Done (Err err)
    | inl u =>
        let host := if negb (String.eqb (url.Host u) "")
                    then url.Scheme u +:+ "://" +:+ url.Host u
                    else host in
        queries ← add_each url.Add (map_entries (url.Query u)) queries;
        Done (Ok (host, queries, "/" +:+ url.Path u))
    end.

(** [Submit] up to the assembly of the URL. *)
Definition Submit_resolve (r : httpRequest) : go (httpRequest * result resolved) :=
  let host := client.GetHost (client r) in
  let prefix := client.GetUrlPrefix (client r) in
  let queries := queries r in
  step ← Submit_path r host queries;
  match step with
  | inr err => Done (r, Err err)
  | inl (host, queries, path) =>
      queries ← (if negb (skipDefaultQueries r)
                 then add_each url.Add
                        (map_entries (client.DefaultQueries (client r))) queries
                 else Done queries);
      let qp := if Nat.ltb 0 (map_len queries)
                then "?" +:+ url.Encode queries else "" in
      Done (Queries r queries, Ok (mkResolved host prefix path qp))
  end.

(** [Submit] from [http.NewRequest] to the headers of the outgoing
    call. *)
Definition Submit_outgoing (r : httpRequest) (rawurl : string)
  : go (httpRequest * result http.Request) :=
  match http.NewRequest (method r) rawurl (body r) with
  | inr err => Done (r, Err err)
  | inl req =>
      let req := match ctx r with
                 | Some c => http.WithContext req c
                 | None => req
                 end in
      r ← match userAgent r with
          | Some ua => AddHeader r "User-Agent" ua
          | None =>
              let ua := client.GetUserAgent (client r) in
              if negb (String.eqb ua "") then AddHeader r "User-Agent" ua
              else Done r
          end;
      let headers := headers r in
      headers ← (if negb (skipDefaultHeaders r)
                 then add_each http.Add
                        (map_entries (client.DefaultHeaders (client r))) headers
                 else Done headers);
      reqHeader ← add_each http.Add (map_entries headers) (http.Header req);
      Done (Headers r headers, Ok (http.with_Header req reqHeader))
  end.

(** The timeout handed to [http.Client]; how long a call lasts is not
    part of this model. *)
Definition Submit_timeout (r : httpRequest) : Z :=
  match timeout r with
  | Some t => t
  | None => client.GetTimeout (client r)
  end.

(** The local [maxRedirects] the closure captures. *)
Definition Submit_maxRedirects (r : httpRequest) : Z :=
  match maxRedirects r with
  | Some mr => mr
  | None => client.GetMaxRedirects (client r)
  end.

(** The [CheckRedirect] closure on its captured counter. *)
Definition CheckRedirect (maxRedirects : Z) : Z * option error :=
  if (maxRedirects <=? 0)%Z then (maxRedirects, Some TooManyRedirects)
  else ((maxRedirects - 1)%Z, None).

(** [client.Do(req)] and [newHttpResponse]; with the hops followed. *)
Definition Submit_send (r : httpRequest) (req : http.Request)
  : result response.httpResponse * nat :=
  let '(res, hops) :=
    http.Do (client.GetTransport (client r)) CheckRedirect
      (Submit_maxRedirects r) req in
  match res with
  | inr err => (Err err, hops)
  | inl resp => (response.newHttpResponse resp, hops)
  end.

(** [Submit], with the composer as it is left behind and the number of
    redirect hops that were followed. *)
Definition Submit_trace (r : httpRequest)
  : go (httpRequest * result response.httpResponse * nat) :=
  '(r, t) ← Submit_resolve r;
  match t with
  | inr err => Done (r, Err err, O)
  | inl t =>
      '(r, req) ← Submit_outgoing r (target_url t);
      match req with
      | inr err => Done (r, Err err, O)
      | inl req => let '(res, hops) := Submit_send r req in Done (r, res, hops)
      end
  end.

Definition Submit (r : httpRequest) : go (httpRequest * result response.httpResponse) :=
  '(r, res, _) ← Submit_trace r; Done (r, res).

(** The optional path of the verb helpers is a variadic argument. *)
Definition with_verb (verb : string) (r : httpRequest) (path : list string)
  : httpRequest :=
  let r := Method r verb in
  match path with
  | p :: _ => Path r p
  | [] => r
  end.

Definition Get (r : httpRequest) (path : list string) := Submit (with_verb "GET" r path).
Definition Post (r : httpRequest) (path : list string) := Submit (with_verb "POST" r path).
Definition Put (r : httpRequest) (path : list string) := Submit (with_verb "PUT" r path).
Definition Patch (r : httpRequest) (path : list string) := Submit (with_verb "PATCH" r path).
Definition Delete (r : httpRequest) (path : list string) := Submit (with_verb "DELETE" r path).

Definition Send (r : httpRequest) (m p : string) (b : string) (h : MultiMap) :=
  Submit (Headers (Body (Path (Method r m) p) b) h).

End request.

(* ===================================================================== *)
(** * The profile and the composer over shared maps *)
(* ===================================================================== *)

(** In Go a value of type [map[string][]string] is a reference to a map
    object: [WithDefaultQueries], [DefaultQueries], [Queries] and
    [Headers] store and hand out the reference, and [Submit] adds through
    [queries := r.queries] and through [r.headers].  Here the map objects
    live in a store, by address, and the fields hold addresses, so that
    the map a composer holds can be the very map a profile holds. *)
Module shared.

Abbreviation addr := positive.
Abbreviation store := (gmap positive (gmap string (list string))).

(** A map value: [None] is nil. *)
Abbreviation ref := (option addr).

(** What a reference reads as.  (An address the store does not hold
    cannot come up in Go; it reads as the nil map.) *)
Definition deref (σ : store) (p : ref) : MultiMap :=
  match p with
  | Some a => σ !! a
  | None => None
  end.

(** [make(map[string][]string)]. *)
Definition make (σ : store) : store * ref :=
  let a := fresh (dom σ) in (<[a := ∅]> σ, Some a).

(** [m[key] = append(m[key], value)] through the reference [p]. *)
Definition append_at (σ : store) (p : ref) (key value : string) : go store :=
  match p with
  | Some a =>
      match σ !! a with
      | Some g => Done (<[a := <[key := default [] (g !! key) ++ [value]]> g]> σ)
      | None => Panic "assignment to entry in nil map"
      end
  | None => Panic "assignment to entry in nil map"
  end.

(** [for k, v := range src { for _, each := range v { dst.Add(k, each) } }]
    with [dst] a reference.  [order] is the order in which the range
    visits the keys; [v] is what [src] holds under [k] when [k] is
    reached, and [src] may be the object [dst] refers to.  [canon] is
    what [Add] does to the key. *)
Definition range_add (canon : string -> string) (src : store -> MultiMap)
    (order : list string) (dst : ref) (σ : store) : go store :=
  go_range order
    (fun k σ =>
       go_range (map_get (src σ) k) (fun each σ => append_at σ dst (canon k) each) σ)
    σ.

(** The orders a range over [m] may take: every key [m] holds when the
    range starts is visited, no key twice.  (A key that is not in the map
    when it is reached adds nothing, as a key the range skips.) *)
Definition range_order (m : MultiMap) (order : list string) : Prop :=
  NoDup order /\ forall k, map_has m k = true -> k ∈ order.

(** The entries a range meets on a map that stays as it is. *)
Definition visited (m : MultiMap) (order : list string) : list (string * list string) :=
  (fun k => (k, map_get m k)) <$> order.

(** The orders of the four ranges of [Submit]: over the queries of the
    path, the default queries, the default headers and the headers of the
    composer. *)
Record orders : Type := mkOrders {
  of_path : list string;
  of_queries : list string;
  of_headers : list string;
  of_call : list string
}.

(** The [CheckRedirect] closure of [Submit], as above. *)
Definition CheckRedirect : Z -> Z * option error := request.CheckRedirect.

Module client.

(** The profile. *)
Record httpClient : Type := mkClient {
  transport : http.RoundTripper;
  host : string;
  urlPrefix : string;
  maxRedirects : Z;
  timeout : Z;
  userAgent : string;
  defaultHeaders : ref;
  defaultQueries : ref
}.

Definition GetTransport (c : httpClient) : http.RoundTripper := transport c.

Definition GetHost (c : httpClient) : string :=
  match url.Parse (host c) with
  | inr _ => ""
  | inl u => url.Scheme u +:+ "://" +:+ url.Host u
  end.

Definition GetUrlPrefix (c : httpClient) : string :=
  let prefix := urlPrefix c in
  if String.eqb prefix "" then ""
  else "/" +:+ strings.Trim prefix "/".

Definition GetMaxRedirects (c : httpClient) : Z := maxRedirects c.
Definition GetTimeout (c : httpClient) : Z := timeout c.
Definition GetUserAgent (c : httpClient) : string := userAgent c.

Definition WithDefaultHeaders (c : httpClient) (headers : ref) : httpClient :=
  mkClient (transport c) (host c) (urlPrefix c) (maxRedirects c) (timeout c)
    (userAgent c) headers (defaultQueries c).
Definition DefaultHeaders (c : httpClient) : ref := defaultHeaders c.

Definition WithDefaultQueries (c : httpClient) (queries : ref) : httpClient :=
  mkClient (transport c) (host c) (urlPrefix c) (maxRedirects c) (timeout c)
    (userAgent c) (defaultHeaders c) queries.
Definition DefaultQueries (c : httpClient) : ref := defaultQueries c.

(** [NewHttpClient(config)] for a config that is not nil: the two
    default maps are made anew. *)
Definition NewHttpClient (σ : store) (cfg : config.ClientConfig) : store * httpClient :=
  let '(σ, dh) := make σ in
  let '(σ, dq) := make σ in
  (σ, mkClient (config.Transport cfg) (config.Host cfg) (config.UrlPrefix cfg)
        (config.MaxRedirects cfg) (config.Timeout cfg) (config.UserAgent cfg) dh dq).

End client.

Module request.

(** The composer.  [client] is the profile it is bound to; [Submit]
    calls getters of the profile only and assigns no field of the
    composer, so that all it leaves behind is in the store. *)
Record httpRequest : Type := mkHttpRequest {
  client : client.httpClient;
  userAgent : option string;
  ctx : option http.Context;
  maxRedirects : option Z;
  timeout : option Z;
  headers : ref;
  queries : ref;
  skipDefaultQueries : bool;
  body : string;
  skipDefaultHeaders : bool;
  method : string;
  path : string
}.

Definition MaxRedirects (r : httpRequest) (mr : Z) : httpRequest :=
  mkHttpRequest (client r) (userAgent r) (ctx r) (Some mr) (timeout r)
    (headers r) (queries r) (skipDefaultQueries r) (body r) (skipDefaultHeaders r)
    (method r) (path r).

Definition Headers (r : httpRequest) (h : ref) : httpRequest :=
  mkHttpRequest (client r) (userAgent r) (ctx r) (maxRedirects r) (timeout r)
    h (queries r) (skipDefaultQueries r) (body r) (skipDefaultHeaders r)
    (method r) (path r).

Definition Queries (r : httpRequest) (q : ref) : httpRequest :=
  mkHttpRequest (client r) (userAgent r) (ctx r) (maxRedirects r) (timeout r)
    (headers r) q (skipDefaultQueries r) (body r) (skipDefaultHeaders r)
    (method r) (path r).

Definition Path (r : httpRequest) (p : string) : httpRequest :=
  mkHttpRequest (client r) (userAgent r) (ctx r) (maxRedirects r) (timeout r)
    (headers r) (queries r) (skipDefaultQueries r) (body r) (skipDefaultHeaders r)
    (method r) (strings.TrimSpace p).

Definition Method (r : httpRequest) (m : string) : httpRequest :=
  mkHttpRequest (client r) (userAgent r) (ctx r) (maxRedirects r) (timeout r)
    (headers r) (queries r) (skipDefaultQueries r) (body r) (skipDefaultHeaders r)
    (strings.ToUpper m) (path r).

(** [NewHttpRequest(client)]: two maps are made anew. *)
Definition NewHttpRequest (σ : store) (c : client.httpClient) : store * httpRequest :=
  let '(σ, h) := make σ in
  let '(σ, q) := make σ in
  (σ, mkHttpRequest c None None None None h q false "" false "" "").

(** The local [maxRedirects] of [Submit], which the [CheckRedirect]
    closure captures. *)
Definition Submit_maxRedirects (r : httpRequest) : Z :=
  match maxRedirects r with
  | Some mr => mr
  | None => client.GetMaxRedirects (client r)
  end.

(** The block [if r.path != ""] of [Submit]: the host of the call, the
    queries of the path added through [queries := r.queries], the path. *)
Definition Submit_path (o : orders) (σ : store) (r : httpRequest) (host : string)
  : go (store * result (string * string)) :=
  if String.eqb (path r) "" then Done (σ, Ok (host, ""))
  else
    let path := strings.TrimPrefix (path r) "/" in
    match url.Parse path with
    | inr err => Done (σ, Err err)
    | inl u =>
        let host := if negb (String.eqb (url.Host u) "")
                    then url.Scheme u +:+ "://" +:+ url.Host u
                    else host in
        σ ← range_add id (fun _ => url.Query u) (of_path o) (queries r) σ;
        Done (σ, Ok (host, "/" +:+ url.Path u))
    end.

(** The merge of the default queries. *)
Definition Submit_queries (o : orders) (σ : store) (r : httpRequest) : go store :=
  if negb (skipDefaultQueries r)
  then range_add id (fun σ => deref σ (client.DefaultQueries (client r)))
         (of_queries o) (queries r) σ
  else Done σ.

(** [Submit] up to the URL of the call. *)
Definition Submit_resolve (o : orders) (σ : store) (r : httpRequest)
  : go (store * result string) :=
  let host := client.GetHost (client r) in
  let prefix := client.GetUrlPrefix (client r) in
  step ← Submit_path o σ r host;
  match step with
  | (σ, inr err) => Done (σ, Err err)
  | (σ, inl (host, path)) =>
      σ ← Submit_queries o σ r;
      let qp := if Nat.ltb 0 (map_len (deref σ (queries r)))
                then "?" +:+ url.Encode (deref σ (queries r)) else "" in
      Done (σ, Ok (host +:+ prefix +:+ path +:+ qp))
  end.

(** [r.headers.Add(key, value)]. *)
Definition AddHeader (σ : store) (r : httpRequest) (key value : string) : go store :=
  append_at σ (headers r) (http.CanonicalHeaderKey key) value.

(** The lines on the user agent and the merge of the default headers,
    through [r.headers]. *)
Definition Submit_headers (o : orders) (σ : store) (r : httpRequest) : go store :=
  σ ← match userAgent r with
      | Some ua => AddHeader σ r "User-Agent" ua
      | None =>
          let ua := client.GetUserAgent (client r) in
          if negb (String.eqb ua "") then AddHeader σ r "User-Agent" ua
          else Done σ
      end;
  if negb (skipDefaultHeaders r)
  then range_add http.CanonicalHeaderKey
         (fun σ => deref σ (client.DefaultHeaders (client r)))
         (of_headers o) (headers r) σ
  else Done σ.

(** [client.Do(req)] with the closure on its counter, and
    [newHttpResponse]. *)
Definition Submit_send (r : httpRequest) (req : http.Request)
  : result response.httpResponse * nat :=
  let '(res, hops) :=
    http.Do (client.GetTransport (client r)) CheckRedirect (Submit_maxRedirects r) req in
  match res with
  | inr err => (Err err, hops)
  | inl resp => (response.newHttpResponse resp, hops)
  end.

(** [Submit], with the store as it is left behind and the number of
    redirect hops that were followed. *)
Definition Submit (o : orders) (σ : store) (r : httpRequest)
  : go (store * result response.httpResponse * nat) :=
  '(σ, t) ← Submit_resolve o σ r;
  match t with
  | inr err => Done (σ, Err err, O)
  | inl rawurl =>
      match http.NewRequest (method r) rawurl (body r) with
      | inr err => Done (σ, Err err, O)
      | inl req =>
          let req := match ctx r with
                     | Some c => http.WithContext req c
                     | None => req
                     end in
          σ ← Submit_headers o σ r;
          reqHeader ← add_each http.Add (visited (deref σ (headers r)) (of_call o))
                        (http.Header req);
          let '(res, hops) := Submit_send r (http.with_Header req reqHeader) in
          Done (σ, res, hops)
      end
  end.

End request.

End shared.

(* ===================================================================== *)
(** * Vocabulary of the properties, and sample profiles and requests *)
(* ===================================================================== *)

(** Everything of a composer but its two maps. *)
Definition same_frame (r r' : request.httpRequest) : Prop :=
  request.client r' = request.client r
  /\ request.userAgent r' = request.userAgent r
  /\ request.ctx r' = request.ctx r
  /\ request.maxRedirects r' = request.maxRedirects r
  /\ request.timeout r' = request.timeout r
  /\ request.skipDefaultQueries r' = request.skipDefaultQueries r
  /\ request.body r' = request.body r
  /\ request.skipDefaultHeaders r' = request.skipDefaultHeaders r
  /\ request.method r' = request.method r
  /\ request.path r' = request.path r.

(** The redirect hops of a chain, and what it ends with. *)
Fixpoint redirects (x : http.Exchange) : nat :=
  match x with
  | http.Redirected _ _ next => S (redirects next)
  | _ => O
  end.

Fixpoint chain_end (x : http.Exchange) : http.Exchange :=
  match x with
  | http.Redirected _ _ next => chain_end next
  | _ => x
  end.

(** [Submit] up to the call of [client.Do]: the composer as it is left,
    and the outgoing call (or the error [Submit] returns before it). *)
Definition Submit_prepare (r : request.httpRequest)
  : go (request.httpRequest * result http.Request) :=
  '(r, t) ← request.Submit_resolve r;
  match t with
  | inr err => Done (r, Err err)
  | inl t => request.Submit_outgoing r (request.target_url t)
  end.

(** What a run of [Submit] gave, the composer left aside. *)
Definition outcome {A} (run : go (request.httpRequest * A * nat)) : option (A * nat) :=
  match run with
  | Done (_, a, hops) => Some (a, hops)
  | Panic _ => None
  end.

(** A profile as in the examples of the specification: host, prefix,
    one default header, one default query; [world] is what its transport
    meets. *)
Definition sample_client (world : http.RoundTripper) : client.httpClient :=
  client.WithDefaultQueries
    (client.WithDefaultHeaders
       (client.mkClient world "https://api.example.com" "v1" 10
          (60 * config.Second) "sample-agent" make_map make_map)
       (Some {[ "X-Key" := ["secret"] ]}))
    (Some {[ "a" := ["2"] ]}).

Definition json_response : http.Response :=
  http.mkResponse 200 (Some {[ "Content-Type" := ["application/json"] ]}) (inl "{}").

Definition moved_response : http.Response :=
  http.mkResponse 302 (Some {[ "Location" := ["/next"] ]}) (inl "").

(** A peer that answers at once, and chains of [n] redirects before the
    answer. *)
Definition answers : http.RoundTripper := fun _ => http.Answered json_response.

Fixpoint hops_then (n : nat) (x : http.Exchange) : http.Exchange :=
  match n with
  | O => x
  | S n' => http.Redirected moved_response "/next" (hops_then n' x)
  end.

Definition redirects_first (n : nat) : http.RoundTripper :=
  fun _ => hops_then n (http.Answered json_response).

(** [GET /users?active=true] on the sample profile. *)
Definition sample_request (world : http.RoundTripper) : request.httpRequest :=
  request.with_verb "GET" (request.NewHttpRequest (sample_client world))
    ["/users?active=true"].

(** The call-site path is an absolute URL. *)
Definition absolute_request (world : http.RoundTripper) : request.httpRequest :=
  request.with_verb "GET" (request.NewHttpRequest (sample_client world))
    ["https://other.example/resource?x=1"].

(** The values an additive merge adds under [k]: those of every entry
    whose key [f] sends to [k] ([f] is the identity for [Values.Add] and
    the canonical form for [Header.Add]), in the order of the entries. *)
Definition gathered (f : string -> string) (entries : list (string * list string))
    (k : string) : list string :=
  flat_map (fun kv => if decide (f kv.1 = k) then kv.2 else []) entries.

(** The pairs [Values.Encode] writes, in its order (keys sorted, the
    values of a key as stored), and what it writes for one. *)
Definition pairs_of (m : MultiMap) : list (string * string) :=
  flat_map (fun k => pair k <$> map_get m k)
    (url.sort_keys (map fst (map_entries m))).

Definition pair_segment (kv : string * string) : string :=
  url.QueryEscape kv.1 +:+ "=" +:+ url.QueryEscape kv.2.

(** An envelope with the given headers and body. *)
Definition envelope (headers : MultiMap) (body : string) : response.httpResponse :=
  response.mkHttpResponse (http.mkResponse 200 headers (inl body)) 200 body headers.

Definition with_content_type (ct : string) : MultiMap :=
  Some {[ "content-type" := [ct] ]}.

(** The failures [ParseAs] tells apart. *)
Definition dest_is_nil : error := errorString "dest is nil".
Definition body_is_empty : error := errorString "body is empty".
Definition dest_is_not_a_pointer : error := errorString "dest is not a pointer".
Definition not_a_json_response : error := errorString "not a json response".
Definition dest_is_no_unmarshaler : error :=
  errorString "dest does not implement json.Unmarshaler".

(** The reference a path parses to (the empty reference if it does
    not). *)
Definition reference_of (path : string) : url.URL :=
  match url.Parse (strings.TrimPrefix path "/") with
  | inl u => u
  | inr _ => url.empty_URL
  end.

(** The user agent [Submit] adds as a header: the override of the
    request, else the one of the profile unless that is empty. *)
Definition user_agent_of (r : request.httpRequest) : list string :=
  match request.userAgent r with
  | Some ua => [ua]
  | None =>
      if String.eqb (client.GetUserAgent (request.client r)) "" then []
      else [client.GetUserAgent (request.client r)]
  end.

(** The same composer on another profile. *)
Definition on_client (r : request.httpRequest) (c : client.httpClient)
  : request.httpRequest :=
  request.mkHttpRequest c (request.userAgent r) (request.ctx r)
    (request.maxRedirects r) (request.timeout r) (request.headers r)
    (request.queries r) (request.skipDefaultQueries r) (request.body r)
    (request.skipDefaultHeaders r) (request.method r) (request.path r).

(** The URL of the sample request and the call [http.NewRequest] makes
    of it. *)
Definition sample_url : string := "https://api.example.com/v1/users?a=2&active=true".

Definition sample_call : http.Request :=
  Eval vm_compute in
    match http.NewRequest "GET" sample_url "" with
    | inl req => req
    | inr _ => http.mkRequest http.Background "" url.empty_URL None "" ""
    end.

(** Host normalization: the setter then the getter. *)
Definition normalize (c : client.httpClient) (h : string) : string :=
  client.GetHost (client.Host c h).

(** A scheme as [url.Parse] gives it back: a lower-case letter, then
    lower-case letters, digits, [+], [-] and [.]. *)
Definition scheme_byte (c : ascii) : bool :=
  is_lower c || is_digit c || byte_in c "+-.".

Definition lower_scheme (s : string) : bool :=
  match s with
  | "" => false
  | String c _ => is_lower c && url.all_bytes scheme_byte s
  end.

(** The bytes [getScheme] lets into a scheme, in either case. *)
Definition any_scheme_byte (c : ascii) : bool :=
  is_alpha c || is_digit c || byte_in c "+-.".

Definition first_alpha (s : string) : bool :=
  match s with
  | "" => false
  | String c _ => is_alpha c
  end.

(** A host of letters, digits, dots, dashes and colons in which what
    follows the last colon, if there is one, is a run of digits (a
    port). *)
Definition host_byte (c : ascii) : bool := is_alnum c || byte_in c "-.:".

Definition plain_host (t : string) : bool :=
  url.all_bytes host_byte t
  && match strings.LastIndex t ":" with
     | Some i => url.validOptionalPort (strings.drop i t)
     | None => true
     end.

(** ASCII bytes that show: no space starts or ends with one. *)
Definition visible (c : ascii) : bool := (33 <=? byte c)%N && (byte c <=? 126)%N.

(** A profile without host, as [DefaultClientConfig] has it. *)
Definition bare_client : client.httpClient :=
  client.mkClient answers "" "" 10 (60 * config.Second) config.defaultUserAgent
    make_map make_map.

(** A host given with blanks around it, an upper-case scheme, a user, a
    port, a path, a query and a fragment, and what it parses to. *)
Definition sample_host : string := "  HTTPS://user@API.example.com:8080/v1?x=1#top ".

Definition sample_host_reference : url.URL :=
  Eval vm_compute in reference_of (strings.TrimSpace sample_host).

(** The composer as a [Submit] leaves it. *)
Definition after_Submit (r : request.httpRequest) : request.httpRequest :=
  match request.Submit r with
  | Done (r', _) => r'
  | Panic _ => r
  end.

Definition sample_after : request.httpRequest :=
  Eval vm_compute in after_Submit (sample_request answers).

Definition sample_result : result response.httpResponse :=
  Eval vm_compute in
    match request.Submit (sample_request answers) with
    | Done (_, res) => res
    | Panic msg => Err (errorString msg)
    end.

(** What [Submit] assembles the URL from, when it gets there. *)
Definition resolved_of (r : request.httpRequest) : option request.resolved :=
  match request.Submit_resolve r with
  | Done (_, inl t) => Some t
  | _ => None
  end.

Definition absolute_reference : url.URL :=
  Eval vm_compute in reference_of (request.path (absolute_request answers)).

(** The query key [a] comes with the path and with the profile. *)
Definition colliding_request : request.httpRequest :=
  request.with_verb "GET" (request.NewHttpRequest (sample_client answers))
    ["/search?a=1"].

Definition colliding_reference : url.URL :=
  Eval vm_compute in reference_of (request.path colliding_request).

(** What [Submit] has built when it reaches [client.Do], for a request
    on which it gets there (the request itself and an empty call stand in
    otherwise). *)
Definition prepared (r : request.httpRequest) : request.httpRequest * http.Request :=
  match Submit_prepare r with
  | Done (r', inl req) => (r', req)
  | _ => (r, http.mkRequest http.Background "" url.empty_URL None "" "")
  end.

(** Two redirects ahead, and a budget of two. *)
Definition two_hops_request : request.httpRequest :=
  request.MaxRedirects (sample_request (redirects_first 2)) 2.

Definition two_hops_prepared : request.httpRequest * http.Request :=
  Eval vm_compute in prepared two_hops_request.

(** ** The store of the shared maps *)

(** What a run may do to the store: the objects [targets] refer to grow
    by appends, every other object stays as it is, and no object comes or
    goes. *)
Definition appends_to (targets : list shared.ref) (σ σ' : shared.store) : Prop :=
  (forall a, Some a ∉ targets -> σ' !! a = σ !! a)
  /\ (forall a, is_Some (σ' !! a) <-> is_Some (σ !! a))
  /\ (forall p k, map_get (shared.deref σ p) k `prefix_of` map_get (shared.deref σ' p) k).

(** The user agent [Submit] adds as a header. *)
Definition user_agent_added (r : shared.request.httpRequest) : list string :=
  match shared.request.userAgent r with
  | Some ua => [ua]
  | None =>
      if String.eqb (shared.client.GetUserAgent (shared.request.client r)) "" then []
      else [shared.client.GetUserAgent (shared.request.client r)]
  end.

(** The two maps of the composer are the objects at [q] and [h], and
    they are not one object, nor one of the default maps of the profile
    that a merge reads while it writes. *)
Definition unshared (r : shared.request.httpRequest) (q h : shared.addr) : Prop :=
  shared.request.queries r = Some q
  /\ shared.request.headers r = Some h
  /\ q <> h
  /\ shared.client.DefaultQueries (shared.request.client r) <> Some q
  /\ shared.client.DefaultHeaders (shared.request.client r) <> Some q
  /\ shared.client.DefaultHeaders (shared.request.client r) <> Some h.

(** A store with the two default maps of a profile (at 1 and 2) and the
    two maps of a composer (at 3 and 4); the profile and the composer of
    the examples on it; the orders its ranges take. *)
Definition sample_store : shared.store :=
  {[ 1%positive := {[ "X-Key" := ["secret"] ]};
     2%positive := {[ "a" := ["2"] ]};
     3%positive := ∅;
     4%positive := ∅ ]}.

Definition shared_client (world : http.RoundTripper) : shared.client.httpClient :=
  shared.client.mkClient world "https://api.example.com" "v1" 10 (60 * config.Second)
    "sample-agent" (Some 1%positive) (Some 2%positive).

Definition shared_request (world : http.RoundTripper) : shared.request.httpRequest :=
  shared.request.Path
    (shared.request.Method
       (shared.request.mkHttpRequest (shared_client world) None None None None
          (Some 3%positive) (Some 4%positive) false "" false "" "")
       "GET")
    "/users?active=true".

Definition sample_orders : shared.orders :=
  shared.mkOrders ["active"] ["a"] ["X-Key"] ["User-Agent"; "X-Key"].

(** The store a run leaves (the store it started from, if it panics). *)
Definition store_after (o : shared.orders) (σ : shared.store)
    (r : shared.request.httpRequest) : shared.store :=
  match shared.request.Submit o σ r with
  | Done (σ', _, _) => σ'
  | Panic _ => σ
  end.

(** The run of the sample: the store it leaves, its result and the
    hops it followed. *)
Definition sample_run : shared.store * result response.httpResponse * nat :=
  Eval vm_compute in
    match shared.request.Submit sample_orders sample_store (shared_request answers) with
    | Done out => out
    | Panic msg => (sample_store, Err (errorString msg), O)
    end.

Definition sample_store_after : shared.store := sample_run.1.1.

(** [r.Queries(c.DefaultQueries())]: the composer holds the default
    query map of its profile. *)
Definition sharing_request : shared.request.httpRequest :=
  shared.request.Path
    (shared.request.Queries (shared_request answers)
       (shared.client.DefaultQueries (shared_client answers)))
    "/x?a=9".

(** What the object at [a] holds, as a list. *)
Definition held (σ : shared.store) (a : shared.addr) : option (list (string * list string)) :=
  map_to_list <$> (σ !! a).

(** ** Further samples and vocabulary *)

(** A path with a broken percent escape. *)
Definition unparsable_request : request.httpRequest :=
  request.Path (sample_request answers) "/users/%zz".

(** One redirect ahead of a request that follows none. *)
Definition no_redirect_request : request.httpRequest :=
  request.NoRedirect (sample_request (redirects_first 1)).

Definition no_redirect_prepared : request.httpRequest * http.Request :=
  Eval vm_compute in prepared no_redirect_request.

(** A transport that reaches nobody, and one whose answer cannot be read
    to its end. *)
Definition unreachable : error :=
  url_Error "Get" sample_url (errorString "dial tcp: connection refused").

Definition reaches_nobody : http.RoundTripper := fun _ => http.TransportError unreachable.

Definition unexpected_EOF : error := errorString "unexpected EOF".

Definition breaks_off : http.RoundTripper :=
  fun _ => http.Answered (http.mkResponse 200 make_map (inr unexpected_EOF)).

Definition unreachable_prepared : request.httpRequest * http.Request :=
  Eval vm_compute in prepared (sample_request reaches_nobody).

(** [Send] with no header map, as a caller without headers of its own
    writes it. *)
Definition send_nil_headers : request.httpRequest :=
  request.Headers
    (request.Body
       (request.Path (request.Method (request.NewHttpRequest (sample_client answers)) "get")
          "/users") "") None.

Definition send_nil_headers_resolved : request.httpRequest * request.resolved :=
  Eval vm_compute in
    match request.Submit_resolve send_nil_headers with
    | Done (r1, inl t) => (r1, t)
    | _ => (send_nil_headers, request.mkResolved "" "" "" "")
    end.

Definition send_nil_headers_call : http.Request :=
  Eval vm_compute in
    match http.NewRequest "GET" (request.target_url send_nil_headers_resolved.2) "" with
    | inl req => req
    | inr _ => sample_call
    end.

(** What a composer has to add to its header map during [Submit]. *)
Definition adds_headers (r : request.httpRequest) : Prop :=
  user_agent_of r <> []
  \/ (request.skipDefaultHeaders r = false
      /\ exists k v, v ∈ map_get (client.DefaultHeaders (request.client r)) k).

(** What a composer has to add to its query map during [Submit]. *)
Definition adds_queries (r : request.httpRequest) : Prop :=
  (request.path r <> ""
   /\ exists k v, v ∈ map_get (url.Query (reference_of (request.path r))) k)
  \/ (request.skipDefaultQueries r = false
      /\ exists k v, v ∈ map_get (client.DefaultQueries (request.client r)) k).

(** A composer whose query map was set to nil. *)
Definition nil_queries_request : request.httpRequest :=
  request.Queries (sample_request answers) None.

(** A profile whose host was given without scheme, and a request on it. *)
Definition schemeless_request : request.httpRequest :=
  request.with_verb "GET"
    (request.NewHttpRequest (client.Host bare_client "api.example.com")) ["/users"].

(** What that host parses to. *)
Definition schemeless_host : url.URL :=
  Eval vm_compute in reference_of "api.example.com".

(** A composer on which no method was set. *)
Definition methodless_request : request.httpRequest :=
  request.Path (request.NewHttpRequest (sample_client answers)) "/users".

Definition methodless_prepared : request.httpRequest * http.Request :=
  Eval vm_compute in prepared methodless_request.

(** The byte [GetUrlPrefix] trims. *)
Definition is_slash (c : ascii) : bool := Ascii.eqb c "/".

(** Strings of ASCII bytes: on these [strings.ToLower] is the byte-wise
    mapping of the model. *)
Definition is_ascii (s : string) : bool := url.all_bytes (fun c => (byte c <? 128)%N) s.

(** The envelope of the sample answer. *)
Definition json_envelope : response.httpResponse :=
  Eval vm_compute in
    match response.newHttpResponse json_response with
    | inl r => r
    | inr _ => envelope None ""
    end.

(** The bytes [QueryEscape] writes: unreserved ones, [%] and [+]. *)
Definition query_safe (c : ascii) : bool := is_alnum c || byte_in c "-_.~%+".

(** The values a list of pairs holds under [k], in order. *)
Definition values_of (k : string) (pairs : list (string * string)) : list string :=
  flat_map (fun kv => if decide (kv.1 = k) then [kv.2] else []) pairs.

(** No byte of [s] is [d]. *)
Definition no_byte (d : ascii) (s : string) : bool :=
  url.all_bytes (fun c => negb (Ascii.eqb c d)) s.

(** The sample request as [Submit] hands it to [client.Do]. *)
Definition sample_prepared : request.httpRequest * http.Request :=
  Eval vm_compute in prepared (sample_request answers).

(* ===================================================================== *)
(** * Properties *)
(* ===================================================================== *)

(** ** The [go] monad *)

Lemma go_bind_inv {A B} (m : go A) (k : A -> go B) (b : B) :
  m ≫= k = Done b -> exists a, m = Done a /\ k a = Done b.
Proof. destruct m as [a|msg]; simpl; [eauto | discriminate]. Qed.

Ltac go_inv H :=
  let a := fresh "a" in
  let Ha := fresh "Ha" in
  apply go_bind_inv in H; destruct H as (a & Ha & H).

(** ** What [Submit] leaves untouched in the composer *)

Lemma same_frame_refl r : same_frame r r.
Proof. repeat split. Qed.

Lemma same_frame_trans r1 r2 r3 :
  same_frame r1 r2 -> same_frame r2 r3 -> same_frame r1 r3.
Proof.
  unfold same_frame. intros H1 H2.
  destruct H1 as (?&?&?&?&?&?&?&?&?&?), H2 as (?&?&?&?&?&?&?&?&?&?).
  repeat split; congruence.
Qed.

Lemma same_frame_Queries r q : same_frame r (request.Queries r q).
Proof. repeat split. Qed.

Lemma same_frame_Headers r h : same_frame r (request.Headers r h).
Proof. repeat split. Qed.

Lemma Queries_headers r q : request.headers (request.Queries r q) = request.headers r.
Proof. reflexivity. Qed.

Lemma Submit_resolve_frame r r' t :
  request.Submit_resolve r = Done (r', t) ->
  same_frame r r' /\ request.headers r' = request.headers r.
Proof.
  unfold request.Submit_resolve. intros H. go_inv H.
  destruct a as [[[h q] p]|e].
  - go_inv H. injection H as <- _. split; [apply same_frame_Queries | reflexivity].
  - injection H as <- _. split; [apply same_frame_refl | reflexivity].
Qed.

Lemma AddHeader_frame r k v r' :
  request.AddHeader r k v = Done r' ->
  same_frame r r' /\ request.queries r' = request.queries r.
Proof.
  unfold request.AddHeader. intros H. go_inv H. injection H as <-.
  split; [apply same_frame_Headers | reflexivity].
Qed.

Lemma Submit_outgoing_frame r rawurl r' req :
  request.Submit_outgoing r rawurl = Done (r', req) ->
  same_frame r r' /\ request.queries r' = request.queries r.
Proof.
  unfold request.Submit_outgoing. intros H.
  destruct (http.NewRequest _ _ _) as [q|e].
  - go_inv H. go_inv H. go_inv H. injection H as <- _.
    assert (same_frame r a /\ request.queries a = request.queries r) as [Hf Hq].
    { destruct (request.userAgent r).
      - eapply AddHeader_frame; eauto.
      - destruct (negb _).
        + eapply AddHeader_frame; eauto.
        + injection Ha as <-. split; [apply same_frame_refl | reflexivity]. }
    split; [eapply same_frame_trans; [eauto | apply same_frame_Headers] | exact Hq].
  - injection H as <- _. split; [apply same_frame_refl | reflexivity].
Qed.

Lemma same_frame_maxRedirects r r' :
  same_frame r r' -> request.Submit_maxRedirects r' = request.Submit_maxRedirects r.
Proof.
  intros (Hc & _ & _ & Hm & _). unfold request.Submit_maxRedirects.
  rewrite Hc, Hm. reflexivity.
Qed.

(** ** The redirect budget *)

Lemma CheckRedirect_left budget :
  (0 < budget)%Z -> request.CheckRedirect budget = ((budget - 1)%Z, None).
Proof.
  intros H. unfold request.CheckRedirect.
  destruct (Z.leb_spec budget 0); [lia | reflexivity].
Qed.

Lemma CheckRedirect_spent budget :
  (budget <= 0)%Z -> request.CheckRedirect budget = (budget, Some TooManyRedirects).
Proof.
  intros H. unfold request.CheckRedirect.
  destruct (Z.leb_spec budget 0); [reflexivity | lia].
Qed.

Lemma follow_within_budget op x : forall (budget : Z) (hops : nat),
  (Z.of_nat (redirects x) <= budget)%Z ->
  http.follow request.CheckRedirect op x budget hops =
    (match chain_end x with
     | http.Answered resp => Ok resp
     | http.TransportError err => Err err
     | http.Redirected _ _ _ => Err TooManyRedirects
     end, hops + redirects x).
Proof.
  induction x as [resp loc next IH|resp|err]; intros budget hops Hle;
    cbn [http.follow redirects chain_end] in *.
  - rewrite CheckRedirect_left by lia.
    rewrite IH by lia. f_equal. lia.
  - f_equal. lia.
  - f_equal. lia.
Qed.

Lemma follow_beyond_budget op x : forall (budget : Z) (hops : nat),
  (0 <= budget < Z.of_nat (redirects x))%Z ->
  exists loc, http.follow request.CheckRedirect op x budget hops =
    (Err (url_Error op loc TooManyRedirects), hops + Z.to_nat budget).
Proof.
  induction x as [resp loc next IH|resp|err]; intros budget hops Hlt;
    cbn [http.follow redirects] in *; [|lia|lia].
  destruct (Z.leb_spec budget 0) as [Hb|Hb].
  - exists loc. rewrite CheckRedirect_spent by lia.
    assert (budget = 0%Z) as -> by lia. f_equal. simpl. lia.
  - rewrite CheckRedirect_left by lia.
    destruct (IH (budget - 1)%Z (S hops)) as [loc' ->]; [lia|].
    exists loc'. f_equal. lia.
Qed.

Lemma errors_Is_wrapped op loc target :
  errors_Is (url_Error op loc target) target = true.
Proof.
  cbn [errors_Is]. destruct (decide _); [reflexivity|].
  destruct target; cbn [errors_Is]; destruct (decide _); congruence.
Qed.

Lemma Submit_prepare_frame r r' req :
  Submit_prepare r = Done (r', req) -> same_frame r r'.
Proof.
  unfold Submit_prepare. intros H. go_inv H. destruct a as [r1 [t|err]].
  - apply Submit_resolve_frame in Ha as [Ha _].
    apply Submit_outgoing_frame in H as [H _]. eapply same_frame_trans; eauto.
  - injection H as <- _. apply Submit_resolve_frame in Ha as [Ha _]. exact Ha.
Qed.

Lemma Submit_trace_send r r' req :
  Submit_prepare r = Done (r', Ok req) ->
  request.Submit_trace r =
    Done (r', (request.Submit_send r' req).1, (request.Submit_send r' req).2).
Proof.
  unfold Submit_prepare, request.Submit_trace. intros H. go_inv H.
  rewrite Ha. destruct a as [r1 [t|err]]; cbn in *.
  - rewrite H. cbn. destruct (request.Submit_send r' req). reflexivity.
  - discriminate.
Qed.

(** C2: for a redirect budget N >= 0 (the override of the request if
    there is one, else the default of the profile), a submission whose
    chain of responses holds at most N redirect hops, exactly N among
    them, follows them all and returns the envelope of the answer; a chain
    with more hops, N+1 among them, fails with [TooManyRedirects] (wrapped
    in the [*url.Error] of [Client.Do]) after N hops; with budget 0 that is
    at the first redirect, no hop taken. *)
Theorem Submit_redirect_budget
    (r r' : request.httpRequest) (req : http.Request) (N : Z) :
  Submit_prepare r = Done (r', Ok req) ->
  request.Submit_maxRedirects r = N ->
  (0 <= N)%Z ->
  let x := client.GetTransport (request.client r) req in
  (forall resp,
      chain_end x = http.Answered resp ->
      (Z.of_nat (redirects x) <= N)%Z ->
      request.Submit_trace r = Done (r', response.newHttpResponse resp, redirects x))
  /\ ((N < Z.of_nat (redirects x))%Z ->
      exists err,
        request.Submit_trace r = Done (r', Err err, Z.to_nat N)
        /\ errors_Is err TooManyRedirects = true)
  /\ (N = 0%Z -> (0 < redirects x)%nat ->
      exists err,
        request.Submit_trace r = Done (r', Err err, O)
        /\ errors_Is err TooManyRedirects = true).
Proof.
  intros Hprep HN Hpos x.
  pose proof (Submit_prepare_frame _ _ _ Hprep) as Hfr.
  pose proof (same_frame_maxRedirects _ _ Hfr) as Hmr. rewrite HN in Hmr.
  assert (Hx : client.GetTransport (request.client r') req = x).
  { destruct Hfr as (-> & _). reflexivity. }
  assert (Hbeyond : (N < Z.of_nat (redirects x))%Z ->
      exists err,
        request.Submit_trace r = Done (r', Err err, Z.to_nat N)
        /\ errors_Is err TooManyRedirects = true).
  { intros Hlt. rewrite (Submit_trace_send _ _ _ Hprep).
    unfold request.Submit_send, http.Do. rewrite Hmr, Hx.
    destruct (follow_beyond_budget (http.urlErrorOp (http.Method req)) x N 0)
      as [loc ->]; [lia|].
    exists (url_Error (http.urlErrorOp (http.Method req)) loc TooManyRedirects).
    split; [reflexivity | apply errors_Is_wrapped]. }
  split; [|split].
  - intros resp Hend Hle. rewrite (Submit_trace_send _ _ _ Hprep).
    unfold request.Submit_send, http.Do. rewrite Hmr, Hx.
    rewrite follow_within_budget by exact Hle. rewrite Hend. reflexivity.
  - exact Hbeyond.
  - intros -> Hgt. apply Hbeyond. lia.
Qed.

Lemma Submit_redirect_budget_witness :
  Submit_prepare two_hops_request
    = Done (two_hops_prepared.1, Ok two_hops_prepared.2)
  /\ request.Submit_maxRedirects two_hops_request = 2%Z
  /\ (0 <= 2)%Z
  /\ (forall resp,
        chain_end (redirects_first 2 two_hops_prepared.2) = http.Answered resp ->
        (Z.of_nat (redirects (redirects_first 2 two_hops_prepared.2)) <= 2)%Z ->
        request.Submit_trace two_hops_request
        = Done (two_hops_prepared.1, response.newHttpResponse resp,
                redirects (redirects_first 2 two_hops_prepared.2))).
Proof.
  assert (Hprep : Submit_prepare two_hops_request
                  = Done (two_hops_prepared.1, Ok two_hops_prepared.2))
    by (vm_compute; reflexivity).
  split; [exact Hprep|]. split; [reflexivity|]. split; [lia|].
  exact (proj1 (Submit_redirect_budget two_hops_request _ _ 2 Hprep eq_refl
                  ltac:(lia))).
Defined.

(** Budget 2: two hops are followed, the third redirect fails; budget 0
    (the [NoRedirect] of the composer): the first redirect fails. *)
Example two_hops_within_two :
  outcome (request.Submit_trace
             (request.MaxRedirects (sample_request (redirects_first 2)) 2))
  = Some (response.newHttpResponse json_response, 2%nat).
Proof. vm_compute. reflexivity. Qed.

Example three_hops_beyond_two :
  outcome (request.Submit_trace
             (request.MaxRedirects (sample_request (redirects_first 3)) 2))
  = Some (Err (url_Error "Get" "/next" TooManyRedirects), 2%nat).
Proof. vm_compute. reflexivity. Qed.

Example no_redirect_first_hop :
  outcome (request.Submit_trace
             (request.NoRedirect (sample_request (redirects_first 1))))
  = Some (Err (url_Error "Get" "/next" TooManyRedirects), 0%nat).
Proof. vm_compute. reflexivity. Qed.

(** ** The response envelope *)

Lemma GetHeader_lowers r key :
  response.GetHeader r key = response.GetHeader r (strings.ToLower key).
Proof.
  unfold response.GetHeader.
  assert (Hidem : forall s, strings.ToLower (strings.ToLower s) = strings.ToLower s).
  { induction s as [|c s IH]; [reflexivity|]. cbn. f_equal; [|exact IH].
    unfold strings.lower_byte. destruct (is_upper c) eqn:Hc; [|now rewrite Hc].
    revert Hc. destruct c as [[] [] [] [] [] [] [] []]; vm_compute; congruence. }
  rewrite Hidem. reflexivity.
Qed.

(** C7: [IsJsonResponse] is true exactly when the lookup of
    [content-type] (any casing of the name gives the same lookup) yields
    the literal [application/json]: it is false for every other value,
    [application/json; charset=utf-8] among them, and when the header is
    absent; and whenever it is false [ParseJson] returns the not-JSON error
    and does not call [json.Unmarshal]. *)
Theorem IsJsonResponse_exact_literal (r : response.httpResponse) :
  (response.IsJsonResponse r = Done true
   <-> response.GetHeader r "content-type" = Done ("application/json", true))
  /\ (forall key, strings.ToLower key = "content-type" ->
        response.GetHeader r key = response.GetHeader r "content-type")
  /\ (forall v, response.GetHeader r "content-type" = Done (v, true) ->
        v <> "application/json" -> response.IsJsonResponse r = Done false)
  /\ (forall v, response.GetHeader r "content-type" = Done (v, false) ->
        response.IsJsonResponse r = Done false)
  /\ (response.IsJsonResponse r = Done false ->
        response.ParseJson r = Done (response.Fails not_a_json_response))
  /\ (forall b, response.IsJsonResponse
                  (envelope (with_content_type "application/json; charset=utf-8") b)
                = Done false)
  /\ (forall b, response.IsJsonResponse (envelope make_map b) = Done false)
  /\ (forall b, response.IsJsonResponse
                  (envelope (with_content_type "application/json") b)
                = Done true).
Proof.
  repeat split.
  - unfold response.IsJsonResponse. intros H. go_inv H. destruct a as [v ok].
    destruct ok; cbn in H; [|discriminate].
    destruct (String.eqb_spec v "application/json") as [->|]; cbn in H;
      [exact Ha | discriminate].
  - unfold response.IsJsonResponse. intros ->. reflexivity.
  - intros key Hkey. rewrite GetHeader_lowers, Hkey. reflexivity.
  - intros v Hget Hne. unfold response.IsJsonResponse. rewrite Hget. cbn.
    destruct (String.eqb_spec v "application/json"); [contradiction | reflexivity].
  - intros v Hget. unfold response.IsJsonResponse. rewrite Hget. reflexivity.
  - intros H. unfold response.ParseJson. rewrite H. reflexivity.
Qed.

Example charset_is_not_json :
  response.ParseJson (envelope (with_content_type "application/json; charset=utf-8") "{}")
  = Done (response.Fails not_a_json_response).
Proof. vm_compute. reflexivity. Qed.

Example any_casing_of_the_name :
  response.GetHeader (envelope (with_content_type "application/json") "{}") "Content-Type"
  = Done ("application/json", true).
Proof. vm_compute. reflexivity. Qed.

Lemma ParseAs_failures_distinct :
  NoDup [dest_is_nil; body_is_empty; dest_is_not_a_pointer; not_a_json_response;
         dest_is_no_unmarshaler].
Proof. apply (bool_decide_unpack _). vm_compute. exact I. Qed.

(** C8, as stated, fails at the nil destination: on an empty body
    [ParseAs] reports the nil destination and not the empty body. *)
Lemma ParseAs_nil_dest_before_empty_body :
  response.body (envelope (with_content_type "application/json") "") = ""
  /\ response.ParseAs (envelope (with_content_type "application/json") "") None
     = Done (response.Fails dest_is_nil)
  /\ response.ParseAs (envelope (with_content_type "application/json") "") None
     <> Done (response.Fails body_is_empty).
Proof. repeat split. discriminate. Qed.

(** C8, amended: for every envelope and every destination that is not
    nil, [ParseAs] on a body of length zero returns the empty-body error,
    whatever the content type (the headers are not even looked at); a nil
    destination gives the nil error before the body is looked at; and on a
    body that is not empty a destination that is no pointer, a content
    type that is not JSON and a pointer without the decoding capability
    each give an error of their own, the five errors being pairwise
    distinct; only when none applies is [json.Unmarshal] called. *)
Theorem ParseAs_failure_conditions (r : response.httpResponse) :
  (forall v, response.body r = "" ->
     response.ParseAs r (Some v) = Done (response.Fails body_is_empty))
  /\ response.ParseAs r None = Done (response.Fails dest_is_nil)
  /\ (forall v, response.body r <> "" -> response.kind v <> response.Ptr ->
       response.ParseAs r (Some v) = Done (response.Fails dest_is_not_a_pointer))
  /\ (forall v, response.body r <> "" -> response.kind v = response.Ptr ->
       response.IsJsonResponse r = Done false ->
       response.ParseAs r (Some v) = Done (response.Fails not_a_json_response))
  /\ (forall v, response.body r <> "" -> response.kind v = response.Ptr ->
       response.IsJsonResponse r = Done true ->
       response.isUnmarshaler v = false ->
       response.ParseAs r (Some v) = Done (response.Fails dest_is_no_unmarshaler))
  /\ (forall v, response.body r <> "" -> response.kind v = response.Ptr ->
       response.IsJsonResponse r = Done true ->
       response.isUnmarshaler v = true ->
       response.ParseAs r (Some v)
       = Done (response.Unmarshal (response.body r) (response.into_dest v)))
  /\ NoDup [dest_is_nil; body_is_empty; dest_is_not_a_pointer; not_a_json_response;
            dest_is_no_unmarshaler].
Proof.
  assert (Hlen : forall s : string, s <> "" -> Nat.eqb (String.length s) 0 = false).
  { intros [|c s] Hs; [contradiction | reflexivity]. }
  repeat split.
  - intros v Hb. unfold response.ParseAs. rewrite Hb. reflexivity.
  - intros v Hb Hk. unfold response.ParseAs. rewrite (Hlen _ Hb).
    rewrite bool_decide_eq_false_2 by exact Hk. reflexivity.
  - intros v Hb Hk Hj. unfold response.ParseAs. rewrite (Hlen _ Hb).
    rewrite bool_decide_eq_true_2 by exact Hk. cbn. rewrite Hj. reflexivity.
  - intros v Hb Hk Hj Hu. unfold response.ParseAs. rewrite (Hlen _ Hb).
    rewrite bool_decide_eq_true_2 by exact Hk. cbn. rewrite Hj. cbn.
    rewrite Hu. reflexivity.
  - intros v Hb Hk Hj Hu. unfold response.ParseAs. rewrite (Hlen _ Hb).
    rewrite bool_decide_eq_true_2 by exact Hk. cbn. rewrite Hj. cbn.
    rewrite Hu. reflexivity.
  - apply ParseAs_failures_distinct.
Qed.

(** An empty body wins over a content type that is not JSON and over a
    header entry without a value, on which the content-type check would
    panic. *)
Example empty_body_whatever_the_content_type :
  response.ParseAs (envelope (with_content_type "text/html") "")
    (Some (response.mkValue response.Ptr true))
  = Done (response.Fails body_is_empty)
  /\ response.ParseAs (envelope (Some {[ "content-type" := [] ]}) "")
       (Some (response.mkValue response.Struct false))
     = Done (response.Fails body_is_empty)
  /\ response.IsJsonResponse (envelope (Some {[ "content-type" := [] ]}) "")
     = Panic "index out of range [0] with length 0".
Proof. vm_compute. repeat split. Qed.

(** ** Additive merges of [map[string][]string] *)

(** The values [add_each] adds under [k]: those of every entry whose key
    [f] sends to [k], in the order of the entries. *)
Lemma map_get_append m key value m' :
  map_append m key value = Done m' ->
  forall k, map_get m' k = map_get m k ++ (if decide (key = k) then [value] else []).
Proof.
  destruct m as [g|]; [|discriminate]. intros [= <-] k. cbn.
  destruct (decide (key = k)) as [->|Hne].
  - rewrite lookup_insert_eq. reflexivity.
  - rewrite lookup_insert_ne by exact Hne. rewrite app_nil_r. reflexivity.
Qed.

Lemma go_range_append_get key vs : forall m m',
  go_range vs (fun each dst => map_append dst key each) m = Done m' ->
  forall k, map_get m' k = map_get m k ++ (if decide (key = k) then vs else []).
Proof.
  induction vs as [|v vs IH]; intros m m' H k.
  - injection H as <-. destruct (decide _); rewrite app_nil_r; reflexivity.
  - cbn in H. go_inv H. rewrite (IH _ _ H k), (map_get_append _ _ _ _ Ha k).
    rewrite <- app_assoc. destruct (decide _); reflexivity.
Qed.

Lemma go_range_ext {A St} (xs : list A) (body body' : A -> St -> go St) :
  (forall x s, body x s = body' x s) ->
  forall s, go_range xs body s = go_range xs body' s.
Proof.
  intros Hext. induction xs as [|x xs IH]; intros s; [reflexivity|].
  cbn. rewrite Hext. destruct (body' x s); cbn; [apply IH | reflexivity].
Qed.

Section additive.

Variable Add : MultiMap -> string -> string -> go MultiMap.
Variable f : string -> string.
Hypothesis Add_appends : forall m k v, Add m k v = map_append m (f k) v.

Lemma add_each_get entries : forall m m',
  add_each Add entries m = Done m' ->
  forall k, map_get m' k = map_get m k ++ gathered f entries k.
Proof.
  induction entries as [|[key vs] es IH]; intros m m' H k.
  - injection H as <-. cbn. rewrite app_nil_r. reflexivity.
  - unfold add_each in H. cbn in H. go_inv H.
    rewrite (go_range_ext _ _ (fun each dst => map_append dst (f key) each)) in Ha
      by (intros; apply Add_appends).
    rewrite (IH _ _ H k), (go_range_append_get _ _ _ _ Ha k).
    cbn. rewrite <- app_assoc. reflexivity.
Qed.

Lemma go_range_append_total key vs : forall g,
  exists g', go_range vs (fun each dst => Add dst key each) (Some g) = Done (Some g').
Proof.
  induction vs as [|v vs IH]; intros g; [eexists; reflexivity|].
  cbn. rewrite Add_appends. cbn. apply IH.
Qed.

(** On a map that is not nil the merge goes through. *)
Lemma add_each_total entries : forall g,
  exists g', add_each Add entries (Some g) = Done (Some g').
Proof.
  induction entries as [|[key vs] es IH]; intros g; [eexists; reflexivity|].
  unfold add_each. cbn.
  destruct (go_range_append_total key vs g) as [g1 ->]. cbn. apply IH.
Qed.

(** Nothing is added to the nil map without a panic. *)
Lemma add_each_nil entries m' :
  add_each Add entries None = Done m' -> m' = None.
Proof.
  induction entries as [|[key vs] es IH]; intros H.
  - injection H as <-. reflexivity.
  - unfold add_each in H. cbn in H. go_inv H.
    destruct vs as [|v vs]; [injection Ha as <-; apply IH, H|].
    cbn in Ha. rewrite Add_appends in Ha. discriminate.
Qed.

End additive.

Lemma gathered_elem f entries k v :
  v ∈ gathered f entries k <->
  exists key vs, (key, vs) ∈ entries /\ f key = k /\ v ∈ vs.
Proof.
  unfold gathered. rewrite list_elem_of_In, in_flat_map. split.
  - intros ([key vs] & Hin & Hv). cbn in Hv. destruct (decide _); [|destruct Hv].
    exists key, vs. rewrite <- !list_elem_of_In in *. auto.
  - intros (key & vs & Hin & Hk & Hv). exists (key, vs).
    rewrite <- !list_elem_of_In. split; [exact Hin|]. cbn.
    rewrite decide_True by exact Hk. exact Hv.
Qed.

Lemma gathered_cons f key vs es k :
  gathered f ((key, vs) :: es) k
  = (if decide (f key = k) then vs else []) ++ gathered f es k.
Proof. reflexivity. Qed.

(** The entries of a map hold each key once, so what is gathered under a
    key by the identity is the list stored under it. *)
Lemma gathered_unique entries k :
  NoDup entries.*1 ->
  gathered id entries k = default [] (list_to_map (M := gmap string (list string)) entries !! k).
Proof.
  induction entries as [|[key vs] es IH]; intros Hnd; [reflexivity|].
  rewrite gathered_cons. rewrite fmap_cons in Hnd.
  apply NoDup_cons in Hnd as [Hnotin Hnd]. rewrite (IH Hnd).
  change (list_to_map ((key, vs) :: es)) with (<[key := vs]> (list_to_map es : gmap string (list string))).
  unfold id. cbn [fst] in *. destruct (decide (key = k)) as [->|Hne].
  - rewrite lookup_insert_eq. cbn.
    rewrite (not_elem_of_list_to_map_1 es k Hnotin). cbn. apply app_nil_r.
  - rewrite lookup_insert_ne by exact Hne. reflexivity.
Qed.

Lemma gathered_map_entries m k : gathered id (map_entries m) k = map_get m k.
Proof.
  destruct m as [g|]; [|reflexivity]. unfold map_entries, map_get.
  rewrite gathered_unique by apply NoDup_fst_map_to_list.
  rewrite list_to_map_to_list. reflexivity.
Qed.

(** Go leaves the order of a [range] over a map open: under the identity
    any enumeration of the entries of a map gathers the same. *)
Lemma gathered_any_order (g : gmap string (list string)) entries k :
  entries ≡ₚ map_to_list g -> gathered id entries k = map_get (Some g) k.
Proof.
  intros Hperm.
  assert (Hnd : NoDup entries.*1).
  { rewrite Hperm. apply NoDup_fst_map_to_list. }
  rewrite gathered_unique by exact Hnd.
  rewrite (list_to_map_proper _ _ Hnd Hperm), list_to_map_to_list. reflexivity.
Qed.

(** ** URL resolution in [Submit] *)

Lemma url_Add_appends m k v : url.Add m k v = map_append m (id k) v.
Proof. reflexivity. Qed.

Lemma http_Add_appends m k v : http.Add m k v = map_append m (http.CanonicalHeaderKey k) v.
Proof. reflexivity. Qed.

(** The default queries [Submit] merges: none under the skip flag. *)
Lemma default_queries_get r q q' :
  (if negb (request.skipDefaultQueries r)
   then add_each url.Add (map_entries (client.DefaultQueries (request.client r))) q
   else Done q) = Done q' ->
  forall k, map_get q' k
            = map_get q k ++ (if request.skipDefaultQueries r then []
                              else map_get (client.DefaultQueries (request.client r)) k).
Proof.
  destruct (request.skipDefaultQueries r); cbn; intros H k.
  - injection H as <-. rewrite app_nil_r. reflexivity.
  - rewrite (add_each_get _ _ url_Add_appends _ _ _ H k), gathered_map_entries.
    reflexivity.
Qed.

(** [Submit] on a request with a path: what the URL is assembled from. *)
Lemma Submit_resolve_with_path r u r' t :
  request.path r <> "" ->
  url.Parse (strings.TrimPrefix (request.path r) "/") = Ok u ->
  request.Submit_resolve r = Done (r', Ok t) ->
  request.r_host t = (if negb (String.eqb (url.Host u) "")
                 then url.Scheme u +:+ "://" +:+ url.Host u
                 else client.GetHost (request.client r))
  /\ request.r_prefix t = client.GetUrlPrefix (request.client r)
  /\ request.r_path t = "/" +:+ url.Path u
  /\ request.r_qp t = (if Nat.ltb 0 (map_len (request.queries r'))
                       then "?" +:+ url.Encode (request.queries r') else "")
  /\ forall k, map_get (request.queries r') k
               = map_get (request.queries r) k ++ map_get (url.Query u) k
                 ++ (if request.skipDefaultQueries r then []
                     else map_get (client.DefaultQueries (request.client r)) k).
Proof.
  intros Hpath Hparse H. unfold request.Submit_resolve in H. go_inv H.
  unfold request.Submit_path in Ha.
  rewrite (proj2 (String.eqb_neq _ _) Hpath), Hparse in Ha. go_inv Ha.
  injection Ha as <-. go_inv H. injection H as <- <-. cbn.
  repeat split.
  intros k. rewrite (default_queries_get _ _ _ Ha k).
  rewrite (add_each_get _ _ url_Add_appends _ _ _ Ha0 k), gathered_map_entries.
  rewrite <- app_assoc. reflexivity.
Qed.

(** [Submit] on a request without a path. *)
Lemma Submit_resolve_without_path r r' t :
  request.path r = "" ->
  request.Submit_resolve r = Done (r', Ok t) ->
  request.r_host t = client.GetHost (request.client r)
  /\ request.r_prefix t = client.GetUrlPrefix (request.client r)
  /\ request.r_path t = ""
  /\ request.r_qp t = (if Nat.ltb 0 (map_len (request.queries r'))
                       then "?" +:+ url.Encode (request.queries r') else "")
  /\ forall k, map_get (request.queries r') k
               = map_get (request.queries r) k
                 ++ (if request.skipDefaultQueries r then []
                     else map_get (client.DefaultQueries (request.client r)) k).
Proof.
  intros Hpath H. unfold request.Submit_resolve in H. go_inv H.
  unfold request.Submit_path in Ha. rewrite Hpath in Ha. cbn in Ha.
  injection Ha as <-. go_inv H. injection H as <- <-. cbn.
  repeat split. intros k. apply (default_queries_get _ _ _ Ha k).
Qed.

(** With a query map that is not nil and a path that parses (or no path),
    [Submit] gets as far as the URL. *)
Lemma Submit_resolve_total r g :
  request.queries r = Some g ->
  (request.path r = ""
   \/ exists u, url.Parse (strings.TrimPrefix (request.path r) "/") = Ok u) ->
  exists r' t, request.Submit_resolve r = Done (r', Ok t).
Proof.
  intros Hq Hpath. unfold request.Submit_resolve, request.Submit_path. rewrite Hq.
  assert (Hdef : forall g1, exists g2,
             (if negb (request.skipDefaultQueries r)
              then add_each url.Add
                     (map_entries (client.DefaultQueries (request.client r))) (Some g1)
              else Done (Some g1)) = Done (Some g2)).
  { intros g1. destruct (negb _); [|eexists; reflexivity].
    apply (add_each_total _ _ url_Add_appends). }
  destruct (String.eqb_spec (request.path r) "") as [He|Hne].
  - cbn. destruct (Hdef g) as [g2 ->]. cbn. eauto.
  - destruct Hpath as [He|[u ->]]; [contradiction|].
    destruct (add_each_total _ _ url_Add_appends (map_entries (url.Query u)) g)
      as [g1 ->]. cbn.
    destruct (Hdef g1) as [g2 ->]. cbn. eauto.
Qed.

(** ** [Values.Encode] *)

Lemma append_cons (x : ascii) (a b : string) : String x a +:+ b = String x (a +:+ b).
Proof. reflexivity. Qed.

Lemma append_assoc (a b c : string) : (a +:+ b) +:+ c = a +:+ (b +:+ c).
Proof.
  induction a as [|x a IH]; [reflexivity|]. rewrite !append_cons, IH. reflexivity.
Qed.

Lemma append_nil_r (a : string) : a +:+ "" = a.
Proof.
  induction a as [|x a IH]; [reflexivity|]. rewrite append_cons, IH. reflexivity.
Qed.

Lemma append_length (a b : string) :
  String.length (a +:+ b) = (String.length a + String.length b)%nat.
Proof.
  induction a as [|x a IH]; [reflexivity|]. rewrite append_cons. cbn.
  rewrite IH. reflexivity.
Qed.

Lemma pair_segment_length kv : (0 < String.length (pair_segment kv))%nat.
Proof. unfold pair_segment. rewrite !append_length. cbn. lia. Qed.

Lemma concat_length (y : string) (segs : list string) :
  (String.length y <= String.length (String.concat "&" (y :: segs)))%nat.
Proof.
  destruct segs as [|z segs]; [reflexivity|].
  change (String.concat "&" (y :: z :: segs))
    with (y +:+ "&" +:+ String.concat "&" (z :: segs)).
  rewrite append_length. lia.
Qed.

Lemma concat_snoc (segs : list string) (x : string) :
  (forall y, y ∈ segs -> (0 < String.length y)%nat) ->
  String.concat "&" (segs ++ [x])
  = (if Nat.ltb 0 (String.length (String.concat "&" segs))
     then String.concat "&" segs +:+ "&" else String.concat "&" segs) +:+ x.
Proof.
  induction segs as [|y segs IH]; intros Hpos; [reflexivity|].
  assert (Hy : (0 < String.length y)%nat) by (apply Hpos; left).
  assert (Hlt : Nat.ltb 0 (String.length (String.concat "&" (y :: segs))) = true).
  { apply Nat.ltb_lt. pose proof (concat_length y segs). lia. }
  rewrite Hlt. destruct segs as [|z segs].
  - change (String.concat "&" ([y] ++ [x])) with (y +:+ "&" +:+ x).
    change (String.concat "&" [y]) with y. rewrite append_assoc. reflexivity.
  - change (String.concat "&" ((y :: z :: segs) ++ [x]))
      with (y +:+ "&" +:+ String.concat "&" ((z :: segs) ++ [x])).
    rewrite IH by (intros w Hw; apply Hpos; right; exact Hw).
    assert (Hz : Nat.ltb 0 (String.length (String.concat "&" (z :: segs))) = true).
    { apply Nat.ltb_lt. pose proof (concat_length z segs).
      assert (0 < String.length z)%nat by (apply Hpos; right; left). lia. }
    rewrite Hz.
    change (String.concat "&" (y :: z :: segs))
      with (y +:+ "&" +:+ String.concat "&" (z :: segs)).
    rewrite !append_assoc. reflexivity.
Qed.

Lemma Encode_pairs_fold (ps : list (string * string)) : forall prev,
  foldl (fun buf kv => url.Encode_pair (url.QueryEscape kv.1) kv.2 buf)
    (String.concat "&" (pair_segment <$> prev)) ps
  = String.concat "&" (pair_segment <$> (prev ++ ps)).
Proof.
  induction ps as [|p ps IH]; intros prev; [now rewrite app_nil_r|].
  cbn [foldl]. replace (prev ++ p :: ps) with ((prev ++ [p]) ++ ps)
    by (rewrite <- app_assoc; reflexivity).
  rewrite <- IH. f_equal. rewrite fmap_app. cbn [fmap list_fmap].
  rewrite concat_snoc.
  - unfold url.Encode_pair, pair_segment.
    destruct (Nat.ltb 0 _); rewrite ?append_assoc; reflexivity.
  - intros y Hy. apply list_elem_of_fmap in Hy as (kv & -> & _).
    apply pair_segment_length.
Qed.

Lemma Encode_keys_fold (vals : string -> list string) (keys : list string) : forall buf,
  foldl (fun buf k =>
           foldl (fun buf v => url.Encode_pair (url.QueryEscape k) v buf) buf (vals k))
    buf keys
  = foldl (fun buf kv => url.Encode_pair (url.QueryEscape kv.1) kv.2 buf) buf
      (flat_map (fun k => pair k <$> vals k) keys).
Proof.
  induction keys as [|k keys IH]; intros buf; [reflexivity|].
  cbn [foldl flat_map]. rewrite foldl_app, IH. f_equal.
  generalize buf. induction (vals k) as [|v vs IHv]; intros b; [reflexivity|].
  cbn. apply IHv.
Qed.

(** [Encode] is the segments of its pairs joined by [&]. *)
Lemma Encode_segments m :
  url.Encode m = String.concat "&" (pair_segment <$> pairs_of m).
Proof.
  unfold url.Encode, pairs_of.
  rewrite Encode_keys_fold. rewrite (Encode_pairs_fold _ []).
  destruct (Nat.eqb_spec (map_len m) 0) as [Hlen|]; [|reflexivity].
  destruct m as [g|]; [|reflexivity]. cbn in Hlen.
  apply map_size_empty_inv in Hlen as ->. reflexivity.
Qed.

Lemma map_get_nonempty_len m k : map_get m k <> [] -> (0 < map_len m)%nat.
Proof.
  destruct m as [g|]; cbn; [|congruence]. intros Hne.
  destruct (g !! k) as [vs|] eqn:Hk; [|contradiction].
  destruct (decide (size g = 0)) as [Hz|]; [|lia].
  apply map_size_empty_inv in Hz as ->. rewrite lookup_empty in Hk. discriminate.
Qed.

Lemma map_get_nonempty_key m k :
  map_get m k <> [] -> k ∈ url.sort_keys (map fst (map_entries m)).
Proof.
  destruct m as [g|]; cbn; [|congruence]. intros Hne.
  destruct (g !! k) as [vs|] eqn:Hk; [|contradiction].
  unfold url.sort_keys. rewrite merge_sort_Permutation.
  apply list_elem_of_fmap. exists (k, vs). split; [reflexivity|].
  apply elem_of_map_to_list. exact Hk.
Qed.

(** The pairs of one key stand together in what [Encode] writes. *)
Lemma pairs_of_key m k :
  map_get m k <> [] ->
  exists before after, pairs_of m = before ++ (pair k <$> map_get m k) ++ after.
Proof.
  intros Hne. apply map_get_nonempty_key in Hne.
  apply list_elem_of_split in Hne as (K1 & K2 & HK). unfold pairs_of. rewrite HK.
  rewrite flat_map_app. cbn [flat_map]. eauto.
Qed.

(** C4: without the skip flag the merge of the queries is additive: the
    values the path supplies under a key and the default values of the
    profile under the same key all stay, after what the composer already
    held, path values first; in the encoded query of the URL the pair of
    every path value comes before the pair of every default value of that
    key.  (On the query map [NewHttpRequest] allocates, or any map that is
    not nil, [Submit] does get to the URL.) *)
Theorem Submit_queries_additive
    (r : request.httpRequest) (g : gmap string (list string)) (u : url.URL)
    (k v1 v2 : string) :
  request.queries r = Some g ->
  request.path r <> "" ->
  url.Parse (strings.TrimPrefix (request.path r) "/") = Ok u ->
  request.skipDefaultQueries r = false ->
  v1 ∈ map_get (url.Query u) k ->
  v2 ∈ map_get (client.DefaultQueries (request.client r)) k ->
  exists r' t,
    request.Submit_resolve r = Done (r', Ok t)
    /\ map_get (request.queries r') k
       = map_get (request.queries r) k ++ map_get (url.Query u) k
         ++ map_get (client.DefaultQueries (request.client r)) k
    /\ exists before between after,
        request.r_qp t
        = "?" +:+ String.concat "&"
                    (pair_segment <$> before ++ [(k, v1)] ++ between ++ [(k, v2)] ++ after).
Proof.
  intros Hq Hpath Hparse Hskip Hv1 Hv2.
  destruct (Submit_resolve_total r g Hq) as (r' & t & Hres); [right; eauto|].
  exists r', t. split; [exact Hres|].
  destruct (Submit_resolve_with_path r u r' t Hpath Hparse Hres)
    as (_ & _ & _ & Hqp & Hget).
  specialize (Hget k). rewrite Hskip in Hget. split; [exact Hget|].
  apply list_elem_of_split in Hv1 as (p1 & p2 & Hp).
  apply list_elem_of_split in Hv2 as (d1 & d2 & Hd).
  assert (Hne : map_get (request.queries r') k <> []).
  { rewrite Hget, Hp. intros Hnil. apply app_eq_nil in Hnil as [_ Hnil].
    apply app_eq_nil in Hnil as [Hnil _]. apply app_eq_nil in Hnil as [_ Hnil].
    discriminate. }
  rewrite Hqp, (proj2 (Nat.ltb_lt _ _) (map_get_nonempty_len _ _ Hne)).
  rewrite Encode_segments.
  destruct (pairs_of_key _ _ Hne) as (before & after & ->).
  rewrite Hget, Hp, Hd.
  exists (before ++ (pair k <$> map_get (request.queries r) k ++ p1)),
    (pair k <$> p2 ++ d1), ((pair k <$> d2) ++ after).
  do 3 f_equal. rewrite !fmap_app, !fmap_cons, <- ?app_assoc. cbn [app].
  rewrite <- ?app_assoc. reflexivity.
Qed.

Lemma Submit_queries_additive_witness :
  request.queries colliding_request = Some ∅
  /\ request.path colliding_request <> ""
  /\ url.Parse (strings.TrimPrefix (request.path colliding_request) "/")
     = Ok colliding_reference
  /\ request.skipDefaultQueries colliding_request = false
  /\ "1" ∈ map_get (url.Query colliding_reference) "a"
  /\ "2" ∈ map_get (client.DefaultQueries (request.client colliding_request)) "a"
  /\ exists r' t,
      request.Submit_resolve colliding_request = Done (r', Ok t)
      /\ map_get (request.queries r') "a"
         = map_get (request.queries colliding_request) "a"
           ++ map_get (url.Query colliding_reference) "a"
           ++ map_get (client.DefaultQueries (request.client colliding_request)) "a"
      /\ exists before between after,
          request.r_qp t
          = "?" +:+ String.concat "&"
                      (pair_segment <$> before ++ [("a", "1")] ++ between
                                        ++ [("a", "2")] ++ after).
Proof.
  assert (H1 : request.queries colliding_request = Some ∅) by reflexivity.
  assert (H2 : request.path colliding_request <> "") by (vm_compute; discriminate).
  assert (H3 : url.Parse (strings.TrimPrefix (request.path colliding_request) "/")
               = Ok colliding_reference) by (vm_compute; reflexivity).
  assert (H4 : request.skipDefaultQueries colliding_request = false) by reflexivity.
  assert (H5 : "1" ∈ map_get (url.Query colliding_reference) "a")
    by (apply list_elem_of_In; vm_compute; left; reflexivity).
  assert (H6 : "2" ∈ map_get (client.DefaultQueries (request.client colliding_request)) "a")
    by (apply list_elem_of_In; vm_compute; left; reflexivity).
  repeat (split; [assumption|]).
  exact (Submit_queries_additive colliding_request ∅ colliding_reference
           "a" "1" "2" H1 H2 H3 H4 H5 H6).
Defined.

(** Path query [a=1], default query [a=2]: both are in the URL, the one
    of the path first. *)
Example both_values_in_the_url :
  (fun run => match run with
              | Done (_, inl t) => Some (request.target_url t)
              | _ => None
              end) (request.Submit_resolve colliding_request)
  = Some "https://api.example.com/v1/search?a=1&a=2".
Proof. vm_compute. reflexivity. Qed.

Lemma HasPrefix_cons (c : ascii) (s p : string) :
  strings.HasPrefix (String c s) (String c p) = strings.HasPrefix s p.
Proof.
  unfold strings.HasPrefix. cbn [String.prefix].
  destruct (ascii_dec c c); [reflexivity | contradiction].
Qed.

(** C3, as stated, fails at a path that is an absolute URL: the parsed
    path portion [/resource] begins with a slash, one more is put in front
    of it, and the component in the URL begins with two. *)
Lemma Submit_absolute_url_two_slashes :
  request.path (absolute_request answers) = "https://other.example/resource?x=1"
  /\ url.Path absolute_reference = "/resource"
  /\ resolved_of (absolute_request answers)
     = Some (request.mkResolved "https://other.example" "/v1" "//resource" "?a=2&x=1")
  /\ strings.HasPrefix "//resource" "//" = true.
Proof. vm_compute. repeat split. Qed.

(** C3, amended: for a stored path that is not empty (and parses) the
    path component of the URL is the parsed path portion with one slash
    put in front of it, the bare [/] for an empty path portion; so it
    begins with exactly one slash exactly when the parsed path portion,
    taken after the trim of a single leading slash, begins with none.  An
    empty stored path gives the empty component.  (On a query map that is
    not nil [Submit] does get to the URL.) *)
Theorem Submit_resolved_path (r : request.httpRequest) (g : gmap string (list string)) :
  request.queries r = Some g ->
  (request.path r = "" ->
   exists r' t, request.Submit_resolve r = Done (r', Ok t) /\ request.r_path t = "")
  /\ (forall u,
        request.path r <> "" ->
        url.Parse (strings.TrimPrefix (request.path r) "/") = Ok u ->
        exists r' t,
          request.Submit_resolve r = Done (r', Ok t)
          /\ request.r_path t = "/" +:+ url.Path u
          /\ (url.Path u = "" -> request.r_path t = "/")
          /\ strings.HasPrefix (request.r_path t) "/" = true
          /\ strings.HasPrefix (request.r_path t) "//"
             = strings.HasPrefix (url.Path u) "/").
Proof.
  intros Hq. split.
  - intros Hpath. destruct (Submit_resolve_total r g Hq) as (r' & t & Hres); [left; exact Hpath|].
    exists r', t. split; [exact Hres|].
    apply (Submit_resolve_without_path r r' t Hpath Hres).
  - intros u Hpath Hparse.
    destruct (Submit_resolve_total r g Hq) as (r' & t & Hres); [right; eauto|].
    exists r', t. split; [exact Hres|].
    destruct (Submit_resolve_with_path r u r' t Hpath Hparse Hres) as (_ & _ & -> & _).
    change ("/" +:+ url.Path u) with (String "/" (url.Path u)).
    repeat split.
    + intros ->. reflexivity.
    + rewrite (HasPrefix_cons "/" (url.Path u) ""). destruct (url.Path u); reflexivity.
Qed.

Lemma Submit_resolved_path_witness :
  request.queries (sample_request answers) = Some ∅
  /\ ((request.path (sample_request answers) = "" ->
       exists r' t, request.Submit_resolve (sample_request answers) = Done (r', Ok t)
                    /\ request.r_path t = "")
      /\ (forall u,
            request.path (sample_request answers) <> "" ->
            url.Parse (strings.TrimPrefix (request.path (sample_request answers)) "/")
            = Ok u ->
            exists r' t,
              request.Submit_resolve (sample_request answers) = Done (r', Ok t)
              /\ request.r_path t = "/" +:+ url.Path u
              /\ (url.Path u = "" -> request.r_path t = "/")
              /\ strings.HasPrefix (request.r_path t) "/" = true
              /\ strings.HasPrefix (request.r_path t) "//"
                 = strings.HasPrefix (url.Path u) "/")).
Proof.
  split; [reflexivity|].
  exact (Submit_resolved_path (sample_request answers) ∅ eq_refl).
Defined.

(** [/users?active=true] gives [/users], the bare host reference
    [https://other.example] gives [/], no path gives nothing. *)
Example resolved_path_samples :
  (request.r_path <$> resolved_of (sample_request answers)) = Some "/users"
  /\ (request.r_path <$>
        resolved_of (request.Path (sample_request answers) "https://other.example"))
     = Some "/"
  /\ (request.r_path <$> resolved_of (request.Path (sample_request answers) ""))
     = Some "".
Proof. vm_compute. repeat split. Qed.

(** C1, as stated, fails on the prefix: with an absolute URL as path the
    host of the profile gives way to the one of the URL, but the prefix of
    the profile is put into the URL all the same. *)
Lemma Submit_absolute_url_keeps_prefix :
  client.GetUrlPrefix (request.client (absolute_request answers)) = "/v1"
  /\ (request.target_url <$> resolved_of (absolute_request answers))
     = Some "https://other.example/v1//resource?a=2&x=1"
  /\ (request.target_url <$> resolved_of (absolute_request answers))
     <> ((fun t => request.r_host t +:+ request.r_path t +:+ request.r_qp t)
          <$> resolved_of (absolute_request answers)).
Proof. vm_compute. repeat split. discriminate. Qed.

(** C1, amended: when the path parses to a reference with an authority
    (an absolute URL), the URL of the call starts with the [scheme://host]
    of that reference in place of the host of the profile; the prefix of
    the profile still follows it, then the resolved path and the query; and
    the queries of the reference are merged additively with what the
    composer held and, without the skip flag, with the default queries of
    the profile. *)
Theorem Submit_absolute_url
    (r : request.httpRequest) (g : gmap string (list string)) (u : url.URL) :
  request.queries r = Some g ->
  request.path r <> "" ->
  url.Parse (strings.TrimPrefix (request.path r) "/") = Ok u ->
  url.Host u <> "" ->
  exists r' t,
    request.Submit_resolve r = Done (r', Ok t)
    /\ request.r_host t = url.Scheme u +:+ "://" +:+ url.Host u
    /\ request.target_url t
       = (url.Scheme u +:+ "://" +:+ url.Host u)
         +:+ client.GetUrlPrefix (request.client r)
         +:+ request.r_path t +:+ request.r_qp t
    /\ request.r_qp t = (if Nat.ltb 0 (map_len (request.queries r'))
                         then "?" +:+ url.Encode (request.queries r') else "")
    /\ forall k, map_get (request.queries r') k
                 = map_get (request.queries r) k ++ map_get (url.Query u) k
                   ++ (if request.skipDefaultQueries r then []
                       else map_get (client.DefaultQueries (request.client r)) k).
Proof.
  intros Hq Hpath Hparse Hhost.
  destruct (Submit_resolve_total r g Hq) as (r' & t & Hres); [right; eauto|].
  exists r', t. split; [exact Hres|].
  destruct (Submit_resolve_with_path r u r' t Hpath Hparse Hres)
    as (Hh & Hp & _ & Hqp & Hget).
  rewrite (proj2 (String.eqb_neq _ _) Hhost) in Hh. cbn in Hh.
  unfold request.target_url. rewrite Hh, Hp. repeat split; assumption.
Qed.

Lemma Submit_absolute_url_witness :
  request.queries (absolute_request answers) = Some ∅
  /\ request.path (absolute_request answers) <> ""
  /\ url.Parse (strings.TrimPrefix (request.path (absolute_request answers)) "/")
     = Ok absolute_reference
  /\ url.Host absolute_reference <> ""
  /\ exists r' t,
      request.Submit_resolve (absolute_request answers) = Done (r', Ok t)
      /\ request.r_host t
         = url.Scheme absolute_reference +:+ "://" +:+ url.Host absolute_reference
      /\ request.target_url t
         = (url.Scheme absolute_reference +:+ "://" +:+ url.Host absolute_reference)
           +:+ client.GetUrlPrefix (request.client (absolute_request answers))
           +:+ request.r_path t +:+ request.r_qp t
      /\ request.r_qp t = (if Nat.ltb 0 (map_len (request.queries r'))
                           then "?" +:+ url.Encode (request.queries r') else "")
      /\ forall k, map_get (request.queries r') k
                   = map_get (request.queries (absolute_request answers)) k
                     ++ map_get (url.Query absolute_reference) k
                     ++ (if request.skipDefaultQueries (absolute_request answers) then []
                         else map_get (client.DefaultQueries
                                         (request.client (absolute_request answers))) k).
Proof.
  assert (H1 : request.queries (absolute_request answers) = Some ∅) by reflexivity.
  assert (H2 : request.path (absolute_request answers) <> "")
    by (vm_compute; discriminate).
  assert (H3 : url.Parse (strings.TrimPrefix (request.path (absolute_request answers)) "/")
               = Ok absolute_reference) by (vm_compute; reflexivity).
  assert (H4 : url.Host absolute_reference <> "") by (vm_compute; discriminate).
  repeat (split; [assumption|]).
  exact (Submit_absolute_url (absolute_request answers) ∅ absolute_reference H1 H2 H3 H4).
Defined.

(** ** Headers of the outgoing call *)

Lemma canonical_byte_idem upper c :
  http.canonical_byte upper (http.canonical_byte upper c) = http.canonical_byte upper c.
Proof.
  destruct upper; destruct c as [[] [] [] [] [] [] [] []]; vm_compute; reflexivity.
Qed.

Lemma canonical_byte_token upper c :
  http.isToken (http.canonical_byte upper c) = http.isToken c.
Proof.
  destruct upper; destruct c as [[] [] [] [] [] [] [] []]; vm_compute; reflexivity.
Qed.

Lemma canonical_bytes_idem s : forall upper,
  http.canonical_bytes upper (http.canonical_bytes upper s) = http.canonical_bytes upper s.
Proof.
  induction s as [|c s IH]; intros upper; [reflexivity|].
  cbn [http.canonical_bytes]. rewrite canonical_byte_idem, IH. reflexivity.
Qed.

Lemma canonical_bytes_token s : forall upper,
  url.all_bytes http.isToken (http.canonical_bytes upper s)
  = url.all_bytes http.isToken s.
Proof.
  induction s as [|c s IH]; intros upper; [reflexivity|].
  cbn [http.canonical_bytes url.all_bytes]. rewrite canonical_byte_token, IH.
  reflexivity.
Qed.

(** Canonical header names are fixed by [CanonicalHeaderKey]. *)
Lemma CanonicalHeaderKey_idem key :
  http.CanonicalHeaderKey (http.CanonicalHeaderKey key) = http.CanonicalHeaderKey key.
Proof.
  unfold http.CanonicalHeaderKey.
  destruct (url.all_bytes http.isToken key) eqn:Htok.
  - rewrite canonical_bytes_token, Htok. apply canonical_bytes_idem.
  - rewrite Htok. reflexivity.
Qed.

Lemma map_get_entry m k v :
  v ∈ map_get m k -> exists vs, (k, vs) ∈ map_entries m /\ v ∈ vs.
Proof.
  destruct m as [g|]; cbn; [|intros H; inversion H].
  destruct (g !! k) as [vs|] eqn:Hk; cbn; [|intros H; inversion H].
  intros Hv. exists vs. split; [|exact Hv]. apply elem_of_map_to_list. exact Hk.
Qed.

Lemma map_entry_get m k vs : (k, vs) ∈ map_entries m -> map_get m k = vs.
Proof.
  destruct m as [g|]; cbn; [|intros H; inversion H].
  intros H. apply elem_of_map_to_list in H. rewrite H. reflexivity.
Qed.

Lemma NewRequest_Header method rawurl body req :
  http.NewRequest method rawurl body = Ok req -> http.Header req = make_map.
Proof.
  unfold http.NewRequest. destruct (negb _); [discriminate|].
  destruct (url.Parse rawurl); [|discriminate]. intros [= <-]. reflexivity.
Qed.

(** The user-agent step of [Submit]. *)
Lemma Submit_user_agent r r1 :
  match request.userAgent r with
  | Some ua => request.AddHeader r "User-Agent" ua
  | None =>
      let ua := client.GetUserAgent (request.client r) in
      if negb (String.eqb ua "") then request.AddHeader r "User-Agent" ua else Done r
  end = Done r1 ->
  same_frame r r1
  /\ request.queries r1 = request.queries r
  /\ forall k, map_get (request.headers r1) k
               = map_get (request.headers r) k
                 ++ (if decide ("User-Agent" = k) then user_agent_of r else []).
Proof.
  assert (Hadd : forall ua, request.AddHeader r "User-Agent" ua = Done r1 ->
            same_frame r r1 /\ request.queries r1 = request.queries r
            /\ forall k, map_get (request.headers r1) k
                 = map_get (request.headers r) k
                   ++ (if decide ("User-Agent" = k) then [ua] else [])).
  { intros ua H. destruct (AddHeader_frame _ _ _ _ H) as [Hf Hq].
    split; [exact Hf|]. split; [exact Hq|]. intros k.
    unfold request.AddHeader in H. go_inv H. injection H as <-.
    apply (map_get_append _ _ _ _ Ha k). }
  unfold user_agent_of. destruct (request.userAgent r) as [ua|]; [apply Hadd|].
  cbn zeta. destruct (String.eqb _ ""); cbn [negb]; [|apply Hadd].
  intros [= <-]. split; [apply same_frame_refl|]. split; [reflexivity|].
  intros k. destruct (decide _); rewrite app_nil_r; reflexivity.
Qed.

(** The headers [Submit] leaves in the composer and puts on the call. *)
Lemma Submit_outgoing_headers r rawurl r' req :
  request.Submit_outgoing r rawurl = Done (r', Ok req) ->
  (forall k, map_get (request.headers r') k
             = map_get (request.headers r) k
               ++ (if decide ("User-Agent" = k) then user_agent_of r else [])
               ++ (if request.skipDefaultHeaders r then []
                   else gathered http.CanonicalHeaderKey
                          (map_entries (client.DefaultHeaders (request.client r))) k))
  /\ (forall k, map_get (http.Header req) k
                = gathered http.CanonicalHeaderKey (map_entries (request.headers r')) k).
Proof.
  unfold request.Submit_outgoing. intros H.
  destruct (http.NewRequest _ _ _) as [req0|e] eqn:Hnew; [|discriminate].
  apply NewRequest_Header in Hnew.
  go_inv H. go_inv H. go_inv H. injection H as <- <-.
  destruct (Submit_user_agent _ _ Ha) as ((Hc & _ & _ & _ & _ & _ & _ & Hs & _) & _ & Hua).
  rewrite Hs, Hc in Ha0. destruct req0; cbn in *. subst. split.
  - intros k. destruct (request.skipDefaultHeaders r); cbn in Ha0.
    + injection Ha0 as <-. rewrite app_nil_r. apply Hua.
    + rewrite (add_each_get _ _ http_Add_appends _ _ _ Ha0 k), Hua.
      rewrite <- app_assoc. reflexivity.
  - intros k. destruct (request.ctx r);
      rewrite (add_each_get _ _ http_Add_appends _ _ _ Ha1 k); reflexivity.
Qed.

Global Arguments add_each : simpl never.

(** With a header map that is not nil and a URL and method that
    [http.NewRequest] takes, [Submit] builds the outgoing call. *)
Lemma Submit_outgoing_total r h rawurl req0 :
  request.headers r = Some h ->
  http.NewRequest (request.method r) rawurl (request.body r) = Ok req0 ->
  exists r' req, request.Submit_outgoing r rawurl = Done (r', Ok req).
Proof.
  intros Hh Hnew. unfold request.Submit_outgoing. rewrite Hnew.
  pose proof (NewRequest_Header _ _ _ _ Hnew) as Hempty.
  set (req1 := match request.ctx r with
               | Some c => http.WithContext req0 c
               | None => req0
               end).
  assert (Hreq1 : http.Header req1 = Some ∅).
  { subst req1. destruct (request.ctx r); exact Hempty. }
  set (step := match request.userAgent r with
               | Some ua => request.AddHeader r "User-Agent" ua
               | None => _
               end).
  assert (Hua : exists r1 h1, step = Done r1 /\ request.headers r1 = Some h1
                              /\ request.skipDefaultHeaders r1 = request.skipDefaultHeaders r
                              /\ request.client r1 = request.client r).
  { subst step. unfold request.AddHeader. rewrite Hh.
    destruct (request.userAgent r); cbn; [eauto 8|].
    destruct (negb _); cbn; eauto 8. }
  destruct Hua as (r1 & h1 & -> & Hh1 & Hs1 & Hc1). cbn. rewrite Hh1, Hreq1.
  destruct (negb (request.skipDefaultHeaders r1)).
  - destruct (add_each_total _ _ http_Add_appends
                (map_entries (client.DefaultHeaders (request.client r1))) h1)
      as (h2 & ->). cbn.
    destruct (add_each_total _ _ http_Add_appends (map_to_list h2) ∅)
      as (h3 & ->). cbn. eauto.
  - cbn.
    destruct (add_each_total _ _ http_Add_appends (map_to_list h1) ∅)
      as (h3 & ->). cbn. eauto.
Qed.

(** Under the skip flag the default headers of the profile play no part
    in what [Submit] builds. *)
Lemma Submit_outgoing_skips_defaults r defaults rawurl :
  request.skipDefaultHeaders r = true ->
  request.Submit_outgoing
    (on_client r (client.WithDefaultHeaders (request.client r) defaults)) rawurl
  = (p ← request.Submit_outgoing r rawurl;
     Done (on_client p.1 (client.WithDefaultHeaders (request.client r) defaults), p.2)).
Proof.
  intros Hskip. destruct r as [c ua cx mr tm hd qs sq bd sh me pa].
  cbn in Hskip. subst sh. unfold request.Submit_outgoing, request.AddHeader. cbn.
  destruct (http.NewRequest me rawurl bd) as [req0|e]; [|reflexivity].
  destruct ua as [ua|]; cbn.
  - destruct (http.Add hd "User-Agent" ua) as [h1|]; [|reflexivity]. cbn.
    destruct (add_each http.Add (map_entries h1) _); reflexivity.
  - destruct (negb _); cbn.
    + destruct (http.Add hd "User-Agent" _) as [h1|]; [|reflexivity]. cbn.
      destruct (add_each http.Add (map_entries h1) _); reflexivity.
    + destruct (add_each http.Add (map_entries hd) _); reflexivity.
Qed.

(** C9: with the skip flag set, every value of every header of the
    outgoing call was supplied by the request itself (a header of the
    composer, or the user agent), and the call is the same whatever
    default headers the profile holds; with the flag unset every value of
    every default header is on the outgoing call under the canonical form
    of its name.  Either way the headers of the request stay.  (On a header
    map that is not nil, and a method and URL [http.NewRequest] takes,
    [Submit] does build the call.) *)
Theorem Submit_default_headers
    (r : request.httpRequest) (h : gmap string (list string)) (rawurl : string)
    (req0 : http.Request) :
  request.headers r = Some h ->
  http.NewRequest (request.method r) rawurl (request.body r) = Ok req0 ->
  exists r' req,
    request.Submit_outgoing r rawurl = Done (r', Ok req)
    /\ (forall key v, v ∈ map_get (request.headers r) key ->
          v ∈ map_get (http.Header req) (http.CanonicalHeaderKey key))
    /\ (request.skipDefaultHeaders r = true ->
        (forall k v, v ∈ map_get (http.Header req) k ->
           (exists key, http.CanonicalHeaderKey key = k
                        /\ v ∈ map_get (request.headers r) key)
           \/ (k = "User-Agent" /\ v ∈ user_agent_of r))
        /\ (forall defaults, exists r'',
              request.Submit_outgoing
                (on_client r (client.WithDefaultHeaders (request.client r) defaults))
                rawurl
              = Done (r'', Ok req)))
    /\ (request.skipDefaultHeaders r = false ->
        forall key v,
          v ∈ map_get (client.DefaultHeaders (request.client r)) key ->
          v ∈ map_get (http.Header req) (http.CanonicalHeaderKey key)).
Proof.
  intros Hh Hnew.
  destruct (Submit_outgoing_total r h rawurl req0 Hh Hnew) as (r' & req & Hout).
  exists r', req. split; [exact Hout|].
  destruct (Submit_outgoing_headers _ _ _ _ Hout) as [Hleft Hcall].
  assert (Hstay : forall key v, v ∈ map_get (request.headers r') key ->
            v ∈ map_get (http.Header req) (http.CanonicalHeaderKey key)).
  { intros key v Hv. rewrite Hcall. apply gathered_elem.
    destruct (map_get_entry _ _ _ Hv) as (vs & Hin & Hvs). eauto. }
  split; [|split].
  - intros key v Hv. apply Hstay. rewrite Hleft. apply elem_of_app. left. exact Hv.
  - intros Hskip. split.
    + intros k v Hv. rewrite Hcall in Hv.
      apply gathered_elem in Hv as (key & vs & Hin & Hk & Hv).
      apply map_entry_get in Hin. rewrite <- Hin, Hleft, Hskip, app_nil_r in Hv.
      apply elem_of_app in Hv as [Hv|Hv]; [left; eauto|].
      destruct (decide ("User-Agent" = key)) as [<-|]; [|inversion Hv].
      right. split; [symmetry; exact Hk | exact Hv].
    + intros defaults. rewrite (Submit_outgoing_skips_defaults _ _ _ Hskip), Hout.
      cbn. eauto.
  - intros Hskip key v Hv. rewrite <- CanonicalHeaderKey_idem. apply Hstay.
    rewrite Hleft, Hskip. apply elem_of_app. right. apply elem_of_app. right.
    apply gathered_elem. destruct (map_get_entry _ _ _ Hv) as (vs & Hin & Hvs). eauto.
Qed.

Lemma Submit_default_headers_witness :
  request.headers (sample_request answers) = Some ∅
  /\ http.NewRequest (request.method (sample_request answers)) sample_url
       (request.body (sample_request answers)) = Ok sample_call
  /\ exists r' req,
      request.Submit_outgoing (sample_request answers) sample_url = Done (r', Ok req)
      /\ (forall key v, v ∈ map_get (request.headers (sample_request answers)) key ->
            v ∈ map_get (http.Header req) (http.CanonicalHeaderKey key))
      /\ (request.skipDefaultHeaders (sample_request answers) = true ->
          (forall k v, v ∈ map_get (http.Header req) k ->
             (exists key, http.CanonicalHeaderKey key = k
                          /\ v ∈ map_get (request.headers (sample_request answers)) key)
             \/ (k = "User-Agent" /\ v ∈ user_agent_of (sample_request answers)))
          /\ (forall defaults, exists r'',
                request.Submit_outgoing
                  (on_client (sample_request answers)
                     (client.WithDefaultHeaders
                        (request.client (sample_request answers)) defaults))
                  sample_url
                = Done (r'', Ok req)))
      /\ (request.skipDefaultHeaders (sample_request answers) = false ->
          forall key v,
            v ∈ map_get (client.DefaultHeaders (request.client (sample_request answers))) key ->
            v ∈ map_get (http.Header req) (http.CanonicalHeaderKey key)).
Proof.
  assert (H1 : request.headers (sample_request answers) = Some ∅) by reflexivity.
  assert (H2 : http.NewRequest (request.method (sample_request answers)) sample_url
                 (request.body (sample_request answers)) = Ok sample_call)
    by (vm_compute; reflexivity).
  split; [exact H1|]. split; [exact H2|].
  exact (Submit_default_headers (sample_request answers) ∅ sample_url sample_call H1 H2).
Defined.

(** The end-to-end example of the specification, and the same request
    with the default headers skipped. *)
Example sample_call_headers :
  (fun run => match run with
              | Done (_, inl req) => map_to_list <$> http.Header req
              | _ => None
              end) (Submit_prepare (sample_request answers))
  = Some [("User-Agent", ["sample-agent"]); ("X-Key", ["secret"])]
  /\ (fun run => match run with
                 | Done (_, inl req) => map_to_list <$> http.Header req
                 | _ => None
                 end) (Submit_prepare (request.SkipDefaultHeaders (sample_request answers)))
     = Some [("User-Agent", ["sample-agent"])].
Proof. vm_compute. split; reflexivity. Qed.

(** ** The composer across submissions *)

Lemma Submit_resolve_error r r' err :
  request.Submit_resolve r = Done (r', Err err) -> r' = r.
Proof.
  unfold request.Submit_resolve. intros H. go_inv H.
  destruct a as [[[h q] p]|e].
  - go_inv H. discriminate.
  - injection H as <- _. reflexivity.
Qed.

Lemma Submit_outgoing_error r rawurl r' err :
  request.Submit_outgoing r rawurl = Done (r', Err err) -> r' = r.
Proof.
  unfold request.Submit_outgoing. intros H.
  destruct (http.NewRequest _ _ _); [|injection H as <- _; reflexivity].
  go_inv H. go_inv H. go_inv H. discriminate.
Qed.

Lemma Submit_resolve_queries_grow r r' t :
  request.Submit_resolve r = Done (r', t) ->
  forall k, map_get (request.queries r) k `prefix_of` map_get (request.queries r') k.
Proof.
  intros H k. destruct t as [t|err].
  - destruct (String.eqb_spec (request.path r) "") as [Hp|Hp].
    + destruct (Submit_resolve_without_path _ _ _ Hp H) as (_ & _ & _ & _ & ->).
      apply prefix_app_r. reflexivity.
    + destruct (url.Parse (strings.TrimPrefix (request.path r) "/")) as [u|e] eqn:Hu.
      * destruct (Submit_resolve_with_path _ _ _ _ Hp Hu H) as (_ & _ & _ & _ & ->).
        apply prefix_app_r. reflexivity.
      * unfold request.Submit_resolve, request.Submit_path in H.
        rewrite (proj2 (String.eqb_neq _ _) Hp), Hu in H. discriminate.
  - apply Submit_resolve_error in H as ->. reflexivity.
Qed.

Lemma Submit_outgoing_headers_grow r rawurl r' req :
  request.Submit_outgoing r rawurl = Done (r', req) ->
  forall k, map_get (request.headers r) k `prefix_of` map_get (request.headers r') k.
Proof.
  intros H k. destruct req as [req|err].
  - destruct (Submit_outgoing_headers _ _ _ _ H) as [-> _].
    apply prefix_app_r. reflexivity.
  - apply Submit_outgoing_error in H as ->. reflexivity.
Qed.

Lemma Submit_inv r r' res :
  request.Submit r = Done (r', res) ->
  (exists err, request.Submit_resolve r = Done (r', Err err))
  \/ exists r1 t req,
       request.Submit_resolve r = Done (r1, Ok t)
       /\ request.Submit_outgoing r1 (request.target_url t) = Done (r', req).
Proof.
  unfold request.Submit, request.Submit_trace. intros H. go_inv H.
  destruct a as [[r2 res2] hops]. injection H as <- <-. go_inv Ha.
  destruct a as [r1 [t|err]].
  - right. go_inv Ha. destruct a as [r3 [req|err]].
    + destruct (request.Submit_send r3 req). injection Ha as <- _ _. eauto.
    + injection Ha as <- _ _. eauto.
  - left. injection Ha as <- _ _. eauto.
Qed.

(** C10, as stated, fails on the two maps: [Submit] adds the query of
    the path, the default query, the user agent and the default header to
    the maps of the composer, and a second [Submit] of the same composer
    adds them once more and calls another URL. *)
Lemma Submit_twice_accumulates :
  request.Submit (sample_request answers) = Done (sample_after, sample_result)
  /\ (map_to_list <$> request.queries (sample_request answers)) = Some []
  /\ (map_to_list <$> request.queries sample_after)
     = Some [("active", ["true"]); ("a", ["2"])]
  /\ (map_to_list <$> request.headers (sample_request answers)) = Some []
  /\ (map_to_list <$> request.headers sample_after)
     = Some [("User-Agent", ["sample-agent"]); ("X-Key", ["secret"])]
  /\ (request.target_url <$> resolved_of (sample_request answers))
     = Some "https://api.example.com/v1/users?a=2&active=true"
  /\ (request.target_url <$> resolved_of sample_after)
     = Some "https://api.example.com/v1/users?a=2&a=2&active=true&active=true"
  /\ (map_to_list <$> request.headers (after_Submit sample_after))
     = Some [("User-Agent", ["sample-agent"; "sample-agent"]);
             ("X-Key", ["secret"; "secret"])].
Proof. vm_compute. repeat split. Qed.

(** *** The maps as shared objects *)

Lemma appends_to_refl targets σ : appends_to targets σ σ.
Proof. repeat split; auto. Qed.

Lemma appends_to_trans targets σ1 σ2 σ3 :
  appends_to targets σ1 σ2 -> appends_to targets σ2 σ3 -> appends_to targets σ1 σ3.
Proof.
  intros (Hf1 & Hd1 & Hp1) (Hf2 & Hd2 & Hp2). repeat split.
  - intros a Ha. rewrite (Hf2 a Ha). apply Hf1, Ha.
  - intros H. apply Hd1, Hd2, H.
  - intros H. apply Hd2, Hd1, H.
  - intros p k. etrans; [apply Hp1 | apply Hp2].
Qed.

Lemma appends_to_more targets targets' σ σ' :
  targets ⊆ targets' -> appends_to targets σ σ' -> appends_to targets' σ σ'.
Proof.
  intros Hsub (Hf & Hd & Hp). repeat split; try apply Hd; [|apply Hp].
  intros a Ha. apply Hf. intros Hin. apply Ha, Hsub, Hin.
Qed.

Lemma append_at_inv σ p key value σ' :
  shared.append_at σ p key value = Done σ' ->
  exists a g, p = Some a /\ σ !! a = Some g
              /\ σ' = <[a := <[key := default [] (g !! key) ++ [value]]> g]> σ.
Proof.
  unfold shared.append_at. destruct p as [a|]; [|discriminate].
  destruct (σ !! a) as [g|] eqn:Hg; [|discriminate]. intros [= <-]. eauto.
Qed.

Lemma append_at_get σ p key value σ' :
  shared.append_at σ p key value = Done σ' ->
  forall k, map_get (shared.deref σ' p) k
            = map_get (shared.deref σ p) k ++ (if decide (key = k) then [value] else []).
Proof.
  intros H k. apply append_at_inv in H as (a & g & -> & Hg & ->).
  unfold shared.deref, map_get.
  rewrite lookup_insert_eq, Hg. destruct (decide (key = k)) as [->|Hne].
  - rewrite lookup_insert_eq. reflexivity.
  - rewrite lookup_insert_ne by exact Hne. rewrite app_nil_r. reflexivity.
Qed.

Lemma append_at_appends σ p key value σ' :
  shared.append_at σ p key value = Done σ' -> appends_to [p] σ σ'.
Proof.
  intros H. pose proof (append_at_get _ _ _ _ _ H) as Hget.
  apply append_at_inv in H as (a & g & -> & Hg & ->). repeat split.
  - intros b Hb. apply lookup_insert_ne. intros ->. apply Hb. left.
  - destruct (decide (a = a0)) as [<-|Hne];
      [rewrite Hg; eauto | rewrite lookup_insert_ne by exact Hne; auto].
  - destruct (decide (a = a0)) as [<-|Hne];
      [rewrite lookup_insert_eq; eauto | rewrite lookup_insert_ne by exact Hne; auto].
  - intros p k. destruct p as [b|]; [|reflexivity].
    destruct (decide (a = b)) as [<-|Hne].
    + rewrite Hget. apply prefix_app_r. reflexivity.
    + cbn. rewrite lookup_insert_ne by exact Hne. reflexivity.
Qed.

Lemma go_range_invariant {A St} (R : St -> St -> Prop) (xs : list A)
    (body : A -> St -> go St) :
  (forall s, R s s) -> (forall s1 s2 s3, R s1 s2 -> R s2 s3 -> R s1 s3) ->
  (forall x s s', body x s = Done s' -> R s s') ->
  forall s s', go_range xs body s = Done s' -> R s s'.
Proof.
  intros Hrefl Htrans Hbody. induction xs as [|x xs IH]; intros s s' H.
  - injection H as <-. apply Hrefl.
  - cbn in H. go_inv H. eapply Htrans; [eapply Hbody, Ha | apply IH, H].
Qed.

Lemma range_add_appends canon src order dst σ σ' :
  shared.range_add canon src order dst σ = Done σ' -> appends_to [dst] σ σ'.
Proof.
  unfold shared.range_add.
  apply (go_range_invariant (appends_to [dst]));
    [apply appends_to_refl | apply appends_to_trans|].
  intros k s s'.
  apply (go_range_invariant (appends_to [dst]));
    [apply appends_to_refl | apply appends_to_trans|].
  intros each s1 s2. apply append_at_appends.
Qed.

Lemma Submit_path_appends o σ r host σ' res :
  shared.request.Submit_path o σ r host = Done (σ', res) ->
  appends_to [shared.request.queries r] σ σ'.
Proof.
  unfold shared.request.Submit_path.
  destruct (String.eqb _ _); [intros [= <- _]; apply appends_to_refl|].
  destruct (url.Parse _) as [u|e]; [|intros [= <- _]; apply appends_to_refl].
  intros H. go_inv H. injection H as <- _. exact (range_add_appends _ _ _ _ _ _ Ha).
Qed.

Lemma Submit_queries_appends o σ r σ' :
  shared.request.Submit_queries o σ r = Done σ' ->
  appends_to [shared.request.queries r] σ σ'.
Proof.
  unfold shared.request.Submit_queries.
  destruct (negb _); [apply range_add_appends | intros [= <-]; apply appends_to_refl].
Qed.

Lemma Submit_resolve_appends o σ r σ' t :
  shared.request.Submit_resolve o σ r = Done (σ', t) ->
  appends_to [shared.request.queries r] σ σ'.
Proof.
  unfold shared.request.Submit_resolve. intros H. go_inv H.
  destruct a as [σ1 [[host path]|err]].
  - go_inv H. injection H as <- _.
    exact (appends_to_trans _ _ _ _ (Submit_path_appends _ _ _ _ _ _ Ha)
             (Submit_queries_appends _ _ _ _ Ha0)).
  - injection H as <- _. exact (Submit_path_appends _ _ _ _ _ _ Ha).
Qed.

Lemma Submit_userAgent_appends σ r σ' :
  match shared.request.userAgent r with
  | Some ua => shared.request.AddHeader σ r "User-Agent" ua
  | None =>
      let ua := shared.client.GetUserAgent (shared.request.client r) in
      if negb (String.eqb ua "") then shared.request.AddHeader σ r "User-Agent" ua
      else Done σ
  end = Done σ' ->
  appends_to [shared.request.headers r] σ σ'
  /\ forall k, map_get (shared.deref σ' (shared.request.headers r)) k
               = map_get (shared.deref σ (shared.request.headers r)) k
                 ++ (if decide ("User-Agent" = k) then user_agent_added r else []).
Proof.
  unfold user_agent_added, shared.request.AddHeader.
  change (http.CanonicalHeaderKey "User-Agent") with "User-Agent".
  destruct (shared.request.userAgent r) as [ua|]; cbv zeta.
  - intros H. split; [exact (append_at_appends _ _ _ _ _ H)|].
    exact (append_at_get _ _ _ _ _ H).
  - destruct (String.eqb _ ""); cbn [negb].
    + intros [= <-]. split; [apply appends_to_refl|]. intros k.
      destruct (decide _); rewrite app_nil_r; reflexivity.
    + intros H. split; [exact (append_at_appends _ _ _ _ _ H)|].
      exact (append_at_get _ _ _ _ _ H).
Qed.

Lemma Submit_headers_appends o σ r σ' :
  shared.request.Submit_headers o σ r = Done σ' ->
  appends_to [shared.request.headers r] σ σ'.
Proof.
  unfold shared.request.Submit_headers. intros H. go_inv H.
  apply Submit_userAgent_appends in Ha as [Ha _].
  eapply appends_to_trans; [exact Ha|].
  destruct (negb _); [exact (range_add_appends _ _ _ _ _ _ H)|].
  injection H as <-. apply appends_to_refl.
Qed.

(** A run of [Submit], taken apart. *)
Lemma shared_Submit_inv o σ r σ' res hops :
  shared.request.Submit o σ r = Done (σ', res, hops) ->
  (exists err, shared.request.Submit_resolve o σ r = Done (σ', Err err)
               /\ res = Err err /\ hops = O)
  \/ exists σ1 rawurl,
       shared.request.Submit_resolve o σ r = Done (σ1, Ok rawurl)
       /\ ((exists err,
              http.NewRequest (shared.request.method r) rawurl (shared.request.body r)
              = Err err
              /\ σ' = σ1 /\ res = Err err /\ hops = O)
           \/ exists req0 req,
                http.NewRequest (shared.request.method r) rawurl (shared.request.body r)
                = Ok req0
                /\ shared.request.Submit_headers o σ1 r = Done σ'
                /\ (res, hops) = shared.request.Submit_send r req).
Proof.
  unfold shared.request.Submit. intros H. go_inv H.
  destruct a as [σ1 [rawurl|err]].
  - right. exists σ1, rawurl. split; [exact Ha|].
    destruct (http.NewRequest _ _ _) as [req0|err].
    + right. go_inv H. go_inv H.
      destruct (shared.request.Submit_send r _) as [res1 hops1] eqn:Hsend.
      injection H as <- <- <-. exists req0. eexists. split; [reflexivity|].
      split; [exact Ha0|]. symmetry. exact Hsend.
    + left. injection H as <- <- <-. eauto.
  - left. injection H as <- <- <-. eauto.
Qed.

Lemma appends_to_first p q σ σ' : appends_to [p] σ σ' -> appends_to [p; q] σ σ'.
Proof. apply appends_to_more. intros x Hx. apply list_elem_of_singleton in Hx as ->. left. Qed.

Lemma appends_to_second p q σ σ' : appends_to [q] σ σ' -> appends_to [p; q] σ σ'.
Proof.
  apply appends_to_more. intros x Hx. apply list_elem_of_singleton in Hx as ->.
  right. left.
Qed.

Lemma Submit_appends o σ r σ' res hops :
  shared.request.Submit o σ r = Done (σ', res, hops) ->
  appends_to [shared.request.queries r; shared.request.headers r] σ σ'.
Proof.
  intros H.
  apply shared_Submit_inv in H
    as [(err & Hres & _)|(σ1 & rawurl & Hres & [(err & _ & -> & _)|(req0 & req & _ & Hh & _)])].
  - exact (appends_to_first _ _ _ _ (Submit_resolve_appends _ _ _ _ _ Hres)).
  - exact (appends_to_first _ _ _ _ (Submit_resolve_appends _ _ _ _ _ Hres)).
  - eapply appends_to_trans.
    + exact (appends_to_first _ _ _ _ (Submit_resolve_appends _ _ _ _ _ Hres)).
    + exact (appends_to_second _ _ _ _ (Submit_headers_appends _ _ _ _ Hh)).
Qed.

(** *** What the merges add *)

Ltac go_inv_as H a Ha := apply go_bind_inv in H; destruct H as (a & Ha & H).

Lemma go_range_append_at_get key vs dst : forall σ σ',
  go_range vs (fun each σ => shared.append_at σ dst key each) σ = Done σ' ->
  forall k, map_get (shared.deref σ' dst) k
            = map_get (shared.deref σ dst) k ++ (if decide (key = k) then vs else []).
Proof.
  induction vs as [|v vs IH]; intros σ σ' H k.
  - injection H as <-. destruct (decide _); rewrite app_nil_r; reflexivity.
  - cbn in H. go_inv H. rewrite (IH _ _ H k), (append_at_get _ _ _ _ _ Ha k).
    rewrite <- app_assoc. destruct (decide _); reflexivity.
Qed.

Lemma range_add_get canon src m dst : forall order σ σ',
  shared.range_add canon src order dst σ = Done σ' ->
  (forall σ1, appends_to [dst] σ σ1 -> src σ1 = m) ->
  forall k, map_get (shared.deref σ' dst) k
            = map_get (shared.deref σ dst) k
              ++ gathered canon (shared.visited m order) k.
Proof.
  induction order as [|key order IH]; intros σ σ' H Hsrc k.
  - injection H as <-. cbn. rewrite app_nil_r. reflexivity.
  - unfold shared.range_add in H. cbn [go_range] in H. go_inv H.
    rewrite (Hsrc σ (appends_to_refl _ _)) in Ha.
    assert (Hstep : appends_to [dst] σ a).
    { revert Ha. apply (go_range_invariant (appends_to [dst]));
        [apply appends_to_refl | apply appends_to_trans|].
      intros each s1 s2. apply append_at_appends. }
    rewrite (IH a σ' H); [|intros σ1 H1; apply Hsrc; eapply appends_to_trans; eassumption].
    rewrite (go_range_append_at_get _ _ _ _ _ Ha k).
    unfold shared.visited. cbn [fmap list_fmap]. rewrite gathered_cons, <- app_assoc.
    reflexivity.
Qed.

Lemma gathered_visited_NoDup m order k :
  NoDup order ->
  gathered id (shared.visited m order) k
  = if decide (k ∈ order) then map_get m k else [].
Proof.
  induction order as [|key order IH]; intros Hnd.
  - cbn. rewrite decide_False by (apply not_elem_of_nil). reflexivity.
  - apply NoDup_cons in Hnd as [Hnotin Hnd]. unfold shared.visited in *.
    cbn [fmap list_fmap]. rewrite gathered_cons, (IH Hnd). unfold id.
    destruct (decide (key = k)) as [->|Hne].
    + rewrite (decide_False (P := k ∈ order)) by exact Hnotin.
      rewrite decide_True by left. apply app_nil_r.
    + destruct (decide (k ∈ order)) as [Hin|Hout].
      * rewrite decide_True by (right; exact Hin). reflexivity.
      * rewrite decide_False; [reflexivity|].
        intros Hc. apply elem_of_cons in Hc as [->|Hc]; [apply Hne; reflexivity | exact (Hout Hc)].
Qed.

Lemma map_get_absent m k : map_has m k = false -> map_get m k = [].
Proof.
  destruct m as [g|]; [|reflexivity]. cbn. intros H.
  apply bool_decide_eq_false in H. destruct (g !! k); [|reflexivity].
  exfalso. apply H. eauto.
Qed.

Lemma gathered_visited m order k :
  shared.range_order m order -> gathered id (shared.visited m order) k = map_get m k.
Proof.
  intros [Hnd Hall]. rewrite (gathered_visited_NoDup _ _ _ Hnd).
  destruct (decide (k ∈ order)) as [Hin|Hout]; [reflexivity|].
  symmetry. apply map_get_absent. destruct (map_has m k) eqn:Hhas; [|reflexivity].
  exfalso. apply Hout, Hall, Hhas.
Qed.

(** An object that is not written reads as before. *)
Lemma appends_to_other p dst σ σ' :
  p <> dst -> appends_to [dst] σ σ' -> shared.deref σ' p = shared.deref σ p.
Proof.
  intros Hne (Hf & _). destruct p as [a|]; [|reflexivity]. cbn. apply Hf.
  intros Hin. apply list_elem_of_singleton in Hin. apply Hne. exact Hin.
Qed.

Lemma Submit_resolve_queries o σ r σ1 rawurl u q :
  shared.request.Submit_resolve o σ r = Done (σ1, Ok rawurl) ->
  shared.request.queries r = Some q ->
  shared.client.DefaultQueries (shared.request.client r) <> Some q ->
  shared.request.path r <> "" ->
  url.Parse (strings.TrimPrefix (shared.request.path r) "/") = Ok u ->
  shared.range_order (url.Query u) (shared.of_path o) ->
  shared.range_order
    (shared.deref σ (shared.client.DefaultQueries (shared.request.client r)))
    (shared.of_queries o) ->
  forall k, map_get (shared.deref σ1 (Some q)) k
            = map_get (shared.deref σ (Some q)) k ++ map_get (url.Query u) k
              ++ (if shared.request.skipDefaultQueries r then []
                  else map_get (shared.deref σ (shared.client.DefaultQueries
                                                    (shared.request.client r))) k).
Proof.
  intros H Hq Hdq Hpath Hu Ho1 Ho2 k.
  unfold shared.request.Submit_resolve, shared.request.Submit_path in H.
  rewrite (proj2 (String.eqb_neq _ _) Hpath), Hu, Hq in H.
  go_inv_as H step Hstep. go_inv_as Hstep σa Hpathq. injection Hstep as <-.
  go_inv_as H σb Hdefaults. injection H as <- _.
  pose proof (range_add_appends _ _ _ _ _ _ Hpathq) as Happ.
  pose proof (range_add_get _ _ (url.Query u) _ _ _ _ Hpathq (fun _ _ => eq_refl) k) as H1.
  rewrite (gathered_visited _ _ _ Ho1) in H1.
  unfold shared.request.Submit_queries in Hdefaults. rewrite Hq in Hdefaults.
  destruct (shared.request.skipDefaultQueries r); cbn [negb] in Hdefaults.
  - injection Hdefaults as <-. rewrite H1, app_nil_r. reflexivity.
  - pose proof (appends_to_other _ _ _ _ Hdq Happ) as Hsame.
    rewrite (range_add_get _ _
               (shared.deref σ (shared.client.DefaultQueries (shared.request.client r)))
               _ _ _ _ Hdefaults).
    + rewrite (gathered_visited _ _ _ Ho2), H1, <- app_assoc. reflexivity.
    + intros σ2 H2. rewrite (appends_to_other _ _ _ _ Hdq H2). exact Hsame.
Qed.

Lemma Submit_headers_get o σ r σ' h :
  shared.request.Submit_headers o σ r = Done σ' ->
  shared.request.headers r = Some h ->
  shared.client.DefaultHeaders (shared.request.client r) <> Some h ->
  forall k, map_get (shared.deref σ' (Some h)) k
            = map_get (shared.deref σ (Some h)) k
              ++ (if decide ("User-Agent" = k) then user_agent_added r else [])
              ++ (if shared.request.skipDefaultHeaders r then []
                  else gathered http.CanonicalHeaderKey
                         (shared.visited
                            (shared.deref σ (shared.client.DefaultHeaders
                                               (shared.request.client r)))
                            (shared.of_headers o)) k).
Proof.
  intros H Hh Hdh k. unfold shared.request.Submit_headers in H. go_inv_as H σa Ha.
  apply Submit_userAgent_appends in Ha as [Happ Hua]. rewrite Hh in *.
  destruct (shared.request.skipDefaultHeaders r); cbn [negb] in H.
  - injection H as <-. rewrite Hua, app_nil_r. reflexivity.
  - pose proof (appends_to_other _ _ _ _ Hdh Happ) as Hsame.
    rewrite (range_add_get _ _
               (shared.deref σ (shared.client.DefaultHeaders (shared.request.client r)))
               _ _ _ _ H).
    + rewrite Hua, <- app_assoc. reflexivity.
    + intros σ2 H2. rewrite (appends_to_other _ _ _ _ Hdh H2). exact Hsame.
Qed.

(** *** [Submit] returns *)

Lemma append_at_total σ a key value :
  is_Some (σ !! a) -> exists σ', shared.append_at σ (Some a) key value = Done σ'.
Proof. intros [g Hg]. unfold shared.append_at. rewrite Hg. eauto. Qed.

Lemma go_range_append_at_total a key vs : forall σ,
  is_Some (σ !! a) ->
  exists σ', go_range vs (fun each σ => shared.append_at σ (Some a) key each) σ = Done σ'.
Proof.
  induction vs as [|v vs IH]; intros σ Hσ; [eexists; reflexivity|].
  cbn [go_range]. destruct (append_at_total σ a key v Hσ) as [σ1 H1]. rewrite H1.
  cbn [mbind go_bind]. apply IH. apply (append_at_appends _ _ _ _ _ H1). exact Hσ.
Qed.

Lemma range_add_total canon src a : forall order σ,
  is_Some (σ !! a) -> exists σ', shared.range_add canon src order (Some a) σ = Done σ'.
Proof.
  induction order as [|k order IH]; intros σ Hσ; [eexists; reflexivity|].
  unfold shared.range_add. cbn [go_range].
  destruct (go_range_append_at_total a (canon k) (map_get (src σ) k) σ Hσ) as [σ1 H1].
  rewrite H1. cbn. apply IH.
  assert (Happ : appends_to [Some a] σ σ1).
  { revert H1. apply (go_range_invariant (appends_to [Some a]));
      [apply appends_to_refl | apply appends_to_trans|].
    intros each s1 s2. apply append_at_appends. }
  apply Happ. exact Hσ.
Qed.

Lemma Submit_queries_total o σ r q :
  shared.request.queries r = Some q -> is_Some (σ !! q) ->
  exists σ', shared.request.Submit_queries o σ r = Done σ'.
Proof.
  intros Hq Hσ. unfold shared.request.Submit_queries.
  destruct (negb _); [|eauto]. rewrite Hq. apply range_add_total, Hσ.
Qed.

Lemma Submit_resolve_total_shared o σ r q :
  shared.request.queries r = Some q -> is_Some (σ !! q) ->
  exists σ1 t, shared.request.Submit_resolve o σ r = Done (σ1, t).
Proof.
  intros Hq Hσ. unfold shared.request.Submit_resolve, shared.request.Submit_path.
  destruct (String.eqb _ _).
  - destruct (Submit_queries_total o σ r q Hq Hσ) as [σ1 H1].
    cbn [mbind go_bind]. rewrite H1. cbn [mbind go_bind]. eexists _, _. reflexivity.
  - destruct (url.Parse _) as [u|e]; [|eexists _, _; reflexivity]. rewrite Hq.
    destruct (range_add_total id (fun _ => url.Query u) q (shared.of_path o) σ Hσ)
      as [σ1 H1].
    rewrite H1. cbn [mbind go_bind].
    destruct (Submit_queries_total o σ1 r q Hq) as [σ2 H2].
    { apply (range_add_appends _ _ _ _ _ _ H1). exact Hσ. }
    rewrite H2. cbn [mbind go_bind]. eexists _, _. reflexivity.
Qed.

Lemma Submit_headers_total o σ r h :
  shared.request.headers r = Some h -> is_Some (σ !! h) ->
  exists σ', shared.request.Submit_headers o σ r = Done σ'.
Proof.
  intros Hh Hσ.
  assert (Hdefaults : forall σ1, is_Some (σ1 !! h) ->
    exists σ', (if negb (shared.request.skipDefaultHeaders r)
                then shared.range_add http.CanonicalHeaderKey
                       (fun σ => shared.deref σ
                                   (shared.client.DefaultHeaders (shared.request.client r)))
                       (shared.of_headers o) (Some h) σ1
                else Done σ1) = Done σ').
  { intros σ1 Hσ1. destruct (negb _); [apply range_add_total, Hσ1 | eauto]. }
  assert (Hadd : forall ua, exists σ1,
    shared.request.AddHeader σ r "User-Agent" ua = Done σ1 /\ is_Some (σ1 !! h)).
  { intros ua. unfold shared.request.AddHeader. rewrite Hh.
    destruct (append_at_total σ h (http.CanonicalHeaderKey "User-Agent") ua Hσ)
      as [σ1 H1].
    exists σ1. split; [exact H1|]. apply (append_at_appends _ _ _ _ _ H1), Hσ. }
  unfold shared.request.Submit_headers. rewrite Hh.
  destruct (shared.request.userAgent r) as [ua|]; cbv zeta.
  - destruct (Hadd ua) as (σ1 & -> & Hσ1). cbn [mbind go_bind]. apply Hdefaults, Hσ1.
  - destruct (negb (String.eqb _ "")).
    + destruct (Hadd (shared.client.GetUserAgent (shared.request.client r)))
        as (σ1 & -> & Hσ1).
      cbn [mbind go_bind]. apply Hdefaults, Hσ1.
    + cbn [mbind go_bind]. apply Hdefaults, Hσ.
Qed.

Lemma Submit_total_shared o σ r q h :
  shared.request.queries r = Some q -> shared.request.headers r = Some h ->
  is_Some (σ !! q) -> is_Some (σ !! h) ->
  exists out, shared.request.Submit o σ r = Done out.
Proof.
  intros Hq Hh Hσq Hσh.
  destruct (Submit_resolve_total_shared o σ r q Hq Hσq) as (σ1 & t & Hres).
  unfold shared.request.Submit. rewrite Hres. cbn [mbind go_bind].
  destruct t as [rawurl|err]; [|eauto].
  destruct (http.NewRequest _ _ _) as [req0|err] eqn:Hnew; [|eauto].
  destruct (Submit_headers_total o σ1 r h Hh) as [σ2 ->].
  { apply (Submit_resolve_appends _ _ _ _ _ Hres), Hσh. }
  cbn [mbind go_bind].
  assert (Hheader : http.Header match shared.request.ctx r with
                                | Some c => http.WithContext req0 c
                                | None => req0
                                end = Some ∅).
  { destruct (shared.request.ctx r); exact (NewRequest_Header _ _ _ _ Hnew). }
  rewrite Hheader.
  destruct (add_each_total http.Add http.CanonicalHeaderKey http_Add_appends
              (shared.visited (shared.deref σ2 (shared.request.headers r))
                 (shared.of_call o)) ∅)
    as [g ->].
  cbn [mbind go_bind]. destruct (shared.request.Submit_send r _). eauto.
Qed.

(** *** The counter of the closure *)

Lemma follow_hops_bound op x : forall (budget : Z) (hops : nat),
  (Z.of_nat (http.follow request.CheckRedirect op x budget hops).2
   <= Z.of_nat hops + Z.max 0 budget)%Z.
Proof.
  induction x as [resp loc next IH|resp|err]; intros budget hops; cbn [http.follow];
    [|cbn; lia..].
  destruct (Z.leb_spec budget 0) as [Hle|Hgt].
  - rewrite (CheckRedirect_spent _ Hle). cbn. lia.
  - rewrite (CheckRedirect_left _ Hgt). specialize (IH (budget - 1)%Z (S hops)). lia.
Qed.

Lemma Submit_send_hops r req :
  (Z.of_nat (shared.request.Submit_send r req).2
   <= Z.max 0 (shared.request.Submit_maxRedirects r))%Z.
Proof.
  unfold shared.request.Submit_send, http.Do, shared.CheckRedirect.
  pose proof (follow_hops_bound (http.urlErrorOp (http.Method req))
                (shared.client.GetTransport (shared.request.client r) req)
                (shared.request.Submit_maxRedirects r) 0) as H.
  destruct (http.follow _ _ _ _ _) as [[resp|err] hops]; cbn in *; lia.
Qed.

Lemma Submit_resolve_failed o σ r σ' err :
  shared.request.Submit_resolve o σ r = Done (σ', Err err) ->
  σ' = σ
  /\ shared.request.path r <> ""
  /\ url.Parse (strings.TrimPrefix (shared.request.path r) "/") = Err err.
Proof.
  unfold shared.request.Submit_resolve, shared.request.Submit_path. intros H.
  destruct (String.eqb_spec (shared.request.path r) "") as [Hempty|Hfull].
  - cbn [mbind go_bind] in H. go_inv_as H σ1 H1. discriminate.
  - destruct (url.Parse _) as [u|e].
    + go_inv_as H step Hstep. go_inv_as Hstep σ1 H1. injection Hstep as <-.
      go_inv_as H σ2 H2. discriminate.
    + cbn [mbind go_bind] in H. injection H as <- <-. auto.
Qed.

(** C10, amended: [Submit] assigns no field of the composer or of the
    profile, but it writes into the map objects the composer's header and
    query fields refer to, and into no other: in every object the values
    held before stay in front, per key, and no object comes or goes.  When
    the two maps of the composer and the default maps of the profile are
    distinct objects, the query map has gained, per key, the queries of
    the path and then (unless skipped) the default queries, and the header
    map the user agent and then (unless skipped) the values of the default
    headers under their canonical names, in the order the range took; so
    a second [Submit] of the same composer starts from the accumulated
    maps, and a composer that holds a default map of its profile makes the
    profile grow with it.  The redirect counter is a local of the run: it
    starts from the override or the default of the profile, and no more
    hops are followed than it allows.  (On maps that are not nil [Submit]
    does return.) *)
Theorem Submit_appends_to_composer_maps
    (o : shared.orders) (σ : shared.store) (r : shared.request.httpRequest) :
  (forall q h,
      shared.request.queries r = Some q -> shared.request.headers r = Some h ->
      is_Some (σ !! q) -> is_Some (σ !! h) ->
      exists out, shared.request.Submit o σ r = Done out)
  /\ forall σ' res hops,
       shared.request.Submit o σ r = Done (σ', res, hops) ->
       appends_to [shared.request.queries r; shared.request.headers r] σ σ'
       /\ (Z.of_nat hops <= Z.max 0 (shared.request.Submit_maxRedirects r))%Z
       /\ ((exists err, res = Err err /\ hops = O)
           \/ exists req, (res, hops) = shared.request.Submit_send r req)
       /\ (forall q h u,
             unshared r q h ->
             shared.request.path r <> "" ->
             url.Parse (strings.TrimPrefix (shared.request.path r) "/") = Ok u ->
             shared.range_order (url.Query u) (shared.of_path o) ->
             shared.range_order
               (shared.deref σ (shared.client.DefaultQueries (shared.request.client r)))
               (shared.of_queries o) ->
             forall k,
               map_get (shared.deref σ' (Some q)) k
               = map_get (shared.deref σ (Some q)) k ++ map_get (url.Query u) k
                 ++ (if shared.request.skipDefaultQueries r then []
                     else map_get (shared.deref σ (shared.client.DefaultQueries
                                                       (shared.request.client r))) k))
       /\ (forall q h σ1 rawurl req0,
             unshared r q h ->
             shared.request.Submit_resolve o σ r = Done (σ1, Ok rawurl) ->
             http.NewRequest (shared.request.method r) rawurl (shared.request.body r)
             = Ok req0 ->
             forall k,
               map_get (shared.deref σ' (Some h)) k
               = map_get (shared.deref σ (Some h)) k
                 ++ (if decide ("User-Agent" = k) then user_agent_added r else [])
                 ++ (if shared.request.skipDefaultHeaders r then []
                     else gathered http.CanonicalHeaderKey
                            (shared.visited
                               (shared.deref σ (shared.client.DefaultHeaders
                                                  (shared.request.client r)))
                               (shared.of_headers o)) k)).
Proof.
  split; [intros q h; apply Submit_total_shared|].
  intros σ' res hops Hrun.
  split; [exact (Submit_appends _ _ _ _ _ _ Hrun)|].
  pose proof (shared_Submit_inv _ _ _ _ _ _ Hrun) as Hinv.
  split; [|split; [|split]].
  - destruct Hinv as [(err & _ & _ & ->)
                     |(σ1 & rawurl & _ & [(err & _ & _ & _ & ->)|(req0 & req & _ & _ & Hsend)])];
      [lia | lia |].
    pose proof (Submit_send_hops r req) as Hb. rewrite <- Hsend in Hb. exact Hb.
  - destruct Hinv as [(err & _ & -> & ->)
                     |(σ1 & rawurl & _ & [(err & _ & _ & -> & ->)|(req0 & req & _ & _ & Hsend)])];
      eauto.
  - intros q h u (Hq & Hh & Hqh & Hdq & _ & _) Hpath Hu Ho1 Ho2 k.
    destruct Hinv as [(err & Hres & _)|(σ1 & rawurl & Hres & Hrest)].
    + apply Submit_resolve_failed in Hres as (_ & _ & Herr). congruence.
    + pose proof (Submit_resolve_queries _ _ _ _ _ _ _ Hres Hq Hdq Hpath Hu Ho1 Ho2 k)
        as Heq.
      destruct Hrest as [(err & _ & -> & _)|(req0 & req & _ & Hheaders & _)];
        [exact Heq|].
      apply Submit_headers_appends in Hheaders. rewrite Hh in Hheaders.
      rewrite (appends_to_other (Some q) (Some h) σ1 σ'); [exact Heq | congruence|].
      exact Hheaders.
  - intros q h σ1 rawurl req0 (Hq & Hh & Hqh & _ & Hdhq & Hdhh) Hres Hnew k.
    destruct Hinv as [(err & Hres' & _)|(σ1' & rawurl' & Hres' & Hrest)];
      [congruence|].
    rewrite Hres in Hres'. injection Hres' as <- <-.
    destruct Hrest as [(err & Hnew' & _)|(req0' & req & _ & Hheaders & _)];
      [congruence|].
    pose proof (Submit_resolve_appends _ _ _ _ _ Hres) as Happ. rewrite Hq in Happ.
    rewrite (Submit_headers_get _ _ _ _ _ Hheaders Hh Hdhh k).
    rewrite (appends_to_other (Some h) (Some q) σ σ1) by (congruence || exact Happ).
    rewrite (appends_to_other _ (Some q) σ σ1 Hdhq Happ). reflexivity.
Qed.

Lemma Submit_appends_to_composer_maps_witness :
  shared.request.Submit sample_orders sample_store (shared_request answers)
  = Done (sample_store_after, sample_run.1.2, sample_run.2)
  /\ appends_to [Some 4%positive; Some 3%positive] sample_store sample_store_after
  /\ held sample_store 4%positive = Some []
  /\ held sample_store_after 4%positive = Some [("active", ["true"]); ("a", ["2"])]
  /\ held sample_store_after 3%positive
     = Some [("User-Agent", ["sample-agent"]); ("X-Key", ["secret"])]
  /\ held sample_store_after 2%positive = held sample_store 2%positive.
Proof.
  assert (Hrun : shared.request.Submit sample_orders sample_store (shared_request answers)
                 = Done (sample_store_after, sample_run.1.2, sample_run.2))
    by (vm_compute; reflexivity).
  split; [exact Hrun|].
  destruct (Submit_appends_to_composer_maps sample_orders sample_store
              (shared_request answers)) as [_ Hall].
  destruct (Hall _ _ _ Hrun) as (Happ & _).
  split; [exact Happ|]. vm_compute. repeat split.
Defined.

(** The composer of the sample submitted twice, and a composer that
    holds the default query map of its profile. *)
Example Submit_twice_in_store :
  held (store_after sample_orders sample_store_after (shared_request answers)) 4%positive
  = Some [("active", ["true"; "true"]); ("a", ["2"; "2"])]
  /\ held (store_after sample_orders sample_store_after (shared_request answers)) 3%positive
     = Some [("User-Agent", ["sample-agent"; "sample-agent"]);
             ("X-Key", ["secret"; "secret"])]
  /\ held sample_store 2%positive = Some [("a", ["2"])]
  /\ held (store_after (shared.mkOrders ["a"] ["a"] ["X-Key"] ["User-Agent"; "X-Key"])
             sample_store sharing_request) 2%positive
     = Some [("a", ["2"; "9"; "2"; "9"])].
Proof. vm_compute. repeat split. Qed.

(** A budget used up by one submission is whole again for the next. *)
Example budget_is_seeded_anew :
  outcome (request.Submit_trace (request.MaxRedirects (sample_request (redirects_first 2)) 2))
  = Some (response.newHttpResponse json_response, 2%nat)
  /\ outcome (request.Submit_trace
                (after_Submit (request.MaxRedirects (sample_request (redirects_first 2)) 2)))
     = Some (response.newHttpResponse json_response, 2%nat).
Proof. vm_compute. split; reflexivity. Qed.

(** ** Host normalization *)

Ltac byte_cases c :=
  destruct c as [[] [] [] [] [] [] [] []]; vm_compute;
  try reflexivity; try discriminate; try congruence.

Lemma all_bytes_app p a b :
  url.all_bytes p (a +:+ b) = url.all_bytes p a && url.all_bytes p b.
Proof.
  induction a as [|c a IH]; [reflexivity|]. rewrite append_cons.
  cbn [url.all_bytes]. rewrite IH, andb_assoc. reflexivity.
Qed.

Lemma all_bytes_impl (p q : ascii -> bool) s :
  (forall c, p c = true -> q c = true) ->
  url.all_bytes p s = true -> url.all_bytes q s = true.
Proof.
  intros Himp. induction s as [|c s IH]; [reflexivity|]. cbn.
  intros [Hc Hs]%andb_true_iff. rewrite (Himp c Hc), (IH Hs). reflexivity.
Qed.

(** A byte that does not occur is not found. *)
Lemma Index_absent (d : ascii) s :
  url.all_bytes (fun c => negb (Ascii.eqb c d)) s = true ->
  strings.Index s (String d "") = None.
Proof.
  induction s as [|c s IH]; [reflexivity|]. cbn [url.all_bytes].
  intros [Hc Hs]%andb_true_iff. cbn [strings.Index].
  unfold strings.HasPrefix. cbn [String.prefix].
  destruct (ascii_dec d c) as [->|_].
  - rewrite Ascii.eqb_refl in Hc. discriminate.
  - rewrite (IH Hs). reflexivity.
Qed.

Lemma LastIndex_absent (d : ascii) s :
  url.all_bytes (fun c => negb (Ascii.eqb c d)) s = true ->
  strings.LastIndex s (String d "") = None.
Proof.
  induction s as [|c s IH]; [reflexivity|]. cbn [url.all_bytes].
  intros [Hc Hs]%andb_true_iff. cbn [strings.LastIndex]. rewrite (IH Hs).
  unfold strings.HasPrefix. cbn [String.prefix].
  destruct (ascii_dec d c) as [->|_]; [|reflexivity].
  rewrite Ascii.eqb_refl in Hc. discriminate.
Qed.

Lemma CountByte_absent (d : ascii) s :
  url.all_bytes (fun c => negb (Ascii.eqb c d)) s = true ->
  strings.CountByte s d = O.
Proof.
  induction s as [|c s IH]; [reflexivity|]. cbn [url.all_bytes strings.CountByte].
  intros [Hc Hs]%andb_true_iff. rewrite (IH Hs).
  destruct (Ascii.eqb c d); [discriminate | reflexivity].
Qed.

Lemma Cut_absent (d : ascii) s :
  url.all_bytes (fun c => negb (Ascii.eqb c d)) s = true ->
  strings.Cut s (String d "") = (s, "", false).
Proof. intros H. unfold strings.Cut. rewrite (Index_absent _ _ H). reflexivity. Qed.

Lemma take_app a b : strings.take (String.length a) (a +:+ b) = a.
Proof.
  induction a as [|c a IH]; [destruct b; reflexivity|].
  rewrite append_cons. cbn. rewrite IH. reflexivity.
Qed.

Lemma drop_app a b : strings.drop (String.length a) (a +:+ b) = b.
Proof.
  induction a as [|c a IH]; [reflexivity|]. rewrite append_cons. cbn. exact IH.
Qed.

Lemma rev_app_spec a : forall b, String.rev_app a b = String.rev a +:+ b.
Proof.
  unfold String.rev. induction a as [|c a IH]; intros b; [reflexivity|].
  cbn [String.rev_app]. rewrite (IH (String c b)), (IH (String c "")).
  rewrite append_assoc. reflexivity.
Qed.

Lemma rev_cons c a : String.rev (String c a) = String.rev a +:+ String c "".
Proof. unfold String.rev at 1. cbn [String.rev_app]. apply rev_app_spec. Qed.

Lemma rev_append a b : String.rev (a +:+ b) = String.rev b +:+ String.rev a.
Proof.
  induction a as [|c a IH]; [symmetry; apply append_nil_r|].
  rewrite append_cons, !rev_cons, IH, append_assoc. reflexivity.
Qed.

Lemma rev_involutive a : String.rev (String.rev a) = a.
Proof.
  induction a as [|c a IH]; [reflexivity|]. rewrite rev_cons, rev_append, IH.
  reflexivity.
Qed.

Lemma rev_length a : String.length (String.rev a) = String.length a.
Proof.
  induction a as [|c a IH]; [reflexivity|]. rewrite rev_cons, append_length, IH.
  cbn. lia.
Qed.

Lemma all_bytes_rev p a : url.all_bytes p (String.rev a) = url.all_bytes p a.
Proof.
  induction a as [|c a IH]; [reflexivity|]. rewrite rev_cons, all_bytes_app, IH.
  cbn. rewrite andb_true_r. apply andb_comm.
Qed.

Lemma leading_visible c s :
  visible c = true ->
  strings.leading strings.space_runes (String c s) = None
  /\ strings.leading (map String.rev strings.space_runes) (String c s) = None.
Proof.
  destruct c as [[] [] [] [] [] [] [] []]; vm_compute; intros H;
    first [discriminate H | split; reflexivity].
Qed.

(** A string that starts and ends with a visible byte has nothing to
    trim. *)
Lemma TrimSpace_visible c s d s' :
  visible c = true -> visible d = true ->
  String.rev (String c s) = String d s' ->
  strings.TrimSpace (String c s) = String c s.
Proof.
  intros Hc Hd Hrev. unfold strings.TrimSpace.
  assert (Hleft : strings.TrimLeftSpace (String c s) = String c s).
  { unfold strings.TrimLeftSpace. cbn [String.length strings.trim_left].
    rewrite (proj1 (leading_visible c s Hc)). reflexivity. }
  rewrite Hleft. unfold strings.TrimRightSpace. rewrite Hrev.
  cbn [String.length strings.trim_left].
  rewrite (proj2 (leading_visible d s' Hd)), <- Hrev. apply rev_involutive.
Qed.

(** *** [getScheme] on a scheme followed by a colon *)

Lemma scheme_byte_cases c :
  scheme_byte c = true ->
  is_alpha c = true
  \/ (is_alpha c = false /\ (is_digit c || byte_in c "+-.") = true).
Proof.
  destruct c as [[] [] [] [] [] [] [] []]; vm_compute; intros H;
    first [discriminate H | left; reflexivity | right; split; reflexivity].
Qed.

Lemma is_lower_alpha c : is_lower c = true -> is_alpha c = true.
Proof. unfold is_alpha. intros ->. reflexivity. Qed.

Lemma drop_S_app a c b :
  strings.drop (S (String.length a)) (a +:+ String c b) = b.
Proof.
  induction a as [|x a IH]; [reflexivity|]. rewrite append_cons. exact IH.
Qed.

Lemma getScheme_at_scheme rest : forall s1 pre,
  url.all_bytes scheme_byte s1 = true ->
  (pre = "" -> match s1 with String c _ => is_lower c = true | "" => False end) ->
  url.getScheme_at (pre +:+ s1 +:+ String ":" rest) (String.length pre)
    (s1 +:+ String ":" rest)
  = Ok (pre +:+ s1, rest).
Proof.
  induction s1 as [|c s1 IH]; intros pre Hall Hfirst.
  - change ("" +:+ String ":" rest) with (String ":" rest).
    cbn [url.getScheme_at].
    change (is_alpha ":") with false. change (is_digit ":" || byte_in ":" "+-.") with false.
    change (Ascii.eqb ":" ":") with true. cbv iota.
    destruct pre as [|x pre]; [destruct (Hfirst eq_refl)|].
    cbn [String.length Nat.eqb].
    change (S (String.length pre)) with (String.length (String x pre)).
    rewrite take_app, drop_S_app, append_nil_r. reflexivity.
  - rewrite append_cons. cbn [url.all_bytes] in Hall.
    apply andb_true_iff in Hall as [Hc Hall].
    assert (Hnext : url.getScheme_at (pre +:+ String c (s1 +:+ String ":" rest))
                      (S (String.length pre)) (s1 +:+ String ":" rest)
                    = Ok (pre +:+ String c s1, rest)).
    { specialize (IH (pre +:+ String c "") Hall).
      rewrite !append_assoc, append_length in IH. cbn [String.length] in IH.
      rewrite Nat.add_1_r in IH. change (String c "" +:+ s1) with (String c s1) in IH.
      change (String c "" +:+ s1 +:+ String ":" rest)
        with (String c (s1 +:+ String ":" rest)) in IH.
      apply IH. intros Hpre. destruct pre; discriminate Hpre. }
    cbn [url.getScheme_at].
    destruct (scheme_byte_cases c Hc) as [Ha|[Ha Hd]]; rewrite Ha; [exact Hnext|].
    rewrite Hd. destruct pre as [|x pre]; [|exact Hnext].
    specialize (Hfirst eq_refl). cbn in Hfirst. apply is_lower_alpha in Hfirst.
    congruence.
Qed.

Lemma getScheme_scheme s rest :
  lower_scheme s = true ->
  url.getScheme (s +:+ String ":" rest) = Ok (s, rest).
Proof.
  intros Hs. unfold url.getScheme. destruct s as [|c s]; [discriminate|].
  cbn [lower_scheme] in Hs. apply andb_true_iff in Hs as [Hc Hall].
  apply (getScheme_at_scheme rest (String c s) "" Hall). intros _. exact Hc.
Qed.

Lemma ToLower_scheme s : url.all_bytes scheme_byte s = true -> strings.ToLower s = s.
Proof.
  induction s as [|c s IH]; [reflexivity|]. cbn [url.all_bytes].
  intros [Hc Hs]%andb_true_iff. unfold strings.ToLower in *. cbn [strings.map_bytes].
  rewrite (IH Hs). f_equal. revert Hc.
  destruct c as [[] [] [] [] [] [] [] []]; vm_compute; congruence.
Qed.

(** *** A plain host goes through [parseAuthority] as it is *)

Lemma host_byte_plain c :
  host_byte c = true ->
  Ascii.eqb c "%" = false /\ Ascii.eqb c "+" = false
  /\ ((byte c <? 128)%N && url.shouldEscape c url.encodeHost) = false.
Proof.
  destruct c as [[] [] [] [] [] [] [] []]; vm_compute; intros H;
    first [discriminate H | repeat split].
Qed.

Lemma unescape_check_plain_host t :
  url.all_bytes host_byte t = true -> url.unescape_check url.encodeHost t = None.
Proof.
  induction t as [|c t IH]; [reflexivity|]. cbn [url.all_bytes].
  intros [Hc Hall]%andb_true_iff.
  destruct (host_byte_plain c Hc) as (Hp & Hplus & Hesc).
  cbn [url.unescape_check]. rewrite Hp, Hplus.
  replace (bool_decide (url.encodeHost = url.encodeHost ∨ url.encodeHost = url.encodeZone))
    with true by reflexivity.
  cbn [andb]. rewrite Hesc. apply IH, Hall.
Qed.

Lemma unescape_decode_plain_host t :
  url.all_bytes host_byte t = true -> url.unescape_decode url.encodeHost t = t.
Proof.
  induction t as [|c t IH]; [reflexivity|]. cbn [url.all_bytes].
  intros [Hc Hall]%andb_true_iff.
  destruct (host_byte_plain c Hc) as (Hp & Hplus & _).
  cbn [url.unescape_decode]. rewrite Hp, Hplus, (IH Hall). reflexivity.
Qed.

Lemma unescape_plain_host t :
  url.all_bytes host_byte t = true -> url.unescape t url.encodeHost = Ok t.
Proof.
  intros Hall. unfold url.unescape.
  rewrite (unescape_check_plain_host t Hall), (unescape_decode_plain_host t Hall).
  reflexivity.
Qed.

Lemma host_byte_others c :
  host_byte c = true ->
  negb (Ascii.eqb c "@") = true /\ negb (Ascii.eqb c "/") = true
  /\ negb (Ascii.eqb c "[") = true /\ negb (Ascii.eqb c "#") = true
  /\ negb (Ascii.eqb c "?") = true
  /\ negb ((byte c <? 32)%N || (byte c =? 127)%N) = true
  /\ visible c = true.
Proof.
  destruct c as [[] [] [] [] [] [] [] []]; vm_compute; intros H;
    first [discriminate H | repeat split].
Qed.

Lemma scheme_byte_others c :
  scheme_byte c = true ->
  negb (Ascii.eqb c "#") = true /\ negb (Ascii.eqb c "?") = true
  /\ negb ((byte c <? 32)%N || (byte c =? 127)%N) = true
  /\ visible c = true.
Proof.
  destruct c as [[] [] [] [] [] [] [] []]; vm_compute; intros H;
    first [discriminate H | repeat split].
Qed.

Lemma parseHost_plain t :
  plain_host t = true -> url.parseHost t = Ok t.
Proof.
  unfold plain_host. intros [Hall Hport]%andb_true_iff. unfold url.parseHost.
  rewrite (unescape_plain_host t Hall).
  assert (Hbr : strings.HasPrefix t "[" = false).
  { destruct t as [|c t]; [reflexivity|]. cbn [url.all_bytes] in Hall.
    apply andb_true_iff in Hall as [Hc _].
    destruct (host_byte_others c Hc) as (_ & _ & Hb & _).
    unfold strings.HasPrefix. cbn [String.prefix].
    destruct (ascii_dec "[" c) as [<-|]; [discriminate Hb | reflexivity]. }
  rewrite Hbr. destruct (strings.LastIndex t ":"); [|reflexivity].
  rewrite Hport. reflexivity.
Qed.

Lemma parseAuthority_plain t :
  plain_host t = true -> url.parseAuthority t = Ok (None, t).
Proof.
  intros Hplain. unfold url.parseAuthority.
  assert (Hat : strings.LastIndex t "@" = None).
  { apply LastIndex_absent. unfold plain_host in Hplain.
    apply andb_true_iff in Hplain as [Hall _].
    apply (all_bytes_impl host_byte); [|exact Hall].
    intros c Hc. apply (host_byte_others c Hc). }
  rewrite Hat, (parseHost_plain t Hplain). reflexivity.
Qed.

(** *** [url.Parse] on [scheme://host] *)

Lemma normal_form_bytes s t (q : ascii -> bool) :
  (forall c, scheme_byte c = true -> q c = true) ->
  (forall c, host_byte c = true -> q c = true) ->
  q ":"%char = true -> q "/"%char = true ->
  url.all_bytes scheme_byte s = true -> url.all_bytes host_byte t = true ->
  url.all_bytes q (s +:+ "://" +:+ t) = true.
Proof.
  intros Hs Ht Hcolon Hslash Hall_s Hall_t. rewrite !all_bytes_app.
  rewrite (all_bytes_impl _ _ _ Hs Hall_s), (all_bytes_impl _ _ _ Ht Hall_t).
  cbn. rewrite Hcolon, Hslash. reflexivity.
Qed.

Lemma lower_scheme_bytes s :
  lower_scheme s = true -> url.all_bytes scheme_byte s = true /\ s <> "".
Proof.
  destruct s as [|c s]; [discriminate|]. cbn [lower_scheme].
  intros [_ H]%andb_true_iff. split; [exact H | discriminate].
Qed.

Lemma parse_normal_form s t :
  lower_scheme s = true -> plain_host t = true ->
  url.parse (s +:+ "://" +:+ t) false
  = Ok (url.mkURL s "" None t "" "" false false "" "" "").
Proof.
  intros Hs Ht. destruct (lower_scheme_bytes s Hs) as [Hsb Hne].
  pose proof Ht as Htb. unfold plain_host in Htb.
  apply andb_true_iff in Htb as [Htb _].
  assert (Hctl : url.stringContainsCTLByte (s +:+ "://" +:+ t) = false).
  { unfold url.stringContainsCTLByte. apply negb_false_iff.
    apply normal_form_bytes; try assumption; try reflexivity.
    - intros c Hc. apply (scheme_byte_others c Hc).
    - intros c Hc. apply (host_byte_others c Hc). }
  assert (Hstar : String.eqb (s +:+ "://" +:+ t) "*" = false).
  { apply String.eqb_neq. destruct s as [|c s]; [contradiction|].
    rewrite append_cons. intros H. injection H as _ H. destruct s; discriminate H. }
  assert (Hsch : url.getScheme (s +:+ "://" +:+ t) = Ok (s, "//" +:+ t)).
  { apply (getScheme_scheme s ("//" +:+ t) Hs). }
  assert (Hq : url.all_bytes (fun c => negb (Ascii.eqb c "?")) ("//" +:+ t) = true).
  { change ("//" +:+ t) with (String "/" (String "/" t)). cbn [url.all_bytes].
    change (negb (Ascii.eqb "/" "?")) with true. cbn [andb].
    apply (all_bytes_impl host_byte); [|exact Htb].
    intros c Hc. apply (host_byte_others c Hc). }
  assert (Hslash : strings.Index t "/" = None).
  { apply Index_absent. apply (all_bytes_impl host_byte); [|exact Htb].
    intros c Hc. apply (host_byte_others c Hc). }
  unfold url.parse.
  rewrite Hctl, andb_false_r, Hstar, Hsch, (ToLower_scheme s Hsb).
  rewrite (CountByte_absent _ _ Hq), andb_false_r, (Cut_absent _ _ Hq).
  cbv iota beta.
  change (strings.HasPrefix ("//" +:+ t) "/") with true.
  replace (strings.HasPrefix ("//" +:+ t) "//") with true
    by (change ("//" +:+ t) with (String "/" (String "/" t));
        rewrite !HasPrefix_cons; destruct t; reflexivity).
  cbn [negb andb].
  rewrite (proj2 (String.eqb_neq s "") Hne). cbn [negb orb andb].
  change (strings.drop 2 ("//" +:+ t)) with t.
  rewrite Hslash, (parseAuthority_plain t Ht). reflexivity.
Qed.

Lemma Parse_normal_form s t :
  lower_scheme s = true -> plain_host t = true ->
  url.Parse (s +:+ "://" +:+ t)
  = Ok (url.mkURL s "" None t "" "" false false "" "" "").
Proof.
  intros Hs Ht. destruct (lower_scheme_bytes s Hs) as [Hsb Hne].
  pose proof Ht as Htb. unfold plain_host in Htb.
  apply andb_true_iff in Htb as [Htb _].
  unfold url.Parse.
  rewrite Cut_absent; cycle 1.
  { apply normal_form_bytes; try assumption; try reflexivity.
    - intros c Hc. apply (scheme_byte_others c Hc).
    - intros c Hc. apply (host_byte_others c Hc). }
  cbv iota beta. rewrite (parse_normal_form s t Hs Ht). reflexivity.
Qed.

Lemma TrimSpace_normal_form s t :
  lower_scheme s = true -> url.all_bytes host_byte t = true ->
  strings.TrimSpace (s +:+ "://" +:+ t) = s +:+ "://" +:+ t.
Proof.
  intros Hs Ht. destruct s as [|c s]; [discriminate|].
  cbn [lower_scheme] in Hs. apply andb_true_iff in Hs as [Hc _].
  assert (Hvis : visible c = true).
  { revert Hc. destruct c as [[] [] [] [] [] [] [] []]; vm_compute; congruence. }
  rewrite append_cons.
  assert (Hrev : exists d x, visible d = true
            /\ String.rev (String c (s +:+ "://" +:+ t)) = String d x).
  { rewrite <- append_cons, !rev_append.
    destruct (String.rev t) as [|d x] eqn:Hrt.
    - exists "/"%char. eexists. split; reflexivity.
    - exists d. eexists. split; [|rewrite !append_cons; reflexivity].
      rewrite <- (all_bytes_rev host_byte t), Hrt in Ht. cbn [url.all_bytes] in Ht.
      apply andb_true_iff in Ht as [Hd _]. apply (host_byte_others d Hd). }
  destruct Hrev as (d & x & Hd & Hrev).
  apply (TrimSpace_visible c _ d x Hvis Hd Hrev).
Qed.

(** A normal form [scheme://host] is a fixed point of the
    normalization. *)
Lemma normalize_normal_form c s t :
  lower_scheme s = true -> plain_host t = true ->
  normalize c (s +:+ "://" +:+ t) = s +:+ "://" +:+ t.
Proof.
  intros Hs Ht. unfold normalize, client.GetHost, client.Host. cbn [client.host].
  pose proof Ht as Htb. unfold plain_host in Htb.
  apply andb_true_iff in Htb as [Htb _].
  rewrite (TrimSpace_normal_form s t Hs Htb), (Parse_normal_form s t Hs Ht).
  reflexivity.
Qed.

(** C5, as stated, fails at a host without scheme and authority: it
    parses, as a relative reference, and the getter returns [://], neither
    a normalized form nor the empty string; the profile without host of
    the default configuration gives the same. *)
Lemma GetHost_without_scheme :
  url.Parse "example.com"
  = Ok (url.mkURL "" "" None "" "example.com" "" false false "" "" "")
  /\ client.GetHost (client.Host bare_client "example.com") = "://"
  /\ client.GetHost bare_client = "://"
  /\ String.eqb (client.GetHost (client.Host bare_client "example.com")) "" = false.
Proof. vm_compute. repeat split. Qed.

(** C5, amended: for every stored host string the getter returns
    [scheme://host], built from the scheme and the host of the parsed
    reference, whenever [url.Parse] takes the string, and the empty string
    exactly when [url.Parse] fails; no error is raised either way.  A
    string that parses without scheme and authority (the empty host, a
    bare name) therefore gives [://]; a lower-case scheme followed by
    [://] and a plain host is given back as it is. *)
Theorem GetHost_of_parse (c : client.httpClient) :
  (forall u, url.Parse (client.host c) = Ok u ->
     client.GetHost c = url.Scheme u +:+ "://" +:+ url.Host u)
  /\ (forall err, url.Parse (client.host c) = Err err -> client.GetHost c = "")
  /\ (client.GetHost c = "" <-> exists err, url.Parse (client.host c) = Err err)
  /\ (forall u, url.Parse (client.host c) = Ok u ->
        url.Scheme u = "" -> url.Host u = "" -> client.GetHost c = "://")
  /\ (forall s t, lower_scheme s = true -> plain_host t = true ->
        client.GetHost (client.Host c (s +:+ "://" +:+ t)) = s +:+ "://" +:+ t).
Proof.
  unfold client.GetHost. repeat split.
  - intros u ->. reflexivity.
  - intros err ->. reflexivity.
  - destruct (url.Parse (client.host c)) as [u|err]; [|eauto].
    intros H. apply (f_equal String.length) in H.
    rewrite !append_length in H. cbn in H. lia.
  - intros [err ->]. reflexivity.
  - intros u -> -> ->. reflexivity.
  - intros s t Hs Ht. apply (normalize_normal_form c s t Hs Ht).
Qed.

(** C6, as stated, fails at the empty string: its normal form is [://],
    which does not parse, so that the normal form of [://] is the empty
    string; and at a host with an escaped percent sign. *)
Lemma normalize_not_idempotent :
  normalize bare_client "" = "://"
  /\ normalize bare_client (normalize bare_client "") = ""
  /\ normalize bare_client "http://a%25b" = "http://a%b"
  /\ normalize bare_client (normalize bare_client "http://a%25b") = ""
  /\ String.eqb (normalize bare_client (normalize bare_client ""))
       (normalize bare_client "") = false.
Proof. vm_compute. repeat split. Qed.

(** *** The scheme [url.Parse] returns *)

Lemma getScheme_at_inv : forall s pre sch rest,
  url.all_bytes any_scheme_byte pre = true ->
  (pre = "" \/ first_alpha pre = true) ->
  url.getScheme_at (pre +:+ s) (String.length pre) s = Ok (sch, rest) ->
  sch = "" \/ (url.all_bytes any_scheme_byte sch = true /\ first_alpha sch = true).
Proof.
  induction s as [|c s IH]; intros pre sch rest Hall Hfirst H.
  - injection H as <- _. left. reflexivity.
  - assert (Hstep : any_scheme_byte c = true ->
                    (pre = "" -> is_alpha c = true) ->
                    url.getScheme_at (pre +:+ String c s) (S (String.length pre)) s
                    = Ok (sch, rest) ->
                    sch = "" \/ (url.all_bytes any_scheme_byte sch = true
                                 /\ first_alpha sch = true)).
    { intros Hc Hpre Hrec. apply (IH (pre +:+ String c "") sch rest).
      - rewrite all_bytes_app, Hall. cbn. rewrite Hc. reflexivity.
      - right. destruct pre as [|x pre]; [exact (Hpre eq_refl)|].
        destruct Hfirst as [Hnil|Hx]; [discriminate Hnil | exact Hx].
      - rewrite append_assoc, append_length. cbn [String.length].
        rewrite Nat.add_1_r. exact Hrec. }
    cbn [url.getScheme_at] in H. destruct (is_alpha c) eqn:Ha.
    + apply Hstep; [unfold any_scheme_byte; rewrite Ha; reflexivity | reflexivity | exact H].
    + destruct (is_digit c || byte_in c "+-.") eqn:Hd.
      * destruct (Nat.eqb_spec (String.length pre) 0) as [Hz|Hnz].
        -- injection H as <- _. left. reflexivity.
        -- apply Hstep; [unfold any_scheme_byte; rewrite Ha; exact Hd | | exact H].
           intros ->. contradiction.
      * destruct (Ascii.eqb c ":"); [|injection H as <- _; left; reflexivity].
        destruct (Nat.eqb_spec (String.length pre) 0) as [Hz|Hnz]; [discriminate|].
        injection H as <- _. rewrite take_app. right. split; [exact Hall|].
        destruct Hfirst as [->|Hx]; [contradiction | exact Hx].
Qed.

Lemma lower_byte_scheme c :
  any_scheme_byte c = true ->
  scheme_byte (strings.lower_byte c) = true
  /\ (is_alpha c = true -> is_lower (strings.lower_byte c) = true).
Proof.
  destruct c as [[] [] [] [] [] [] [] []]; vm_compute; intros H;
    first [discriminate H | split; [reflexivity | intros H'; first [reflexivity | discriminate H']]].
Qed.

Lemma ToLower_lower_scheme sch :
  url.all_bytes any_scheme_byte sch = true -> first_alpha sch = true ->
  lower_scheme (strings.ToLower sch) = true.
Proof.
  intros Hall Hfirst.
  assert (Hbytes : url.all_bytes scheme_byte (strings.ToLower sch) = true).
  { clear Hfirst. induction sch as [|c sch IH]; [reflexivity|].
    cbn [url.all_bytes] in Hall. apply andb_true_iff in Hall as [Hc Hall].
    unfold strings.ToLower in *. cbn [strings.map_bytes url.all_bytes].
    rewrite (proj1 (lower_byte_scheme c Hc)), (IH Hall). reflexivity. }
  destruct sch as [|c sch]; [discriminate|]. cbn [first_alpha] in Hfirst.
  cbn [url.all_bytes] in Hall. apply andb_true_iff in Hall as [Hc _].
  unfold strings.ToLower in *. cbn [strings.map_bytes lower_scheme] in *.
  rewrite Hbytes, (proj2 (lower_byte_scheme c Hc) Hfirst). reflexivity.
Qed.

Lemma setPath_keeps u p u' :
  url.setPath u p = Ok u' -> url.Scheme u' = url.Scheme u /\ url.Host u' = url.Host u.
Proof.
  unfold url.setPath. destruct (url.unescape p url.encodePath); [|discriminate].
  intros [= <-]. split; reflexivity.
Qed.

Lemma setFragment_keeps u f u' :
  url.setFragment u f = Ok u' -> url.Scheme u' = url.Scheme u /\ url.Host u' = url.Host u.
Proof.
  unfold url.setFragment. destruct (url.unescape f url.encodeFragment); [|discriminate].
  intros [= <-]. split; reflexivity.
Qed.

Lemma parse_scheme raw viaRequest u :
  url.parse raw viaRequest = Ok u ->
  url.Scheme u = "" \/ lower_scheme (url.Scheme u) = true.
Proof.
  unfold url.parse. destruct (url.stringContainsCTLByte raw); [discriminate|].
  destruct (String.eqb raw "" && viaRequest); [discriminate|].
  destruct (String.eqb raw "*"); [intros [= <-]; left; reflexivity|].
  destruct (url.getScheme raw) as [[sch rest]|e] eqn:Hsch; [|discriminate].
  assert (Hlow : strings.ToLower sch = "" \/ lower_scheme (strings.ToLower sch) = true).
  { unfold url.getScheme in Hsch.
    destruct (getScheme_at_inv raw "" sch rest eq_refl (or_introl eq_refl) Hsch)
      as [->|[Hall Hfirst]]; [left; reflexivity|].
    right. apply ToLower_lower_scheme; assumption. }
  destruct (strings.HasSuffix rest "?" && _).
  - cbv iota beta.
    repeat match goal with
           | |- context [if ?b then _ else _] => destruct b
           | |- context [match ?x with inl _ => _ | inr _ => _ end] => destruct x as [[? ?]|?]
           | |- context [let '(_, _) := ?x in _] => destruct x
           | |- inr _ = inl _ -> _ => discriminate
           | |- inl _ = inl _ -> _ => intros [= <-]; exact Hlow
           | |- url.setPath _ _ = inl _ -> _ =>
               let H := fresh in intros H; apply setPath_keeps in H as [-> _]; exact Hlow
           end.
  - destruct (strings.Cut rest "?") as [[before after] found]. cbv iota beta.
    repeat match goal with
           | |- context [if ?b then _ else _] => destruct b
           | |- context [match ?x with inl _ => _ | inr _ => _ end] => destruct x as [[? ?]|?]
           | |- context [let '(_, _) := ?x in _] => destruct x
           | |- inr _ = inl _ -> _ => discriminate
           | |- inl _ = inl _ -> _ => intros [= <-]; exact Hlow
           | |- url.setPath _ _ = inl _ -> _ =>
               let H := fresh in intros H; apply setPath_keeps in H as [-> _]; exact Hlow
           end.
Qed.

Lemma Parse_scheme raw u :
  url.Parse raw = Ok u ->
  url.Scheme u = "" \/ lower_scheme (url.Scheme u) = true.
Proof.
  unfold url.Parse. destruct (strings.Cut raw "#") as [[u0 frag] found].
  destruct (url.parse u0 false) as [v|e] eqn:Hparse; [|discriminate].
  apply parse_scheme in Hparse.
  destruct (String.eqb frag ""); [intros [= <-]; exact Hparse|].
  destruct (url.setFragment v frag) as [v'|e] eqn:Hfrag; [|discriminate].
  apply setFragment_keeps in Hfrag as [Hs _]. intros [= <-].
  rewrite Hs. exact Hparse.
Qed.

Lemma normalize_parsed c h u :
  url.Parse (strings.TrimSpace h) = Ok u ->
  normalize c h = url.Scheme u +:+ "://" +:+ url.Host u.
Proof.
  intros H. unfold normalize, client.GetHost, client.Host.
  cbn [client.host]. rewrite H. reflexivity.
Qed.

(** C6, amended: host normalization is idempotent on every host string
    that parses with a scheme and with a plain authority host (letters,
    digits, dots and dashes, then an optional port): normalizing it gives
    [scheme://host], and setting the host to that string and reading it
    back gives the same string.  It is not idempotent on every string:
    the empty host and a bare name normalize to [://], which normalizes
    to the empty string. *)
Theorem Host_normalization_idempotent (c : client.httpClient) (h : string) (u : url.URL) :
  url.Parse (strings.TrimSpace h) = Ok u ->
  String.eqb (url.Scheme u) "" = false ->
  plain_host (url.Host u) = true ->
  normalize c h = url.Scheme u +:+ "://" +:+ url.Host u
  /\ normalize c (normalize c h) = normalize c h.
Proof.
  intros Hparse Hscheme Hhost.
  rewrite (normalize_parsed c h u Hparse). split; [reflexivity|].
  destruct (Parse_scheme _ u Hparse) as [Hnil|Hlow].
  - rewrite Hnil in Hscheme. discriminate Hscheme.
  - apply normalize_normal_form; assumption.
Qed.

Lemma Host_normalization_idempotent_witness :
  url.Parse (strings.TrimSpace sample_host) = Ok sample_host_reference
  /\ normalize bare_client sample_host = "https://API.example.com:8080"
  /\ normalize bare_client (normalize bare_client sample_host)
     = normalize bare_client sample_host.
Proof.
  assert (Hparse : url.Parse (strings.TrimSpace sample_host)
                   = Ok sample_host_reference) by (vm_compute; reflexivity).
  split; [exact Hparse|].
  apply (Host_normalization_idempotent bare_client _ sample_host_reference Hparse);
    vm_compute; reflexivity.
Defined.

(* ===================================================================== *)
(** * Further properties of the code *)
(* ===================================================================== *)

(** ** Status classes, and a path that does not parse *)

(** X1: the three status classes are pairwise disjoint: [IsSuccess] is
    200..299, [IsClientError] is 400..499, [IsServerError] is every status
    from 500 on (there is no upper bound), and a status is in none of
    them exactly when it is below 200 or in 300..399. *)
Theorem status_classes (r : response.httpResponse) :
  response.IsSuccess r && response.IsClientError r = false
  /\ response.IsSuccess r && response.IsServerError r = false
  /\ response.IsClientError r && response.IsServerError r = false
  /\ (response.IsSuccess r = true <-> (200 <= response.StatusCode r < 300)%Z)
  /\ (response.IsClientError r = true <-> (400 <= response.StatusCode r < 500)%Z)
  /\ (response.IsServerError r = true <-> (500 <= response.StatusCode r)%Z)
  /\ (response.IsSuccess r || response.IsClientError r || response.IsServerError r = false
      <-> (response.StatusCode r < 200 \/ 300 <= response.StatusCode r < 400)%Z).
Proof.
  unfold response.IsSuccess, response.IsClientError, response.IsServerError,
    response.StatusCode.
  destruct (Z.leb_spec 200 (response.statusCode r)),
    (Z.ltb_spec (response.statusCode r) 300),
    (Z.leb_spec 400 (response.statusCode r)),
    (Z.ltb_spec (response.statusCode r) 500),
    (Z.leb_spec 500 (response.statusCode r));
    cbn; repeat split; intros; try lia; try discriminate; try reflexivity.
Qed.

Lemma Parse_error_wrapped raw err :
  url.Parse raw = Err err -> exists u cause, err = url_Error "parse" u cause.
Proof.
  unfold url.Parse. destruct (strings.Cut raw "#") as [[u frag] found].
  destruct (url.parse u false) as [v|e]; [|intros [= <-]; eauto].
  destruct (String.eqb frag ""); [discriminate|].
  destruct (url.setFragment v frag) as [v'|e]; [discriminate|].
  intros [= <-]; eauto.
Qed.

Lemma Submit_path_error r host queries err :
  request.path r <> "" ->
  url.Parse (strings.TrimPrefix (request.path r) "/") = Err err ->
  request.Submit_path r host queries = Done (Err err).
Proof.
  intros Hpath Hparse. unfold request.Submit_path.
  destruct (String.eqb_spec (request.path r) ""); [contradiction|].
  rewrite Hparse. reflexivity.
Qed.

(** X2: when the path of the composer is not empty and [url.Parse]
    rejects it (after the trim of one leading slash), [Submit] returns that
    error, a [*url.Error] of operation [parse], before it adds anything:
    the composer is left as it was, nothing is sent and no hop is
    followed; this holds on nil maps too. *)
Theorem Submit_unparsable_path (r : request.httpRequest) (err : error) :
  request.path r <> "" ->
  url.Parse (strings.TrimPrefix (request.path r) "/") = Err err ->
  request.Submit r = Done (r, Err err)
  /\ request.Submit_trace r = Done (r, Err err, O)
  /\ exists u cause, err = url_Error "parse" u cause.
Proof.
  intros Hpath Hparse.
  assert (Htrace : request.Submit_trace r = Done (r, Err err, O)).
  { unfold request.Submit_trace, request.Submit_resolve.
    rewrite (Submit_path_error r _ _ err Hpath Hparse). reflexivity. }
  split; [|split; [exact Htrace | exact (Parse_error_wrapped _ _ Hparse)]].
  unfold request.Submit. rewrite Htrace. reflexivity.
Qed.

Lemma Submit_unparsable_path_witness :
  request.Submit unparsable_request
  = Done (unparsable_request, Err (url_Error "parse" "users/%zz" (EscapeError "%zz")))
  /\ request.Submit_trace unparsable_request
     = Done (unparsable_request, Err (url_Error "parse" "users/%zz" (EscapeError "%zz")), O)
  /\ exists u cause,
       url_Error "parse" "users/%zz" (EscapeError "%zz") = url_Error "parse" u cause.
Proof.
  apply (Submit_unparsable_path unparsable_request
           (url_Error "parse" "users/%zz" (EscapeError "%zz"))).
  - vm_compute. discriminate.
  - vm_compute. reflexivity.
Defined.

(** ** A spent budget, and failures of the transport *)

Lemma follow_spent op resp loc next budget hops :
  (budget <= 0)%Z ->
  http.follow request.CheckRedirect op (http.Redirected resp loc next) budget hops
  = (Err (url_Error op loc TooManyRedirects), hops).
Proof.
  intros Hle. cbn [http.follow]. rewrite (CheckRedirect_spent _ Hle). reflexivity.
Qed.

Lemma Submit_prepared_send r r' req :
  Submit_prepare r = Done (r', Ok req) ->
  request.Submit_send r' req
  = (let '(res, hops) :=
       http.follow request.CheckRedirect (http.urlErrorOp (http.Method req))
         (client.GetTransport (request.client r) req) (request.Submit_maxRedirects r) 0 in
     match res with
     | inr err => (Err err, hops)
     | inl resp => (response.newHttpResponse resp, hops)
     end).
Proof.
  intros Hprep. pose proof (Submit_prepare_frame _ _ _ Hprep) as Hfr.
  unfold request.Submit_send, http.Do.
  rewrite (same_frame_maxRedirects _ _ Hfr). destruct Hfr as (-> & _). reflexivity.
Qed.

Lemma Submit_of_trace r r' res hops :
  request.Submit_trace r = Done (r', res, hops) -> request.Submit r = Done (r', res).
Proof. intros H. unfold request.Submit. rewrite H. reflexivity. Qed.

(** X3: with a redirect budget of zero or less (as [NoRedirect] sets
    it, or a negative override or profile default) the first redirect
    response fails the submission with the [*url.Error] that wraps
    [TooManyRedirects], its operation the method in [urlErrorOp] form and
    its URL the location, no hop taken; a response that is no redirect is
    returned as with any budget. *)
Theorem Submit_spent_budget (r r' : request.httpRequest) (req : http.Request) :
  Submit_prepare r = Done (r', Ok req) ->
  (request.Submit_maxRedirects r <= 0)%Z ->
  (forall resp loc next,
      client.GetTransport (request.client r) req = http.Redirected resp loc next ->
      request.Submit_trace r
      = Done (r', Err (url_Error (http.urlErrorOp (http.Method req)) loc TooManyRedirects), O))
  /\ (forall resp,
        client.GetTransport (request.client r) req = http.Answered resp ->
        request.Submit_trace r = Done (r', response.newHttpResponse resp, O)).
Proof.
  intros Hprep Hle. split.
  - intros resp loc next Hx. rewrite (Submit_trace_send _ _ _ Hprep).
    rewrite (Submit_prepared_send _ _ _ Hprep), Hx, (follow_spent _ _ _ _ _ _ Hle).
    reflexivity.
  - intros resp Hx. rewrite (Submit_trace_send _ _ _ Hprep).
    rewrite (Submit_prepared_send _ _ _ Hprep), Hx. cbn [http.follow].
    destruct (response.newHttpResponse resp); reflexivity.
Qed.

Lemma Submit_spent_budget_witness :
  request.Submit_maxRedirects no_redirect_request = 0%Z
  /\ request.Submit_trace no_redirect_request
     = Done (no_redirect_prepared.1, Err (url_Error "Get" "/next" TooManyRedirects), O).
Proof.
  split; [reflexivity|].
  destruct (Submit_spent_budget no_redirect_request no_redirect_prepared.1
              no_redirect_prepared.2) as [Hredirect _].
  - vm_compute. reflexivity.
  - vm_compute. discriminate.
  - apply (Hredirect moved_response "/next" (http.Answered json_response)).
    vm_compute. reflexivity.
Defined.

(** X4: within the redirect budget, a failure of the transport is what
    [Submit] returns, and so is the error of reading the body of the
    answer; an answer whose body reads gives the envelope with the
    original response, its status code and the body read. *)
Theorem Submit_passes_errors (r r' : request.httpRequest) (req : http.Request) :
  Submit_prepare r = Done (r', Ok req) ->
  (Z.of_nat (redirects (client.GetTransport (request.client r) req))
   <= request.Submit_maxRedirects r)%Z ->
  (forall err,
      chain_end (client.GetTransport (request.client r) req) = http.TransportError err ->
      request.Submit r = Done (r', Err err))
  /\ (forall resp err,
        chain_end (client.GetTransport (request.client r) req) = http.Answered resp ->
        http.RespBody resp = Err err ->
        request.Submit r = Done (r', Err err))
  /\ (forall resp body,
        chain_end (client.GetTransport (request.client r) req) = http.Answered resp ->
        http.RespBody resp = Ok body ->
        exists env,
          request.Submit r = Done (r', Ok env)
          /\ response.Original env = resp
          /\ response.StatusCode env = http.StatusCode resp
          /\ response.Content env = body).
Proof.
  intros Hprep Hle.
  assert (Htrace : request.Submit_trace r
            = Done (r', match chain_end (client.GetTransport (request.client r) req) with
                        | http.Answered resp => response.newHttpResponse resp
                        | http.TransportError err => Err err
                        | http.Redirected _ _ _ => Err TooManyRedirects
                        end,
                    redirects (client.GetTransport (request.client r) req))).
  { rewrite (Submit_trace_send _ _ _ Hprep), (Submit_prepared_send _ _ _ Hprep).
    rewrite follow_within_budget by exact Hle.
    destruct (chain_end _) as [? ? ?|resp|err]; [reflexivity| |reflexivity].
    destruct (response.newHttpResponse resp); reflexivity. }
  apply Submit_of_trace in Htrace. repeat split.
  - intros err Hend. rewrite Htrace, Hend. reflexivity.
  - intros resp err Hend Hbody. rewrite Htrace, Hend.
    unfold response.newHttpResponse. rewrite Hbody. reflexivity.
  - intros resp body Hend Hbody. rewrite Htrace, Hend.
    unfold response.newHttpResponse. rewrite Hbody. eexists. repeat split.
Qed.

Lemma Submit_passes_errors_witness :
  request.Submit (sample_request reaches_nobody)
  = Done (unreachable_prepared.1, Err unreachable).
Proof.
  destruct (Submit_passes_errors (sample_request reaches_nobody) unreachable_prepared.1
              unreachable_prepared.2) as [Hfails _].
  - vm_compute. reflexivity.
  - vm_compute. discriminate.
  - apply Hfails. vm_compute. reflexivity.
Defined.

(** ** Merges into a nil map *)

Section nil_map.

Variable Add : MultiMap -> string -> string -> go MultiMap.
Variable f : string -> string.
Hypothesis Add_appends : forall m k v, Add m k v = map_append m (f k) v.

Lemma add_each_nil_panics entries key v vs :
  (key, v :: vs) ∈ entries ->
  add_each Add entries None = Panic "assignment to entry in nil map".
Proof.
  induction entries as [|[k0 vs0] es IH]; intros Hin; [inversion Hin|].
  unfold add_each. cbn [go_range].
  destruct vs0 as [|v0 vs0].
  - apply elem_of_cons in Hin as [Heq|Hin]; [discriminate Heq|].
    cbn. apply IH, Hin.
  - cbn. rewrite Add_appends. reflexivity.
Qed.

Lemma add_each_nil_empty entries :
  (forall key vs, (key, vs) ∈ entries -> vs = []) ->
  add_each Add entries None = Done None.
Proof.
  induction entries as [|[k0 vs0] es IH]; intros Hall; [reflexivity|].
  unfold add_each. cbn [go_range].
  rewrite (Hall k0 vs0) by (left). cbn.
  apply IH. intros key vs Hin. apply (Hall key vs). right. exact Hin.
Qed.

Lemma add_each_nil_cases entries :
  add_each Add entries None = Done None
  \/ add_each Add entries None = Panic "assignment to entry in nil map".
Proof.
  induction entries as [|[k0 vs0] es IH]; [left; reflexivity|].
  unfold add_each. cbn [go_range]. destruct vs0 as [|v0 vs0].
  - cbn. exact IH.
  - right. cbn. rewrite Add_appends. reflexivity.
Qed.

Lemma add_each_nil_value m key v :
  v ∈ map_get m key ->
  add_each Add (map_entries m) None = Panic "assignment to entry in nil map".
Proof.
  intros Hin. destruct (map_get_entry _ _ _ Hin) as (vs & Hentry & Hv).
  destruct vs as [|v0 vs]; [inversion Hv|].
  exact (add_each_nil_panics _ _ _ _ Hentry).
Qed.

Lemma add_each_nil_no_value m :
  (forall key, map_get m key = []) ->
  add_each Add (map_entries m) None = Done None.
Proof.
  intros Hall. apply add_each_nil_empty. intros key vs Hin.
  rewrite <- (map_entry_get _ _ _ Hin). apply Hall.
Qed.

End nil_map.

Lemma user_agent_of_frame r r' : same_frame r r' -> user_agent_of r' = user_agent_of r.
Proof.
  intros (Hc & Hua & _). unfold user_agent_of. rewrite Hc, Hua. reflexivity.
Qed.

Lemma Submit_outgoing_nil_headers r rawurl req0 :
  request.headers r = None ->
  http.NewRequest (request.method r) rawurl (request.body r) = Ok req0 ->
  adds_headers r ->
  request.Submit_outgoing r rawurl = Panic "assignment to entry in nil map".
Proof.
  intros Hnil Hnew Hadds. unfold request.Submit_outgoing. rewrite Hnew.
  unfold adds_headers, user_agent_of in Hadds.
  unfold request.AddHeader, http.Add. rewrite Hnil.
  destruct (request.userAgent r) as [ua|]; [reflexivity|].
  cbv zeta.
  destruct (String.eqb (client.GetUserAgent (request.client r)) ""); [|reflexivity].
  destruct Hadds as [Hua|(Hskip & k & v & Hin)]; [contradiction|].
  cbn. rewrite Hnil, Hskip. cbn.
  rewrite (add_each_nil_value _ http.CanonicalHeaderKey (fun m k v => eq_refl) _ _ _ Hin).
  reflexivity.
Qed.

Lemma Submit_outgoing_nil_headers_quiet r rawurl req0 :
  request.headers r = None ->
  http.NewRequest (request.method r) rawurl (request.body r) = Ok req0 ->
  user_agent_of r = [] ->
  (request.skipDefaultHeaders r = true
   \/ forall k, map_get (client.DefaultHeaders (request.client r)) k = []) ->
  exists req,
    request.Submit_outgoing r rawurl = Done (request.Headers r None, Ok req)
    /\ http.Header req = make_map.
Proof.
  intros Hnil Hnew Hua Hnone. unfold request.Submit_outgoing. rewrite Hnew.
  unfold user_agent_of in Hua.
  destruct (request.userAgent r) as [ua|]; [discriminate|].
  cbv zeta.
  destruct (String.eqb (client.GetUserAgent (request.client r)) ""); [|discriminate].
  cbn -[http.Add]. rewrite Hnil.
  assert (Hdefaults :
    (if negb (request.skipDefaultHeaders r)
     then add_each http.Add (map_entries (client.DefaultHeaders (request.client r))) None
     else Done None) = Done None).
  { destruct Hnone as [->|Hall]; [reflexivity|].
    destruct (negb _); [|reflexivity].
    exact (add_each_nil_no_value http.Add _ Hall). }
  rewrite Hdefaults. cbn. eexists. split; [reflexivity|].
  cbn. destruct (request.ctx r); cbn; exact (NewRequest_Header _ _ _ _ Hnew).
Qed.

(** X5: on a composer whose header map is nil (as [Send] with nil
    headers or [Headers(nil)] leave it) [Submit], once it has built the
    call, panics with an assignment to a nil map whenever it has a header
    to add: a user agent, or a value of a default header that is not
    skipped; with nothing to add it goes on with a call without
    headers. *)
Theorem Submit_nil_headers
    (r r1 : request.httpRequest) (t : request.resolved) (req0 : http.Request) :
  request.headers r = None ->
  request.Submit_resolve r = Done (r1, Ok t) ->
  http.NewRequest (request.method r) (request.target_url t) (request.body r) = Ok req0 ->
  (adds_headers r -> request.Submit r = Panic "assignment to entry in nil map")
  /\ (user_agent_of r = [] ->
      (request.skipDefaultHeaders r = true
       \/ forall k, map_get (client.DefaultHeaders (request.client r)) k = []) ->
      exists r' req,
        Submit_prepare r = Done (r', Ok req)
        /\ request.headers r' = None
        /\ http.Header req = make_map).
Proof.
  intros Hnil Hres Hnew.
  destruct (Submit_resolve_frame _ _ _ Hres) as [Hfr Hh].
  assert (Hnil1 : request.headers r1 = None) by (rewrite Hh; exact Hnil).
  assert (Hnew1 : http.NewRequest (request.method r1) (request.target_url t)
                    (request.body r1) = Ok req0).
  { destruct Hfr as (_&_&_&_&_&_&->&_&->&_). exact Hnew. }
  split.
  - intros Hadds.
    assert (Hadds1 : adds_headers r1).
    { unfold adds_headers in *. rewrite (user_agent_of_frame _ _ Hfr).
      destruct Hfr as (->&_&_&_&_&_&_&->&_). exact Hadds. }
    unfold request.Submit, request.Submit_trace. rewrite Hres. cbn.
    rewrite (Submit_outgoing_nil_headers _ _ _ Hnil1 Hnew1 Hadds1). reflexivity.
  - intros Hua Hnone.
    destruct (Submit_outgoing_nil_headers_quiet r1 (request.target_url t) req0 Hnil1 Hnew1)
      as (req & Hout & Hheader).
    + rewrite (user_agent_of_frame _ _ Hfr). exact Hua.
    + destruct Hfr as (->&_&_&_&_&_&_&->&_). exact Hnone.
    + exists (request.Headers r1 None), req. unfold Submit_prepare. rewrite Hres. cbn.
      rewrite Hout. repeat split. exact Hheader.
Qed.

Lemma Submit_nil_headers_witness :
  request.Send (request.NewHttpRequest (sample_client answers)) "get" "/users" "" None
  = Panic "assignment to entry in nil map".
Proof.
  change (request.Submit send_nil_headers = Panic "assignment to entry in nil map").
  destruct (Submit_nil_headers send_nil_headers send_nil_headers_resolved.1
              send_nil_headers_resolved.2 send_nil_headers_call)
    as [Hpanics _].
  - reflexivity.
  - vm_compute. reflexivity.
  - vm_compute. reflexivity.
  - apply Hpanics. left. vm_compute. discriminate.
Defined.

Lemma reference_of_parsed path u :
  url.Parse (strings.TrimPrefix path "/") = Ok u -> reference_of path = u.
Proof. intros H. unfold reference_of. rewrite H. reflexivity. Qed.

(** X6: on a composer whose query map is nil (as [Queries(nil)] leaves
    it) and whose path is empty or parses, [Submit] panics with an
    assignment to a nil map whenever it has a query to add: one of the
    path, or a value of a default query that is not skipped; with nothing
    to add it resolves the URL without a query string. *)
Theorem Submit_nil_queries (r : request.httpRequest) :
  request.queries r = None ->
  (request.path r = ""
   \/ exists u, url.Parse (strings.TrimPrefix (request.path r) "/") = Ok u) ->
  (adds_queries r -> request.Submit r = Panic "assignment to entry in nil map")
  /\ ((request.path r = ""
       \/ forall k, map_get (url.Query (reference_of (request.path r))) k = []) ->
      (request.skipDefaultQueries r = true
       \/ forall k, map_get (client.DefaultQueries (request.client r)) k = []) ->
      exists r' t,
        request.Submit_resolve r = Done (r', Ok t)
        /\ request.queries r' = None
        /\ request.r_qp t = "").
Proof.
  intros Hnil Hparses.
  assert (Hpath : forall host,
    request.Submit_path r host None
    = (if String.eqb (request.path r) "" then Done (Ok (host, None, ""))
       else match url.Parse (strings.TrimPrefix (request.path r) "/") with
            | inr err => Done (Err err)
            | inl u =>
                queries ← add_each url.Add (map_entries (url.Query u)) None;
                Done (Ok (if negb (String.eqb (url.Host u) "")
                          then url.Scheme u +:+ "://" +:+ url.Host u else host,
                          queries, "/" +:+ url.Path u))
            end)) by reflexivity.
  split.
  - intros Hadds. unfold request.Submit, request.Submit_trace, request.Submit_resolve.
    rewrite Hnil, Hpath.
    destruct (String.eqb_spec (request.path r) "") as [Hempty|Hfull].
    + destruct Hadds as [[Hne _]|(Hskip & k & v & Hin)]; [contradiction|].
      cbn. rewrite Hskip. cbn -[url.Add].
      rewrite (add_each_nil_value url.Add id url_Add_appends _ _ _ Hin). reflexivity.
    + destruct Hparses as [Hempty|[u Hu]]; [contradiction|]. rewrite Hu.
      destruct Hadds as [(_ & k & v & Hin)|(Hskip & k & v & Hin)].
      * rewrite (reference_of_parsed _ _ Hu) in Hin.
        rewrite (add_each_nil_value url.Add id url_Add_appends _ _ _ Hin). reflexivity.
      * destruct (add_each_nil_cases url.Add id url_Add_appends (map_entries (url.Query u)))
          as [-> | ->]; [|reflexivity].
        cbn. rewrite Hskip. cbn -[url.Add].
        rewrite (add_each_nil_value url.Add id url_Add_appends _ _ _ Hin). reflexivity.
  - intros Hquiet Hdefaults.
    assert (Hd :
      (if negb (request.skipDefaultQueries r)
       then add_each url.Add (map_entries (client.DefaultQueries (request.client r))) None
       else Done None) = Done None).
    { destruct Hdefaults as [->|Hall]; [reflexivity|].
      destruct (negb _); [|reflexivity].
      exact (add_each_nil_no_value url.Add _ Hall). }
    unfold request.Submit_resolve. rewrite Hnil, Hpath.
    destruct (String.eqb_spec (request.path r) "") as [Hempty|Hfull].
    + cbn -[url.Add]. rewrite Hd. cbn. eexists _, _. repeat split.
    + destruct Hparses as [Hempty|[u Hu]]; [contradiction|]. rewrite Hu.
      destruct Hquiet as [Hempty|Hall]; [contradiction|].
      rewrite (reference_of_parsed _ _ Hu) in Hall.
      rewrite (add_each_nil_no_value url.Add _ Hall).
      cbn -[url.Add]. rewrite Hd. cbn. eexists _, _. repeat split.
Qed.

Lemma Submit_nil_queries_witness :
  request.Submit nil_queries_request = Panic "assignment to entry in nil map".
Proof.
  destruct (Submit_nil_queries nil_queries_request) as [Hpanics _].
  - reflexivity.
  - right. eexists. vm_compute. reflexivity.
  - apply Hpanics. right. split; [reflexivity|].
    exists "a", "2". vm_compute. left.
Defined.

(** ** A profile whose host has no scheme *)

Lemma Parse_colon_first s : exists err, url.Parse (String ":" s) = Err err.
Proof.
  unfold url.Parse, strings.Cut.
  change (strings.Index (String ":" s) "#") with (S <$> strings.Index s "#").
  assert (Hparse : forall a, exists e, url.parse (String ":" a) false = Err e).
  { intros a. unfold url.parse.
    destruct (url.stringContainsCTLByte (String ":" a)); [eauto|].
    cbn. eauto. }
  destruct (strings.Index s "#") as [i|]; cbn [fmap option_fmap option_map strings.take].
  - destruct (Hparse (strings.take i s)) as [e ->]. eauto.
  - destruct (Hparse s) as [e ->]. eauto.
Qed.

Lemma NewRequest_colon_first method s body :
  exists err, http.NewRequest method (String ":" s) body = Err err.
Proof.
  unfold http.NewRequest. destruct (negb _); [eauto|].
  destruct (Parse_colon_first s) as [e ->]. eauto.
Qed.

Lemma Submit_prepare_error r r' err :
  Submit_prepare r = Done (r', Err err) -> request.Submit r = Done (r', Err err).
Proof.
  unfold Submit_prepare, request.Submit, request.Submit_trace. intros H.
  destruct (request.Submit_resolve r) as [[r1 [t|e]]|msg]; cbn in *;
    [|injection H as -> ->; reflexivity|discriminate].
  rewrite H. reflexivity.
Qed.

(** X7: on a profile whose host parses without a scheme (the empty
    host of the default configuration, a bare name as [example.com]) every
    submission whose path is empty or has no authority of its own fails
    before anything is sent: the URL begins with a colon, which
    [http.NewRequest] does not take; the header map of the composer is
    not written. *)
Theorem Submit_host_without_scheme
    (r : request.httpRequest) (g : gmap string (list string)) (h : url.URL) :
  request.queries r = Some g ->
  url.Parse (client.host (request.client r)) = Ok h ->
  url.Scheme h = "" ->
  (request.path r = ""
   \/ exists u, url.Parse (strings.TrimPrefix (request.path r) "/") = Ok u
                /\ url.Host u = "") ->
  exists r' err,
    Submit_prepare r = Done (r', Err err)
    /\ request.Submit r = Done (r', Err err)
    /\ request.headers r' = request.headers r.
Proof.
  intros Hq Hhost Hscheme Hpath.
  assert (Hget : client.GetHost (request.client r) = String ":" ("//" +:+ url.Host h)).
  { unfold client.GetHost. rewrite Hhost, Hscheme. reflexivity. }
  destruct (Submit_resolve_total r g Hq) as (r1 & t & Hres).
  { destruct Hpath as [Hempty|(u & Hu & _)]; [left; exact Hempty | right; eauto]. }
  assert (Hr_host : request.r_host t = String ":" ("//" +:+ url.Host h)).
  { destruct Hpath as [Hempty|(u & Hu & Hnone)].
    - destruct (Submit_resolve_without_path _ _ _ Hempty Hres) as (-> & _). exact Hget.
    - destruct (String.eqb_spec (request.path r) "") as [Hempty|Hfull].
      + destruct (Submit_resolve_without_path _ _ _ Hempty Hres) as (-> & _). exact Hget.
      + destruct (Submit_resolve_with_path _ _ _ _ Hfull Hu Hres) as (-> & _).
        rewrite Hnone. exact Hget. }
  destruct (Submit_resolve_frame _ _ _ Hres) as [Hfr Hheaders].
  assert (Hurl : exists rest, request.target_url t = String ":" rest).
  { unfold request.target_url. rewrite Hr_host. eexists. apply append_cons. }
  destruct Hurl as [rest Hurl].
  destruct (NewRequest_colon_first (request.method r1) rest (request.body r1)) as [err Hnew].
  assert (Hprep : Submit_prepare r = Done (r1, Err err)).
  { unfold Submit_prepare. rewrite Hres. cbn. unfold request.Submit_outgoing.
    rewrite Hurl, Hnew. reflexivity. }
  exists r1, err. split; [exact Hprep|].
  split; [exact (Submit_prepare_error _ _ _ Hprep) | exact Hheaders].
Qed.

Lemma Submit_host_without_scheme_witness :
  client.GetHost (request.client schemeless_request) = "://"
  /\ exists r' err,
       Submit_prepare schemeless_request = Done (r', Err err)
       /\ request.Submit schemeless_request = Done (r', Err err)
       /\ request.headers r' = request.headers schemeless_request.
Proof.
  split; [vm_compute; reflexivity|].
  apply (Submit_host_without_scheme schemeless_request ∅ schemeless_host).
  - reflexivity.
  - vm_compute. reflexivity.
  - reflexivity.
  - right. eexists. split; [vm_compute; reflexivity | reflexivity].
Defined.

(** ** The outgoing call *)

Lemma NewRequest_inv method rawurl body req :
  http.NewRequest method rawurl body = Ok req ->
  http.Method req = (if String.eqb method "" then "GET" else method)
  /\ http.validMethod (http.Method req) = true
  /\ http.Body req = body
  /\ http.ctx req = http.Background
  /\ exists u, url.Parse rawurl = Ok u
               /\ http.ReqHost req = http.removeEmptyPort (url.Host u)
               /\ url.Host (http.URL req) = http.removeEmptyPort (url.Host u)
               /\ url.Scheme (http.URL req) = url.Scheme u
               /\ url.Path (http.URL req) = url.Path u
               /\ url.RawQuery (http.URL req) = url.RawQuery u.
Proof.
  unfold http.NewRequest.
  destruct (http.validMethod (if String.eqb method "" then "GET" else method)) eqn:Hvalid;
    [|discriminate].
  destruct (url.Parse rawurl) as [u|e]; [|discriminate].
  cbn. intros [= <-]. cbn. repeat split; try assumption. exists u. repeat split.
Qed.

Lemma Submit_outgoing_inv r rawurl r' req :
  request.Submit_outgoing r rawurl = Done (r', Ok req) ->
  exists req0 hdr,
    http.NewRequest (request.method r) rawurl (request.body r) = Ok req0
    /\ req = http.with_Header
               (match request.ctx r with
                | Some c => http.WithContext req0 c
                | None => req0
                end) hdr.
Proof.
  unfold request.Submit_outgoing.
  destruct (http.NewRequest _ _ _) as [req0|e]; [|discriminate].
  intros H. go_inv H. go_inv H. go_inv H. injection H as _ <-. eauto.
Qed.

Lemma Submit_prepare_inv r r' req :
  Submit_prepare r = Done (r', Ok req) ->
  exists r1 t,
    request.Submit_resolve r = Done (r1, Ok t)
    /\ request.Submit_outgoing r1 (request.target_url t) = Done (r', Ok req).
Proof.
  unfold Submit_prepare. intros H. go_inv H. destruct a as [r1 [t|e]]; [eauto|discriminate].
Qed.

(** X8: the call [Submit] hands to [client.Do] has the method of the
    composer, [GET] when none was set, and that method is a valid token;
    it has the body and the context of the composer (the background
    context when none was set), and the URL [http.NewRequest] parsed from
    the resolved target, host without an empty port. *)
Theorem Submit_outgoing_call (r r' : request.httpRequest) (req : http.Request) :
  Submit_prepare r = Done (r', Ok req) ->
  http.Method req = (if String.eqb (request.method r) "" then "GET" else request.method r)
  /\ http.validMethod (http.Method req) = true
  /\ http.Body req = request.body r
  /\ http.ctx req = default http.Background (request.ctx r)
  /\ exists t u,
       resolved_of r = Some t
       /\ url.Parse (request.target_url t) = Ok u
       /\ http.ReqHost req = http.removeEmptyPort (url.Host u)
       /\ url.Scheme (http.URL req) = url.Scheme u
       /\ url.Host (http.URL req) = http.removeEmptyPort (url.Host u)
       /\ url.Path (http.URL req) = url.Path u
       /\ url.RawQuery (http.URL req) = url.RawQuery u.
Proof.
  intros Hprep. destruct (Submit_prepare_inv _ _ _ Hprep) as (r1 & t & Hres & Hout).
  destruct (Submit_resolve_frame _ _ _ Hres) as [Hfr _].
  destruct (Submit_outgoing_inv _ _ _ _ Hout) as (req0 & hdr & Hnew & ->).
  destruct Hfr as (_ & _ & Hctx & _ & _ & _ & Hbody & _ & Hmethod & _).
  rewrite Hctx, Hbody, Hmethod in *.
  destruct (NewRequest_inv _ _ _ _ Hnew)
    as (HM & Hvalid & HB & HC & u & Hu & Hhost & Huhost & Hscheme & Hupath & Hquery).
  assert (Hshape : forall (P : http.Request -> Prop),
            P req0 -> (forall c, P (http.WithContext req0 c)) ->
            P match request.ctx r with
              | Some c => http.WithContext req0 c
              | None => req0
              end).
  { intros P H0 Hc. destruct (request.ctx r); auto. }
  repeat split.
  - apply (Hshape (fun q => http.Method (http.with_Header q hdr) = _)); intros; exact HM.
  - apply (Hshape (fun q => http.validMethod (http.Method (http.with_Header q hdr)) = true));
      intros; exact Hvalid.
  - apply (Hshape (fun q => http.Body (http.with_Header q hdr) = _)); intros; exact HB.
  - destruct (request.ctx r); [reflexivity | exact HC].
  - exists t, u. unfold resolved_of. rewrite Hres.
    split; [reflexivity|]. split; [exact Hu|].
    destruct (request.ctx r); cbn; repeat split; assumption.
Qed.

Lemma Submit_outgoing_call_witness :
  request.method methodless_request = ""
  /\ http.Method methodless_prepared.2 = "GET"
  /\ http.Body methodless_prepared.2 = ""
  /\ http.ctx methodless_prepared.2 = http.Background.
Proof.
  split; [reflexivity|].
  destruct (Submit_outgoing_call methodless_request methodless_prepared.1
              methodless_prepared.2) as (HM & _ & HB & HC & _).
  - vm_compute. reflexivity.
  - split; [exact HM | split; [exact HB | exact HC]].
Defined.

(** ** Names of headers *)

Lemma canonical_byte_lower upper c :
  http.canonical_byte upper (strings.lower_byte c) = http.canonical_byte upper c.
Proof.
  destruct upper; destruct c as [[] [] [] [] [] [] [] []]; vm_compute; reflexivity.
Qed.

Lemma isToken_lower c : http.isToken (strings.lower_byte c) = http.isToken c.
Proof. destruct c as [[] [] [] [] [] [] [] []]; vm_compute; reflexivity. Qed.

Lemma canonical_bytes_lower s : forall upper,
  http.canonical_bytes upper (strings.ToLower s) = http.canonical_bytes upper s.
Proof.
  induction s as [|c s IH]; intros upper; [reflexivity|].
  unfold strings.ToLower in *. cbn [strings.map_bytes http.canonical_bytes].
  rewrite canonical_byte_lower, IH. reflexivity.
Qed.

Lemma all_token_lower s :
  url.all_bytes http.isToken (strings.ToLower s) = url.all_bytes http.isToken s.
Proof.
  induction s as [|c s IH]; [reflexivity|].
  unfold strings.ToLower in *. cbn [strings.map_bytes url.all_bytes].
  rewrite isToken_lower, IH. reflexivity.
Qed.

Lemma CanonicalHeaderKey_casing k k' :
  url.all_bytes http.isToken k = true ->
  strings.ToLower k' = strings.ToLower k ->
  http.CanonicalHeaderKey k' = http.CanonicalHeaderKey k.
Proof.
  intros Htoken Hlower. unfold http.CanonicalHeaderKey.
  rewrite <- (all_token_lower k'), Hlower, all_token_lower, Htoken.
  rewrite <- (canonical_bytes_lower k'), Hlower. apply canonical_bytes_lower.
Qed.

(** X9: [AddHeader] appends the value under the canonical form of the
    name and leaves every other name and every other field as they were;
    names that are tokens and differ in ASCII case only share one entry; a
    name that is no token is taken as it is; on a nil header map it
    panics. *)
Theorem AddHeader_canonical_name (r : request.httpRequest) (key value : string) :
  (request.headers r = None ->
   request.AddHeader r key value = Panic "assignment to entry in nil map")
  /\ (forall g, request.headers r = Some g ->
        exists r',
          request.AddHeader r key value = Done r'
          /\ same_frame r r'
          /\ request.queries r' = request.queries r
          /\ map_get (request.headers r') (http.CanonicalHeaderKey key)
             = map_get (request.headers r) (http.CanonicalHeaderKey key) ++ [value]
          /\ forall k, k <> http.CanonicalHeaderKey key ->
                       map_get (request.headers r') k = map_get (request.headers r) k)
  /\ (forall key', url.all_bytes http.isToken key = true ->
        strings.ToLower key' = strings.ToLower key ->
        request.AddHeader r key' value = request.AddHeader r key value)
  /\ (url.all_bytes http.isToken key = false -> http.CanonicalHeaderKey key = key).
Proof.
  repeat split.
  - intros Hnil. unfold request.AddHeader, http.Add. rewrite Hnil. reflexivity.
  - intros g Hg.
    destruct (request.AddHeader r key value) as [r'|msg] eqn:Hadd.
    + exists r'. split; [reflexivity|].
      destruct (AddHeader_frame _ _ _ _ Hadd) as [Hfr Hq].
      split; [exact Hfr|]. split; [exact Hq|].
      unfold request.AddHeader in Hadd. go_inv Hadd. injection Hadd as <-.
      rewrite http_Add_appends in Ha. pose proof (map_get_append _ _ _ _ Ha) as Hget.
      cbn [request.headers request.Headers]. split.
      * rewrite Hget. rewrite decide_True by reflexivity. reflexivity.
      * intros k Hne. rewrite Hget. rewrite decide_False by congruence.
        apply app_nil_r.
    + unfold request.AddHeader, http.Add in Hadd. rewrite Hg in Hadd. discriminate.
  - intros key' Htoken Hlower. unfold request.AddHeader, http.Add.
    rewrite (CanonicalHeaderKey_casing _ _ Htoken Hlower). reflexivity.
  - intros Hno. unfold http.CanonicalHeaderKey. rewrite Hno. reflexivity.
Qed.

Example AddHeader_twice :
  (fun run => match run with
              | Done r => map_to_list <$> request.headers r
              | Panic _ => None
              end)
    (r ← request.AddHeader (request.NewHttpRequest bare_client) "x-api-key" "one";
     request.AddHeader r "X-API-KEY" "two")
  = Some [("X-Api-Key", ["one"; "two"])].
Proof. vm_compute. reflexivity. Qed.

(** X10: every header name that carries a value on the outgoing call is
    in canonical form; a value is on the call under a name exactly when
    the composer, as [Submit] leaves it, holds it under a name with that
    canonical form, and no value of the composer is lost. *)
Theorem Submit_outgoing_names (r r' : request.httpRequest) (req : http.Request) :
  Submit_prepare r = Done (r', Ok req) ->
  (forall k, map_get (http.Header req) k <> [] -> http.CanonicalHeaderKey k = k)
  /\ (forall k v, v ∈ map_get (http.Header req) k <->
        exists key, http.CanonicalHeaderKey key = k /\ v ∈ map_get (request.headers r') key)
  /\ (forall key, length (map_get (request.headers r') key)
                  <= length (map_get (http.Header req) (http.CanonicalHeaderKey key))).
Proof.
  intros Hprep. destruct (Submit_prepare_inv _ _ _ Hprep) as (r1 & t & _ & Hout).
  destruct (Submit_outgoing_headers _ _ _ _ Hout) as [_ Hreq].
  assert (Hiff : forall k v, v ∈ map_get (http.Header req) k <->
            exists key, http.CanonicalHeaderKey key = k
                        /\ v ∈ map_get (request.headers r') key).
  { intros k v. rewrite Hreq, gathered_elem. split.
    - intros (key & vs & Hin & Hk & Hv). exists key. split; [exact Hk|].
      rewrite (map_entry_get _ _ _ Hin). exact Hv.
    - intros (key & Hk & Hv). destruct (map_get_entry _ _ _ Hv) as (vs & Hin & Hvs).
      eauto. }
  repeat split.
  - intros k Hne. destruct (map_get (http.Header req) k) as [|v vs] eqn:Hget;
      [contradiction|].
    assert (Hv : v ∈ map_get (http.Header req) k) by (rewrite Hget; left).
    apply Hiff in Hv as (key & <- & _). apply CanonicalHeaderKey_idem.
  - apply Hiff.
  - apply Hiff.
  - intros key. rewrite Hreq.
    destruct (map_get (request.headers r') key) as [|v vs] eqn:Hget; [cbn; lia|].
    assert (Hv : v ∈ map_get (request.headers r') key) by (rewrite Hget; left).
    destruct (map_get_entry _ _ _ Hv) as (vs' & Hin & _).
    rewrite (map_entry_get _ _ _ Hin) in Hget. subst vs'.
    apply list_elem_of_split in Hin as (before & after & ->).
    unfold gathered. rewrite flat_map_app. cbn [flat_map].
    rewrite decide_True by reflexivity. rewrite !length_app. cbn [fst snd]. lia.
Qed.

(** ** The prefix of the profile *)

Lemma HasPrefix_slash c s :
  strings.HasPrefix (String c s) "/" = is_slash c.
Proof.
  unfold strings.HasPrefix, is_slash.
  change (String.prefix "/" (String c s))
    with (match ascii_dec "/" c with
          | left _ => String.prefix "" s
          | right _ => false
          end).
  destruct (ascii_dec "/" c) as [<-|Hne]; [destruct s; reflexivity|].
  symmetry. apply Ascii.eqb_neq. congruence.
Qed.

Lemma trim_left_set_split s :
  exists a, s = a +:+ strings.trim_left_set "/" s
            /\ url.all_bytes is_slash a = true
            /\ strings.HasPrefix (strings.trim_left_set "/" s) "/" = false.
Proof.
  induction s as [|c s IH]; [exists ""; repeat split|].
  cbn [strings.trim_left_set byte_in]. rewrite orb_false_r.
  destruct (Ascii.eqb c "/") eqn:Hc.
  - destruct IH as (a & Hs & Ha & Hp). exists (String c a). rewrite append_cons.
    split; [f_equal; exact Hs|]. split; [|exact Hp].
    cbn [url.all_bytes]. unfold is_slash at 1. rewrite Hc, Ha. reflexivity.
  - exists "". split; [reflexivity|]. split; [reflexivity|].
    rewrite HasPrefix_slash. exact Hc.
Qed.

Lemma Trim_slashes s :
  exists a b,
    s = a +:+ strings.Trim s "/" +:+ b
    /\ url.all_bytes is_slash a = true
    /\ url.all_bytes is_slash b = true
    /\ strings.HasPrefix (strings.Trim s "/") "/" = false
    /\ strings.HasSuffix (strings.Trim s "/") "/" = false.
Proof.
  destruct (trim_left_set_split s) as (a & Hs & Ha & Hp).
  destruct (trim_left_set_split (String.rev (strings.trim_left_set "/" s)))
    as (b & Hr & Hb & Hq).
  unfold strings.Trim.
  set (u := strings.trim_left_set "/" s) in *.
  set (w := strings.trim_left_set "/" (String.rev u)) in *.
  assert (Hu : u = String.rev w +:+ String.rev b).
  { rewrite <- rev_append, <- Hr. symmetry. apply rev_involutive. }
  exists a, (String.rev b). split; [rewrite <- Hu; exact Hs|].
  split; [exact Ha|]. split; [rewrite all_bytes_rev; exact Hb|]. split.
  - destruct (String.rev w) as [|c t] eqn:Hw; [reflexivity|].
    rewrite Hu, append_cons, HasPrefix_slash in Hp. rewrite HasPrefix_slash. exact Hp.
  - unfold strings.HasSuffix. rewrite rev_involutive. exact Hq.
Qed.

(** X11: [GetUrlPrefix] is empty exactly for an empty stored prefix;
    otherwise it is one slash followed by the stored prefix without its
    leading and trailing slashes, so that what follows the slash neither
    begins nor ends with one; a prefix of slashes only gives the bare
    slash. *)
Theorem GetUrlPrefix_normal_form (c : client.httpClient) :
  (client.urlPrefix c = "" -> client.GetUrlPrefix c = "")
  /\ (client.urlPrefix c <> "" ->
      exists a t b,
        client.urlPrefix c = a +:+ t +:+ b
        /\ url.all_bytes is_slash a = true
        /\ url.all_bytes is_slash b = true
        /\ strings.HasPrefix t "/" = false
        /\ strings.HasSuffix t "/" = false
        /\ client.GetUrlPrefix c = "/" +:+ t)
  /\ (client.urlPrefix c <> "" -> url.all_bytes is_slash (client.urlPrefix c) = true ->
      client.GetUrlPrefix c = "/").
Proof.
  assert (Hform : client.urlPrefix c <> "" ->
            client.GetUrlPrefix c = "/" +:+ strings.Trim (client.urlPrefix c) "/").
  { intros Hne. unfold client.GetUrlPrefix.
    destruct (String.eqb_spec (client.urlPrefix c) ""); [contradiction | reflexivity]. }
  split; [|split].
  - intros Hempty. unfold client.GetUrlPrefix. rewrite Hempty. reflexivity.
  - intros Hne. destruct (Trim_slashes (client.urlPrefix c)) as (a & b & Hs & Ha & Hb & Hp & Hq).
    exists a, (strings.Trim (client.urlPrefix c) "/"), b. rewrite (Hform Hne). auto 10.
  - intros Hne Hall. rewrite (Hform Hne).
    destruct (Trim_slashes (client.urlPrefix c)) as (a & b & Hs & _ & _ & Hp & _).
    destruct (strings.Trim (client.urlPrefix c) "/") as [|x t]; [reflexivity|].
    rewrite HasPrefix_slash in Hp. rewrite Hs, !all_bytes_app in Hall.
    cbn [url.all_bytes] in Hall. rewrite Hp in Hall.
    rewrite andb_false_r in Hall. discriminate Hall.
Qed.

Example GetUrlPrefix_samples :
  client.GetUrlPrefix (client.UrlPrefix bare_client " //v1/api// ") = "/v1/api"
  /\ client.GetUrlPrefix (client.UrlPrefix bare_client "///") = "/"
  /\ client.GetUrlPrefix (client.UrlPrefix bare_client "  ") = "".
Proof. vm_compute. repeat split. Qed.

(** ** The envelope [newHttpResponse] builds *)

Lemma lower_byte_idem c : strings.lower_byte (strings.lower_byte c) = strings.lower_byte c.
Proof. destruct c as [[] [] [] [] [] [] [] []]; vm_compute; reflexivity. Qed.

Lemma ToLower_idem s : strings.ToLower (strings.ToLower s) = strings.ToLower s.
Proof.
  unfold strings.ToLower. induction s as [|c s IH]; [reflexivity|].
  cbn [strings.map_bytes]. rewrite lower_byte_idem, IH. reflexivity.
Qed.

Lemma lowered_inv (l : list (string * list string)) :
  forall (h : gmap string (list string)) k vs,
  foldl (fun h kv => <[strings.ToLower kv.1 := kv.2]> h) h l !! k = Some vs ->
  h !! k = Some vs \/ exists name, (name, vs) ∈ l /\ strings.ToLower name = k.
Proof.
  induction l as [|[name0 vs0] l IH]; intros h k vs H; [left; exact H|].
  cbn [foldl] in H. apply IH in H as [H|(name & Hin & Hk)].
  - cbn [fst snd] in H. destruct (decide (strings.ToLower name0 = k)) as [Heq|Hne].
    + rewrite Heq, lookup_insert_eq in H. injection H as ->.
      right. exists name0. split; [left | exact Heq].
    + rewrite lookup_insert_ne in H by exact Hne. left. exact H.
  - right. exists name. split; [right; exact Hin | exact Hk].
Qed.

Lemma lowered_absent (l : list (string * list string)) :
  forall (h : gmap string (list string)) k,
  (forall name vs, (name, vs) ∈ l -> strings.ToLower name <> k) ->
  foldl (fun h kv => <[strings.ToLower kv.1 := kv.2]> h) h l !! k = h !! k.
Proof.
  induction l as [|[name0 vs0] l IH]; intros h k Hno; [reflexivity|].
  cbn [foldl]. rewrite IH.
  - cbn [fst snd]. apply lookup_insert_ne. apply (Hno name0 vs0). left.
  - intros name vs Hin. apply (Hno name vs). right. exact Hin.
Qed.

Lemma lowered_found (l : list (string * list string)) :
  forall (h : gmap string (list string)) name vs,
  (name, vs) ∈ l ->
  (forall name' vs', (name', vs') ∈ l ->
     strings.ToLower name' = strings.ToLower name -> vs' = vs) ->
  foldl (fun h kv => <[strings.ToLower kv.1 := kv.2]> h) h l !! strings.ToLower name
  = Some vs.
Proof.
  induction l as [|[name0 vs0] l IH] using rev_ind; intros h name vs Hin Hsame;
    [inversion Hin|].
  rewrite foldl_app. cbn [foldl fst snd].
  destruct (decide (strings.ToLower name0 = strings.ToLower name)) as [Heq|Hne].
  - rewrite Heq, lookup_insert_eq. f_equal. apply (Hsame name0 vs0); [|exact Heq].
    apply elem_of_app. right. left.
  - rewrite lookup_insert_ne by exact Hne. apply IH.
    + apply elem_of_app in Hin as [Hin|Hin]; [exact Hin|].
      apply list_elem_of_singleton in Hin. injection Hin as -> ->. contradiction.
    + intros name' vs' Hin'. apply Hsame. apply elem_of_app. left. exact Hin'.
Qed.

Lemma GetHeader_present r key v rest :
  map_has (response.headers r) (strings.ToLower key) = true ->
  map_get (response.headers r) (strings.ToLower key) = v :: rest ->
  response.GetHeader r key = Done (v, true) /\ response.HasHeader r key = Done true.
Proof.
  intros Hhas Hget. unfold response.HasHeader, response.GetHeader.
  rewrite Hhas, Hget. split; reflexivity.
Qed.

Lemma GetHeader_absent r key :
  map_has (response.headers r) (strings.ToLower key) = false ->
  response.GetHeader r key = Done ("", false) /\ response.HasHeader r key = Done false.
Proof.
  intros Hhas. unfold response.HasHeader, response.GetHeader.
  rewrite Hhas. split; reflexivity.
Qed.

(** X12: [newHttpResponse] fails exactly with the error of reading the
    body; otherwise the envelope keeps the response, its status code and
    the body, and, the header names of the response being ASCII, every
    header name of the envelope is in lower case and holds the values of a
    header of the response with that name in lower case, and an ASCII name
    that no header of the response has, in any casing, is looked up as
    absent. *)
Theorem newHttpResponse_envelope (resp : http.Response) :
  (forall err, http.RespBody resp = Err err -> response.newHttpResponse resp = Err err)
  /\ (forall body, http.RespBody resp = Ok body ->
        exists r,
          response.newHttpResponse resp = Ok r
          /\ response.Original r = resp
          /\ response.StatusCode r = http.StatusCode resp
          /\ response.Content r = body
          /\ ((forall name vs, (name, vs) ∈ map_entries (http.RespHeader resp) ->
                 is_ascii name = true) ->
              (forall k, map_has (response.Headers r) k = true ->
                 strings.ToLower k = k
                 /\ exists name,
                      strings.ToLower name = k
                      /\ (name, map_get (response.Headers r) k)
                         ∈ map_entries (http.RespHeader resp))
              /\ (forall key, is_ascii key = true ->
                    (forall name vs, (name, vs) ∈ map_entries (http.RespHeader resp) ->
                       strings.ToLower name <> strings.ToLower key) ->
                    response.GetHeader r key = Done ("", false)
                    /\ response.HasHeader r key = Done false))).
Proof.
  split.
  - intros err Hbody. unfold response.newHttpResponse. rewrite Hbody. reflexivity.
  - intros body Hbody. unfold response.newHttpResponse. rewrite Hbody.
    eexists. split; [reflexivity|]. do 3 (split; [reflexivity|]). intros _. split.
    + intros k Hhas. unfold response.Headers, response.lower_headers, map_has, map_get in *.
      cbn in *. apply bool_decide_eq_true in Hhas as [vs Hvs]. rewrite Hvs. cbn.
      apply lowered_inv in Hvs as [Hvs|(name & Hin & <-)];
        [rewrite lookup_empty in Hvs; discriminate|].
      split; [apply ToLower_idem | eauto].
    + intros key _ Hno. apply GetHeader_absent. cbn. apply bool_decide_eq_false.
      rewrite (lowered_absent _ _ _ Hno), lookup_empty. intros [x Hx]. discriminate.
Qed.

(** X13: the header names of the response being ASCII, a header that
    no other header of the response equals in lower case is found in the
    envelope under every ASCII casing of its name: [GetHeader] returns its
    first value and [HasHeader] is true. *)
Theorem newHttpResponse_lookup
    (resp : http.Response) (r : response.httpResponse) (name v : string)
    (rest : list string) :
  response.newHttpResponse resp = Ok r ->
  (forall name' vs', (name', vs') ∈ map_entries (http.RespHeader resp) ->
     is_ascii name' = true) ->
  (name, v :: rest) ∈ map_entries (http.RespHeader resp) ->
  (forall name' vs', (name', vs') ∈ map_entries (http.RespHeader resp) ->
     strings.ToLower name' = strings.ToLower name -> name' = name) ->
  map_get (response.Headers r) (strings.ToLower name) = v :: rest
  /\ forall key, is_ascii key = true -> strings.ToLower key = strings.ToLower name ->
       response.GetHeader r key = Done (v, true)
       /\ response.HasHeader r key = Done true.
Proof.
  intros Hnew _ Hin Hunique. unfold response.newHttpResponse in Hnew.
  destruct (http.RespBody resp) as [body|e]; [|discriminate]. injection Hnew as <-.
  assert (Hlookup :
    foldl (fun h kv => <[strings.ToLower kv.1 := kv.2]> h)
      (∅ : gmap string (list string))
      (map_entries (http.RespHeader resp)) !! strings.ToLower name = Some (v :: rest)).
  { apply lowered_found; [exact Hin|]. intros name' vs' Hin' Hlow.
    pose proof (Hunique _ _ Hin' Hlow) as ->.
    rewrite <- (map_entry_get _ _ _ Hin), <- (map_entry_get _ _ _ Hin'). reflexivity. }
  assert (Hget : map_get (response.lower_headers (http.RespHeader resp))
                   (strings.ToLower name) = v :: rest).
  { unfold response.lower_headers, map_get. rewrite Hlookup. reflexivity. }
  split; [exact Hget|]. intros key _ Hkey. apply (GetHeader_present _ _ v rest).
  - cbn. rewrite Hkey. apply bool_decide_eq_true. rewrite Hlookup. eauto.
  - cbn. rewrite Hkey. exact Hget.
Qed.

Lemma newHttpResponse_lookup_witness :
  response.newHttpResponse json_response = Ok json_envelope
  /\ map_get (response.Headers json_envelope) "content-type" = ["application/json"]
  /\ forall key, is_ascii key = true -> strings.ToLower key = "content-type" ->
       response.GetHeader json_envelope key = Done ("application/json", true)
       /\ response.HasHeader json_envelope key = Done true.
Proof.
  split; [vm_compute; reflexivity|].
  apply (newHttpResponse_lookup json_response json_envelope "Content-Type"
           "application/json" []).
  - vm_compute. reflexivity.
  - intros name' vs' Hin. vm_compute in Hin.
    apply list_elem_of_singleton in Hin. injection Hin as -> _. reflexivity.
  - vm_compute. left.
  - intros name' vs' Hin _. vm_compute in Hin.
    apply list_elem_of_singleton in Hin. injection Hin as -> _. reflexivity.
Defined.

(** ** Query escaping *)

Lemma escape_cons c s mode :
  url.escape (String c s) mode = url.escape (String c "") mode +:+ url.escape s mode.
Proof.
  cbn [url.escape].
  destruct (Ascii.eqb c " " && bool_decide (mode = url.encodeQueryComponent));
    [reflexivity|].
  destruct (url.shouldEscape c mode); reflexivity.
Qed.

Lemma escape_byte_safe c :
  url.all_bytes query_safe (url.escape (String c "") url.encodeQueryComponent) = true.
Proof. destruct c as [[] [] [] [] [] [] [] []]; vm_compute; reflexivity. Qed.

Lemma QueryEscape_safe s : url.all_bytes query_safe (url.QueryEscape s) = true.
Proof.
  unfold url.QueryEscape. induction s as [|c s IH]; [reflexivity|].
  rewrite escape_cons, all_bytes_app, escape_byte_safe, IH. reflexivity.
Qed.

(** What [QueryEscape] writes for one byte: [+] for a space, the byte
    itself, or its two hex digits after a [%]. *)
Lemma escape_byte_cases c :
  (c = " "%char /\ url.escape (String c "") url.encodeQueryComponent = "+")
  \/ (Ascii.eqb c "%" = false /\ Ascii.eqb c "+" = false
      /\ url.escape (String c "") url.encodeQueryComponent = String c "")
  \/ exists h1 h2,
       url.escape (String c "") url.encodeQueryComponent = String "%" (String h1 (String h2 ""))
       /\ url.ishex h1 = true /\ url.ishex h2 = true /\ url.decode_hex h1 h2 = c.
Proof.
  destruct c as [[] [] [] [] [] [] [] []];
    first [ left; split; reflexivity
          | right; left; repeat split; reflexivity
          | right; right; eexists _, _; repeat split; vm_compute; reflexivity ].
Qed.

Lemma unescape_check_query_plain c rest :
  Ascii.eqb c "%" = false ->
  url.unescape_check url.encodeQueryComponent (String c rest)
  = url.unescape_check url.encodeQueryComponent rest.
Proof.
  intros Hc. cbn [url.unescape_check]. rewrite Hc.
  destruct (Ascii.eqb c "+"); reflexivity.
Qed.

Lemma unescape_check_query_hex h1 h2 rest :
  url.ishex h1 = true -> url.ishex h2 = true ->
  url.unescape_check url.encodeQueryComponent (String "%" (String h1 (String h2 rest)))
  = url.unescape_check url.encodeQueryComponent rest.
Proof.
  intros H1 H2. cbn [url.unescape_check].
  change (Ascii.eqb "%" "%") with true. cbv iota. rewrite H1, H2. reflexivity.
Qed.

Lemma unescape_decode_query_plain c rest :
  Ascii.eqb c "%" = false -> Ascii.eqb c "+" = false ->
  url.unescape_decode url.encodeQueryComponent (String c rest)
  = String c (url.unescape_decode url.encodeQueryComponent rest).
Proof. intros Hc Hp. cbn [url.unescape_decode]. rewrite Hc, Hp. reflexivity. Qed.

Lemma unescape_check_escaped_byte c rest :
  url.unescape_check url.encodeQueryComponent
    (url.escape (String c "") url.encodeQueryComponent +:+ rest)
  = url.unescape_check url.encodeQueryComponent rest.
Proof.
  destruct (escape_byte_cases c) as [[-> ->]|[(Hc & Hp & ->)|(h1 & h2 & -> & H1 & H2 & _)]].
  - reflexivity.
  - rewrite append_cons. apply unescape_check_query_plain, Hc.
  - rewrite !append_cons. apply unescape_check_query_hex; assumption.
Qed.

Lemma unescape_decode_escaped_byte c rest :
  url.unescape_decode url.encodeQueryComponent
    (url.escape (String c "") url.encodeQueryComponent +:+ rest)
  = String c (url.unescape_decode url.encodeQueryComponent rest).
Proof.
  destruct (escape_byte_cases c) as [[-> ->]|[(Hc & Hp & ->)|(h1 & h2 & -> & _ & _ & <-)]].
  - reflexivity.
  - rewrite append_cons. apply unescape_decode_query_plain; assumption.
  - reflexivity.
Qed.

Lemma QueryUnescape_QueryEscape s : url.QueryUnescape (url.QueryEscape s) = Ok s.
Proof.
  unfold url.QueryUnescape, url.QueryEscape, url.unescape.
  assert (Hcheck : url.unescape_check url.encodeQueryComponent
                     (url.escape s url.encodeQueryComponent) = None).
  { induction s as [|c s IH]; [reflexivity|].
    rewrite escape_cons, unescape_check_escaped_byte. exact IH. }
  rewrite Hcheck. f_equal. clear Hcheck.
  induction s as [|c s IH]; [reflexivity|].
  rewrite escape_cons, unescape_decode_escaped_byte. f_equal. exact IH.
Qed.

(** ** The query string read back *)

Lemma query_safe_others c :
  query_safe c = true ->
  negb (Ascii.eqb c "&") = true /\ negb (Ascii.eqb c "=") = true
  /\ negb (Ascii.eqb c ";") = true.
Proof. destruct c as [[] [] [] [] [] [] [] []]; vm_compute; intros H; repeat split; discriminate H. Qed.

Lemma QueryEscape_no_byte d s :
  (d = "&" \/ d = "=" \/ d = ";")%char -> no_byte d (url.QueryEscape s) = true.
Proof.
  intros Hd. apply (all_bytes_impl query_safe); [|apply QueryEscape_safe].
  intros c Hc. destruct (query_safe_others c Hc) as (H1 & H2 & H3).
  destruct Hd as [->|[->| ->]]; assumption.
Qed.

Lemma pair_segment_no_byte d kv :
  (d = "&" \/ d = ";")%char -> no_byte d (pair_segment kv) = true.
Proof.
  intros Hd. unfold pair_segment, no_byte. rewrite !all_bytes_app.
  fold (no_byte d (url.QueryEscape kv.1)). fold (no_byte d (url.QueryEscape kv.2)).
  rewrite !QueryEscape_no_byte by (destruct Hd as [->| ->]; auto).
  destruct Hd as [->| ->]; reflexivity.
Qed.

Lemma segments_single x : no_byte "&" x = true -> url.segments x = [x].
Proof.
  unfold no_byte. induction x as [|c x IH]; [reflexivity|]. cbn [url.all_bytes].
  intros [Hc Hx]%andb_true_iff. cbn [url.segments].
  apply negb_true_iff in Hc. rewrite Hc, (IH Hx). reflexivity.
Qed.

Lemma segments_app x rest :
  no_byte "&" x = true ->
  url.segments (x +:+ String "&" rest) = x :: url.segments rest.
Proof.
  unfold no_byte. induction x as [|c x IH]; [reflexivity|]. cbn [url.all_bytes].
  intros [Hc Hx]%andb_true_iff. rewrite append_cons. cbn [url.segments].
  apply negb_true_iff in Hc. rewrite Hc, (IH Hx). reflexivity.
Qed.

Lemma segments_concat seg segs :
  (forall x, x ∈ seg :: segs -> no_byte "&" x = true) ->
  url.segments (String.concat "&" (seg :: segs)) = seg :: segs.
Proof.
  revert seg. induction segs as [|y segs IH]; intros seg Hall.
  - apply segments_single, Hall. left.
  - change (String.concat "&" (seg :: y :: segs))
      with (seg +:+ String "&" (String.concat "&" (y :: segs))).
    rewrite segments_app by (apply Hall; left). f_equal. apply IH.
    intros x Hx. apply Hall. right. exact Hx.
Qed.

Lemma Index_first (d : ascii) a b :
  no_byte d a = true ->
  strings.Index (a +:+ String d b) (String d "") = Some (String.length a).
Proof.
  unfold no_byte. induction a as [|c a IH].
  - intros _. change ("" +:+ String d b) with (String d b). cbn [strings.Index].
    rewrite HasPrefix_cons. destruct b; reflexivity.
  - cbn [url.all_bytes]. intros [Hc Ha]%andb_true_iff. rewrite append_cons.
    cbn [strings.Index]. unfold strings.HasPrefix at 1. cbn [String.prefix].
    destruct (ascii_dec d c) as [->|_].
    + rewrite Ascii.eqb_refl in Hc. discriminate.
    + rewrite (IH Ha). reflexivity.
Qed.

Lemma parseQuery_step_pair kv (m : gmap string (list string)) :
  url.parseQuery_step (pair_segment kv) (m, None)
  = (<[kv.1 := default [] (m !! kv.1) ++ [kv.2]]> m, None).
Proof.
  unfold url.parseQuery_step.
  assert (Hsemi : strings.Contains (pair_segment kv) ";" = false).
  { unfold strings.Contains. rewrite Index_absent; [reflexivity|].
    apply (pair_segment_no_byte ";"). auto. }
  rewrite Hsemi.
  assert (Hfull : String.eqb (pair_segment kv) "" = false).
  { unfold pair_segment. destruct (url.QueryEscape kv.1); reflexivity. }
  rewrite Hfull.
  assert (Hcut : strings.Cut (pair_segment kv) "="
                 = (url.QueryEscape kv.1, url.QueryEscape kv.2, true)).
  { unfold strings.Cut, pair_segment.
    change ("=" +:+ url.QueryEscape kv.2) with (String "=" (url.QueryEscape kv.2)).
    rewrite Index_first by (apply QueryEscape_no_byte; auto).
    rewrite take_app. cbn [String.length]. rewrite Nat.add_1_r, drop_S_app.
    reflexivity. }
  rewrite Hcut, !QueryUnescape_QueryEscape. reflexivity.
Qed.

Lemma parseQuery_pairs pairs : forall (m : gmap string (list string)),
  foldl (fun st key => url.parseQuery_step key st) (m, None) (pair_segment <$> pairs)
  = (foldl (fun m kv => <[kv.1 := default [] (m !! kv.1) ++ [kv.2]]> m) m pairs, None).
Proof.
  induction pairs as [|kv pairs IH]; intros m; [reflexivity|].
  cbn [fmap list_fmap foldl]. rewrite parseQuery_step_pair. apply IH.
Qed.

Lemma added_pairs_get pairs : forall (m : gmap string (list string)) k,
  default [] (foldl (fun m kv => <[kv.1 := default [] (m !! kv.1) ++ [kv.2]]> m) m pairs
              !! k)
  = default [] (m !! k) ++ values_of k pairs.
Proof.
  induction pairs as [|[k0 v0] pairs IH]; intros m k.
  - cbn. rewrite app_nil_r. reflexivity.
  - cbn [foldl]. rewrite IH. unfold values_of. cbn [flat_map fst snd].
    destruct (decide (k0 = k)) as [->|Hne].
    + rewrite lookup_insert_eq. cbn. rewrite <- app_assoc. reflexivity.
    + rewrite lookup_insert_ne by exact Hne. reflexivity.
Qed.

Lemma values_of_pairs k keys (vals : string -> list string) :
  NoDup keys ->
  values_of k (flat_map (fun k' => pair k' <$> vals k') keys)
  = if decide (k ∈ keys) then vals k else [].
Proof.
  assert (Hone : forall k' vs, values_of k (pair k' <$> vs)
                               = if decide (k' = k) then vs else []).
  { intros k' vs. unfold values_of. induction vs as [|v vs IHvs].
    - destruct (decide _); reflexivity.
    - cbn [fmap list_fmap flat_map fst snd]. rewrite IHvs.
      destruct (decide (k' = k)); reflexivity. }
  induction keys as [|k0 keys IH]; intros Hnd.
  - rewrite decide_False by apply not_elem_of_nil. reflexivity.
  - apply NoDup_cons in Hnd as [Hnotin Hnd]. cbn [flat_map].
    assert (Happ : forall a b, values_of k (a ++ b) = values_of k a ++ values_of k b)
      by (intros a b; unfold values_of; apply flat_map_app).
    rewrite Happ, Hone, (IH Hnd).
    destruct (decide (k0 = k)) as [->|Hne].
    + rewrite (decide_False (P := k ∈ keys)) by exact Hnotin.
      rewrite decide_True by left. apply app_nil_r.
    + destruct (decide (k ∈ keys)) as [Hin|Hout].
      * rewrite decide_True by (right; exact Hin). reflexivity.
      * rewrite decide_False; [reflexivity|]. intros Hc.
        apply elem_of_cons in Hc as [->|Hc]; [apply Hne; reflexivity | exact (Hout Hc)].
Qed.

Lemma sort_keys_NoDup (g : gmap string (list string)) :
  NoDup (url.sort_keys (map fst (map_to_list g))).
Proof.
  unfold url.sort_keys. rewrite merge_sort_Permutation. apply NoDup_fst_map_to_list.
Qed.

Lemma values_of_pairs_of m k : values_of k (pairs_of m) = map_get m k.
Proof.
  unfold pairs_of. destruct m as [g|]; [|reflexivity].
  rewrite (values_of_pairs k _ (map_get (Some g))) by apply sort_keys_NoDup.
  destruct (decide _) as [Hin|Hout]; [reflexivity|].
  destruct (map_get (Some g) k) as [|v vs] eqn:Hget; [reflexivity|].
  exfalso. apply Hout. apply (map_get_nonempty_key (Some g) k). rewrite Hget. discriminate.
Qed.

Lemma ParseQuery_Encode m :
  url.ParseQuery (url.Encode m)
  = (foldl (fun m kv => <[kv.1 := default [] (m !! kv.1) ++ [kv.2]]> m) ∅ (pairs_of m),
     None).
Proof.
  rewrite Encode_segments. unfold url.ParseQuery.
  destruct (pairs_of m) as [|kv pairs]; [reflexivity|].
  change (pair_segment <$> kv :: pairs) with (pair_segment kv :: (pair_segment <$> pairs)).
  rewrite segments_concat.
  - apply (parseQuery_pairs (kv :: pairs)).
  - intros x Hx. change (x ∈ pair_segment <$> kv :: pairs) in Hx.
    apply list_elem_of_fmap in Hx as (kv' & -> & _). apply pair_segment_no_byte. auto.
Qed.

(** The keys of the pairs [Values.Encode] writes are in ascending
    order. *)
Lemma pairs_of_sorted m : StronglySorted String.le (pairs_of m).*1.
Proof.
  unfold pairs_of.
  assert (Hkeys : StronglySorted String.le (url.sort_keys (map fst (map_entries m))))
    by (apply StronglySorted_merge_sort; apply _).
  induction Hkeys as [|k keys Hs IH Hall]; [constructor|].
  cbn [flat_map]. rewrite fmap_app. apply StronglySorted_app_2.
  - intros x1 x2 Hx1 Hx2.
    apply list_elem_of_fmap in Hx1 as ([k1 v1] & -> & Hx1).
    apply list_elem_of_fmap in Hx1 as (v1' & [= -> ->] & _).
    apply list_elem_of_fmap in Hx2 as ([k2 v2] & -> & Hx2).
    apply list_elem_of_In, in_flat_map in Hx2 as (k' & Hk' & Hx2).
    apply list_elem_of_In in Hx2, Hk'.
    apply list_elem_of_fmap in Hx2 as (v2' & [= -> ->] & _).
    cbn. rewrite Forall_forall in Hall. apply Hall. exact Hk'.
  - induction (map_get m k) as [|v vs IHvs]; [constructor|].
    cbn [fmap list_fmap fst]. constructor; [exact IHvs|].
    apply Forall_forall. intros x Hx.
    apply list_elem_of_fmap in Hx as ([k' v'] & -> & Hx).
    apply list_elem_of_fmap in Hx as (v'' & [= -> ->] & _). reflexivity.
  - exact IH.
Qed.

Lemma Submit_outgoing_names_witness :
  Submit_prepare (sample_request answers) = Done (sample_prepared.1, Ok sample_prepared.2)
  /\ (forall k, map_get (http.Header sample_prepared.2) k <> [] ->
        http.CanonicalHeaderKey k = k)
  /\ map_get (http.Header sample_prepared.2) "X-Key" = ["secret"].
Proof.
  assert (Hprep : Submit_prepare (sample_request answers)
                  = Done (sample_prepared.1, Ok sample_prepared.2))
    by (vm_compute; reflexivity).
  split; [exact Hprep|].
  destruct (Submit_outgoing_names _ _ _ Hprep) as (Hcanonical & _).
  split; [exact Hcanonical | vm_compute; reflexivity].
Defined.

Example Submit_unreadable_body :
  (fun run => match run with
              | Done (_, res) => Some res
              | Panic _ => None
              end) (request.Submit (sample_request breaks_off))
  = Some (Err unexpected_EOF).
Proof. vm_compute. reflexivity. Qed.

(** X14: [url.QueryUnescape] undoes [url.QueryEscape] on every byte
    string, and what [QueryEscape] writes holds unreserved bytes, [%] and
    [+] only, so none of the separators [&], [=] and [#]. *)
Theorem QueryEscape_round_trip (s : string) :
  url.QueryUnescape (url.QueryEscape s) = Ok s
  /\ url.all_bytes query_safe (url.QueryEscape s) = true
  /\ no_byte "&" (url.QueryEscape s) = true
  /\ no_byte "=" (url.QueryEscape s) = true
  /\ no_byte "#" (url.QueryEscape s) = true.
Proof.
  split; [apply QueryUnescape_QueryEscape|]. split; [apply QueryEscape_safe|].
  split; [apply QueryEscape_no_byte; auto|]. split; [apply QueryEscape_no_byte; auto|].
  apply (all_bytes_impl query_safe); [|apply QueryEscape_safe].
  intros c. destruct c as [[] [] [] [] [] [] [] []]; vm_compute; congruence.
Qed.

Example QueryEscape_samples :
  url.QueryEscape "a b&c=d/é" = "a+b%26c%3Dd%2F%C3%A9"
  /\ url.QueryUnescape "a+b%26c%3Dd%2F%C3%A9" = Ok "a b&c=d/é".
Proof. vm_compute. split; reflexivity. Qed.

(** X15: the query string [Submit] builds with [Values.Encode] is the
    pairs [key=value], escaped, joined by [&], in ascending order of the
    keys whatever the order of the map, the values of a key in the order
    they were added; it is empty exactly when no key has a value. *)
Theorem Encode_layout (m : MultiMap) :
  url.Encode m = String.concat "&" (pair_segment <$> pairs_of m)
  /\ StronglySorted String.le (pairs_of m).*1
  /\ (forall k, values_of k (pairs_of m) = map_get m k)
  /\ (url.Encode m = "" <-> forall k, map_get m k = []).
Proof.
  split; [apply Encode_segments|]. split; [apply pairs_of_sorted|].
  split; [apply values_of_pairs_of|]. rewrite Encode_segments. split.
  - intros Hempty k. rewrite <- values_of_pairs_of.
    destruct (pairs_of m) as [|kv pairs]; [reflexivity|]. exfalso.
    pose proof (concat_length (pair_segment kv) (pair_segment <$> pairs)) as Hlen.
    pose proof (pair_segment_length kv) as Hpos.
    change (pair_segment <$> kv :: pairs) with (pair_segment kv :: (pair_segment <$> pairs))
      in Hempty.
    rewrite Hempty in Hlen. cbn in Hlen. lia.
  - intros Hnone. destruct (pairs_of m) as [|[k v] pairs] eqn:Hpairs; [reflexivity|].
    exfalso. pose proof (values_of_pairs_of m k) as Hk. rewrite Hpairs, Hnone in Hk.
    unfold values_of in Hk. cbn [flat_map fst snd] in Hk.
    rewrite decide_True in Hk by reflexivity. discriminate Hk.
Qed.

(** X16: [url.ParseQuery] reads the string [Values.Encode] writes back
    without error, and to the same values under every key. *)
Theorem Encode_reads_back (m : MultiMap) :
  (url.ParseQuery (url.Encode m)).2 = None
  /\ forall k, map_get (Some (url.ParseQuery (url.Encode m)).1) k = map_get m k.
Proof.
  rewrite ParseQuery_Encode. split; [reflexivity|]. intros k. cbn [fst map_get].
  rewrite added_pairs_get, lookup_empty, values_of_pairs_of. reflexivity.
Qed.

Example Encode_samples :
  url.Encode (Some {[ "b" := ["2"; "1"]; "a" := ["x y"] ]}) = "a=x+y&b=2&b=1"
  /\ map_to_list (url.ParseQuery "a=x+y&b=2&b=1").1 = [("a", ["x y"]); ("b", ["2"; "1"])]
  /\ url.Encode (Some {[ "a" := [] ]}) = "".
Proof. vm_compute. repeat split. Qed.
